(** * genmod: the [score_compounds] coordinator

    A shallow embedding of [genmod/commands/score_compounds.py].

    The file has two layers.

    - The command [compound] is written in a small state-and-exception monad
      over a [world]: the objects the function owns (the input stream, the
      header parser, the temporary file) and the ordered list of calls it has
      made so far (its [w_trace]).
    - The calls of that trace are then executed by the coordinating process of
      a [pipeline]: an interleaving machine with one coordinator, the scorer
      processes and the printer process, sharing the two queues.

    The collaborators that live in other modules of the package
    ([genmod.vcf_tools], [genmod.utils], [genmod.score_variants]) are the
    fields of the class [Collaborators]. *)

From Stdlib Require Import ZArith List String Ascii Bool Lia.
From stdpp Require Import base option list.
Import ListNotations.

Local Open Scope string_scope.
Local Open Scope list_scope.

(** ** Python values that occur in the command *)

(** Arguments of [str.format]: the message template is kept apart from the
    values it is filled with. *)
Inductive pyval : Type :=
| VStr (s : string)
| VInt (z : Z)
| VWorker (i : nat)          (* a CompoundScorer process object *)
| VTimedelta (dt : Z).       (* str(datetime.now() - start) *)

Inductive level : Type := INFO | DEBUG.

Inductive pyexn : Type :=
| UnsupportedOperation       (* io.UnsupportedOperation: seek on a pipe *)
| OSError (path : string).   (* os.remove could not delete [path] *)

(** [str.isspace] on the ASCII range. *)
Definition isspace (c : ascii) : bool :=
  let n := nat_of_ascii c in
  (Nat.leb 9 n && Nat.leb n 13) || (Nat.leb 28 n && Nat.leb n 32).

(** [str.rstrip()] with no argument: drop the trailing white space. *)
Fixpoint rstrip (s : string) : string :=
  match s with
  | EmptyString => EmptyString
  | String c s' =>
      match rstrip s' with
      | EmptyString => if isspace c then EmptyString else String c EmptyString
      | r => String c r
      end
  end.

(** [line.startswith(p)]. *)
Definition startswith (line p : string) : bool := String.prefix p line.

(** [range(n)] for a Python int: empty when [n <= 0]. *)
Definition range (n : Z) : list nat := seq 0 (Z.to_nat n).

(** ** Streams

    A text stream as [click.File('r')] hands it to the command: the lines of
    the underlying file, the index of the next line the iterator yields, and
    whether the descriptor can seek (a regular file can, a pipe cannot). *)
Record stream : Type := mkStream {
  s_lines : list string;
  s_pos : nat;
  s_seekable : bool
}.

(** The lines a reader starting at the current position receives. *)
Definition remaining (f : stream) : list string := drop (s_pos f) (s_lines f).

(** What [click.File('r')] resolves the argument to: ['-'] is standard input,
    anything else is opened as a regular file. *)
Record opsys : Type := mkOpsys {
  os_stdin : stream;
  os_files : list (string * list string)
}.

Fixpoint lookup_file (path : string) (fs : list (string * list string))
  : option (list string) :=
  match fs with
  | [] => None
  | (p, ls) :: fs' => if String.eqb p path then Some ls else lookup_file path fs'
  end.

Definition click_File (arg : string) (os : opsys) : option stream :=
  if String.eqb arg "-" then Some (os_stdin os)
  else match lookup_file arg (os_files os) with
       | Some ls => Some (mkStream ls 0 true)
       | None => None
       end.

(** ** Collaborators

    The functions and classes [score_compounds.py] imports from the rest of the
    package.  The command only calls them; what they compute is a parameter of
    the development. *)
Class Collaborators : Type := {
  (** [genmod.vcf_tools.HeaderParser] objects *)
  header : Type;
  (** a batch of variants, as [get_batches] puts it on the batch queue *)
  batch : Type;
  (** what a scorer puts on the results queue for one batch *)
  scored : Type;
  (** [genmod.__version__] *)
  version : string;
  (** [HeaderParser()] *)
  HeaderParser : header;
  (** [head.parse_meta_data(line)] and [head.parse_header_line(line)] *)
  parse_meta_data : header -> string -> header;
  parse_header_line : header -> string -> header;
  (** the attributes [head.header] and [head.individuals] *)
  header_attr : header -> list string;
  individuals_attr : header -> list string;
  (** [add_metadata(head, section, key, annotation_number, entry_type,
      description)] *)
  add_metadata : header -> string -> string -> string -> string -> string -> header;
  (** the units [get_batches] emits for the lines it reads, in order: a batch
      for the batch queue, or a failure payload for the results queue *)
  batching : list string -> header -> bool -> bool -> list (batch + scored);
  (** the scoring of one batch by a [CompoundScorer] built with [individuals] *)
  score : list string -> batch -> scored;
  (** the lines [VariantPrinter] appends to its outfile for one unit *)
  render : header -> string -> scored -> list string;
  (** [sort_variants(infile, mode)]: the file's lines after the in-place sort *)
  sort_lines : string -> list string -> list string
}.

(** ** Calls

    Every call [compound] makes on a collaborator, on the standard library or
    on one of its objects, with the arguments the source passes (objects by
    their value at the time of the call). *)
Section Command.
Context `{Collaborators}.

Inductive call : Type :=
| E_log (lvl : level) (fmt : string) (args : list pyval)
| E_datetime_now
| E_HeaderParser
| E_parse_meta_data (line : string)
| E_parse_header_line (line : string)
| E_seek (offset : Z)
| E_add_metadata (head : header) (section key : string)
    (annotation_number entry_type description : string)
| E_JoinableQueue (maxsize : Z)
| E_Manager_Queue
| E_cpu_count
| E_NamedTemporaryFile (delete : bool)
| E_temp_file_close
| E_CompoundScorer (i : nat) (individuals : list string)
| E_worker_start (i : nat)
| E_VariantPrinter (head : header) (mode : string) (outfile : string)
| E_variant_printer_start
| E_get_batches (variants : stream) (head : header) (vep compound_mode : bool)
| E_variant_queue_put_None
| E_variant_queue_join
| E_results_put_None
| E_variant_printer_join
| E_sort_variants (infile mode : string)
| E_print_headers (head : header) (outfile : option string) (silent : bool)
| E_open (path mode encoding : string)
| E_print_variant (variant_line : string) (outfile : option string)
    (mode : string) (silent : bool)
| E_os_remove (path : string).

(** ** The world of the coordinating process *)
Record world : Type := mkWorld {
  w_variant_file : stream;            (* the [variant_file] argument *)
  w_head : header;                    (* the object bound to [head] *)
  w_temp_name : string;               (* the name NamedTemporaryFile picks *)
  w_temp_file : option (list string); (* lines of that file, if it exists *)
  w_spill : list string;              (* what the printer process has appended
                                         by the time it exits *)
  w_remove_fails : bool;              (* whether os.remove will raise *)
  w_cpu_count : Z;
  w_clock : list Z;                   (* the successive clock readings *)
  w_trace : list call                 (* calls made so far, oldest first *)
}.

Definition set_variant_file (f : stream) (w : world) : world :=
  mkWorld f (w_head w) (w_temp_name w) (w_temp_file w) (w_spill w)
    (w_remove_fails w) (w_cpu_count w) (w_clock w) (w_trace w).
Definition set_head (h : header) (w : world) : world :=
  mkWorld (w_variant_file w) h (w_temp_name w) (w_temp_file w) (w_spill w)
    (w_remove_fails w) (w_cpu_count w) (w_clock w) (w_trace w).
Definition set_temp_file (t : option (list string)) (w : world) : world :=
  mkWorld (w_variant_file w) (w_head w) (w_temp_name w) t (w_spill w)
    (w_remove_fails w) (w_cpu_count w) (w_clock w) (w_trace w).
Definition set_clock (c : list Z) (w : world) : world :=
  mkWorld (w_variant_file w) (w_head w) (w_temp_name w) (w_temp_file w)
    (w_spill w) (w_remove_fails w) (w_cpu_count w) c (w_trace w).
Definition set_trace (t : list call) (w : world) : world :=
  mkWorld (w_variant_file w) (w_head w) (w_temp_name w) (w_temp_file w)
    (w_spill w) (w_remove_fails w) (w_cpu_count w) (w_clock w) t.

(** ** The monad: state over [world], with Python exceptions *)
Inductive outcome (A : Type) : Type :=
| Return (a : A) (w : world)
| Raise (e : pyexn) (w : world).
Arguments Return {A} a w.
Arguments Raise {A} e w.

Definition M (A : Type) : Type := world -> outcome A.

#[export] Instance M_ret : MRet M := fun A a w => Return a w.
#[export] Instance M_bind : MBind M := fun A B k m w =>
  match m w with
  | Return a w' => k a w'
  | Raise e w' => Raise e w'
  end.

Definition final {A} (o : outcome A) : world :=
  match o with Return _ w => w | Raise _ w => w end.

Definition raised {A} (o : outcome A) : option pyexn :=
  match o with Return _ _ => None | Raise e _ => Some e end.

(** Record a call. *)
Definition emit (c : call) : M unit :=
  fun w => Return tt (set_trace (w_trace w ++ [c]) w).

(** [for x in l: body(x)] *)
Fixpoint for_each {A} (l : list A) (body : A -> M unit) : M unit :=
  match l with
  | [] => mret tt
  | x :: l' => body x;; for_each l' body
  end.

(** [[f(i) for i in l]] *)
Fixpoint comprehension {A B} (l : list A) (f : A -> M B) : M (list B) :=
  match l with
  | [] => mret []
  | x :: l' => y ← f x; ys ← comprehension l' f; mret (y :: ys)
  end.

(** [for line in variant_file: ...] with [break]: the iterator yields the
    lines from the current position on, one per round, and the position moves
    past each line it has yielded (the one that triggers [break] included). *)
Inductive loop_ctl : Type := Continue | Break.

Definition advance : M unit :=
  fun w => let f := w_variant_file w in
           Return tt (set_variant_file
                        (mkStream (s_lines f) (S (s_pos f)) (s_seekable f)) w).

Fixpoint iterate (ls : list string) (body : string -> M loop_ctl) : M unit :=
  match ls with
  | [] => mret tt
  | line :: ls' =>
      advance;;
      c ← body line;
      match c with Continue => iterate ls' body | Break => mret tt end
  end.

Definition for_line_in_variant_file (body : string -> M loop_ctl) : M unit :=
  fun w => iterate (remaining (w_variant_file w)) body w.

(** ** Primitive operations *)

Definition gets {A} (f : world -> A) : M A := fun w => Return (f w) w.
Definition modify (f : world -> world) : M unit := fun w => Return tt (f w).
Definition raise {A} (e : pyexn) : M A := fun w => Raise e w.

Definition logger_info (fmt : string) (args : list pyval) : M unit :=
  emit (E_log INFO fmt args).
Definition logger_debug (fmt : string) (args : list pyval) : M unit :=
  emit (E_log DEBUG fmt args).

(** [datetime.now()]: the next reading of the clock. *)
Definition datetime_now : M Z :=
  emit E_datetime_now;;
  c ← gets w_clock;
  modify (set_clock (tl c));;
  mret (hd 0%Z c).

(** [head = HeaderParser()] *)
Definition new_HeaderParser : M unit :=
  emit E_HeaderParser;;
  modify (set_head HeaderParser).

Definition head_parse_meta_data (line : string) : M unit :=
  emit (E_parse_meta_data line);;
  modify (fun w => set_head (parse_meta_data (w_head w) line) w).

Definition head_parse_header_line (line : string) : M unit :=
  emit (E_parse_header_line line);;
  modify (fun w => set_head (parse_header_line (w_head w) line) w).

(** [variant_file.seek(0)]: back to the first line, or
    [io.UnsupportedOperation] when the stream cannot seek. *)
Definition variant_file_seek_0 : M unit :=
  emit (E_seek 0);;
  f ← gets w_variant_file;
  if s_seekable f
  then modify (set_variant_file (mkStream (s_lines f) 0 true))
  else raise UnsupportedOperation.

Definition head_header : M (list string) :=
  gets (fun w => header_attr (w_head w)).
Definition head_individuals : M (list string) :=
  gets (fun w => individuals_attr (w_head w)).

(** [add_metadata(head, section, key, annotation_number=.., entry_type=..,
    description=..)] *)
Definition call_add_metadata (section key annotation_number entry_type
                              description : string) : M unit :=
  head ← gets w_head;
  emit (E_add_metadata head section key annotation_number entry_type description);;
  modify (set_head (add_metadata head section key annotation_number
                      entry_type description)).

Definition new_JoinableQueue (maxsize : Z) : M unit := emit (E_JoinableQueue maxsize).
Definition new_Manager_Queue : M unit := emit E_Manager_Queue.

Definition cpu_count : M Z :=
  emit E_cpu_count;; gets w_cpu_count.

(** [NamedTemporaryFile(delete=False)]: an empty file under a fresh name. *)
Definition NamedTemporaryFile (delete : bool) : M string :=
  emit (E_NamedTemporaryFile delete);;
  modify (set_temp_file (Some []));;
  gets w_temp_name.

Definition temp_file_close : M unit := emit E_temp_file_close.

(** [CompoundScorer(task_queue=variant_queue, results_queue=results,
    individuals=individuals)], the [i]-th of the comprehension. *)
Definition new_CompoundScorer (i : nat) (individuals : list string) : M nat :=
  emit (E_CompoundScorer i individuals);; mret i.

Definition worker_start (worker : nat) : M unit := emit (E_worker_start worker).

(** [VariantPrinter(task_queue=results, head=head, mode=.., outfile=..)] *)
Definition new_VariantPrinter (mode outfile : string) : M unit :=
  head ← gets w_head;
  emit (E_VariantPrinter head mode outfile).

Definition variant_printer_start : M unit := emit E_variant_printer_start.

(** [get_batches(variants=variant_file, batch_queue=variant_queue,
    header=head, vep=.., compound_mode=.., results_queue=results)]: reads the
    stream to its end.  Its return value (the chromosome list) is not used by
    the command. *)
Definition get_batches (vep compound_mode : bool) : M unit :=
  f ← gets w_variant_file;
  head ← gets w_head;
  emit (E_get_batches f head vep compound_mode);;
  modify (set_variant_file (mkStream (s_lines f) (length (s_lines f)) (s_seekable f))).

Definition variant_queue_put_None : M unit := emit E_variant_queue_put_None.
Definition variant_queue_join : M unit := emit E_variant_queue_join.
Definition results_put_None : M unit := emit E_results_put_None.

(** [variant_printer.join()]: when it returns, the printer process has
    appended everything it received to the temporary file. *)
Definition variant_printer_join : M unit :=
  emit E_variant_printer_join;;
  modify (fun w => set_temp_file
                     (Some (default [] (w_temp_file w) ++ w_spill w)) w).

(** [sort_variants(infile=.., mode=..)]: sorts the file in place. *)
Definition sort_variants (infile mode : string) : M unit :=
  emit (E_sort_variants infile mode);;
  modify (fun w => set_temp_file (sort_lines mode <$> w_temp_file w) w).

Definition print_headers (outfile : option string) (silent : bool) : M unit :=
  head ← gets w_head;
  emit (E_print_headers head outfile silent).

(** [open(path, 'r', encoding='utf-8')]: the lines of the file. *)
Definition open_r (path : string) (encoding : string) : M (list string) :=
  emit (E_open path "r" encoding);;
  t ← gets w_temp_file;
  match t with
  | Some ls => mret ls
  | None => raise (OSError path)
  end.

Definition print_variant (variant_line : string) (outfile : option string)
    (mode : string) (silent : bool) : M unit :=
  emit (E_print_variant variant_line outfile mode silent).

(** [os.remove(path)] *)
Definition os_remove (path : string) : M unit :=
  emit (E_os_remove path);;
  fails ← gets w_remove_fails;
  if fails : bool then raise (OSError path)
  else modify (set_temp_file None).

(** ** The command *)

Record options : Type := mkOptions {
  silent : bool;
  outfile : option string;
  vep : bool;
  processes : Z
}.

(** The default of [--processes]. *)
Definition default_processes (cpus : Z) : Z := Z.min 4 cpus.

Definition compound (o : options) : M unit :=
  logger_info "Running GENMOD score_compounds, version: {0}" [VStr version];;
  start_time_analysis ← datetime_now;
  logger_info "Initializing a Header Parser" [];;
  new_HeaderParser;;
  for_line_in_variant_file (fun line =>
    let line := rstrip line in
    if startswith line "#" then
      (if startswith line "##" then head_parse_meta_data line
       else head_parse_header_line line);;
      mret Continue
    else mret Break);;
  variant_file_seek_0;;
  header_line ← head_header;
  individuals ← head_individuals;
  call_add_metadata "info" "CorrectedRankScore" "1" "Integer"
    "The corrected rank score for this variant.";;
  logger_debug "Setting up a JoinableQueue for storing variant batches" [];;
  new_JoinableQueue 1000;;
  logger_debug "Setting up a Queue for storing results from workers" [];;
  new_Manager_Queue;;
  let num_scorers := processes o in
  cpus ← cpu_count;
  logger_info "Number of CPU:s {}" [VInt cpus];;
  logger_info "Number of model checkers: {}" [VInt num_scorers];;
  logger_debug "Build a tempfile for printing the variants" [];;
  temp_file_name ← NamedTemporaryFile false;
  temp_file_close;;
  logger_info "Seting up the workers" [];;
  compound_scorers ← comprehension (range num_scorers)
                       (fun i => new_CompoundScorer i individuals);
  logger_info "Starting the workers" [];;
  for_each compound_scorers (fun worker =>
    logger_debug "Starting worker {0}" [VWorker worker];;
    worker_start worker);;
  logger_info "Seting up the variant printer" [];;
  new_VariantPrinter "chromosome" temp_file_name;;
  logger_info "Starting the variant printer process" [];;
  variant_printer_start;;
  start_time_variant_parsing ← datetime_now;
  logger_info "Start parsing the variants" [];;
  get_batches (vep o) true;;
  logger_debug "Put stop signs in the variant queue" [];;
  logger_debug "Put stop signs in the variant queue" [];;
  for_each (range num_scorers) (fun i => variant_queue_put_None);;
  variant_queue_join;;
  results_put_None;;
  variant_printer_join;;
  sort_variants temp_file_name "chromosome";;
  print_headers (outfile o) (silent o);;
  f ← open_r temp_file_name "utf-8";
  for_each f (fun line => print_variant line (outfile o) "modified" (silent o));;
  logger_debug "Removing temp file" [];;
  os_remove temp_file_name;;
  logger_debug "Temp file removed" [];;
  end_time ← datetime_now;
  logger_info "Time for whole analyis: {0}" [VTimedelta (end_time - start_time_analysis)].

(** The calls of one run of the command, recorded from its first call on,
    and the exception it ends with, if any. *)
Definition calls_of (o : options) (w : world) : list call :=
  w_trace (final (compound o (set_trace [] w))).

Definition exception_of (o : options) (w : world) : option pyexn :=
  raised (compound o (set_trace [] w)).

(** The temporary file and the header object when the command ends. *)
Definition scratch_after (o : options) (w : world) : option (list string) :=
  w_temp_file (final (compound o (set_trace [] w))).

Definition head_after (o : options) (w : world) : header :=
  w_head (final (compound o (set_trace [] w))).

(** ** The shape of a run

    The calls of the command, phase by phase, as functions of the options and
    of the world it starts in. *)

(** The header loop over the lines [ls]: the calls it makes, the header it
    builds, and the number of lines the iterator yields. *)
Fixpoint header_calls (ls : list string) : list call :=
  match ls with
  | [] => []
  | l :: ls' =>
      let line := rstrip l in
      if startswith line "#" then
        (if startswith line "##" then E_parse_meta_data line
         else E_parse_header_line line) :: header_calls ls'
      else []
  end.

Fixpoint header_after (h : header) (ls : list string) : header :=
  match ls with
  | [] => h
  | l :: ls' =>
      let line := rstrip l in
      if startswith line "#" then
        header_after (if startswith line "##" then parse_meta_data h line
                      else parse_header_line h line) ls'
      else h
  end.

Fixpoint header_read (ls : list string) : nat :=
  match ls with
  | [] => 0
  | l :: ls' => if startswith (rstrip l) "#" then S (header_read ls') else 1
  end.

(** The header once the preamble is parsed, and once the new field is
    registered. *)
Definition parsed (w : world) : header :=
  header_after HeaderParser (remaining (w_variant_file w)).

Definition registered (w : world) : header :=
  add_metadata (parsed w) "info" "CorrectedRankScore" "1" "Integer"
    "The corrected rank score for this variant.".

Definition calls_header (w : world) : list call :=
  [E_log INFO "Running GENMOD score_compounds, version: {0}" [VStr version];
   E_datetime_now;
   E_log INFO "Initializing a Header Parser" [];
   E_HeaderParser]
  ++ header_calls (remaining (w_variant_file w))
  ++ [E_seek 0].

Definition calls_build (o : options) (w : world) : list call :=
  [E_log DEBUG "Setting up a JoinableQueue for storing variant batches" [];
   E_JoinableQueue 1000;
   E_log DEBUG "Setting up a Queue for storing results from workers" [];
   E_Manager_Queue;
   E_cpu_count;
   E_log INFO "Number of CPU:s {}" [VInt (w_cpu_count w)];
   E_log INFO "Number of model checkers: {}" [VInt (processes o)];
   E_log DEBUG "Build a tempfile for printing the variants" [];
   E_NamedTemporaryFile false;
   E_temp_file_close;
   E_log INFO "Seting up the workers" []]
  ++ map (fun i => E_CompoundScorer i (individuals_attr (parsed w)))
       (range (processes o))
  ++ [E_log INFO "Starting the workers" []]
  ++ flat_map (fun i => [E_log DEBUG "Starting worker {0}" [VWorker i];
                         E_worker_start i]) (range (processes o))
  ++ [E_log INFO "Seting up the variant printer" [];
      E_VariantPrinter (registered w) "chromosome" (w_temp_name w);
      E_log INFO "Starting the variant printer process" [];
      E_variant_printer_start].

Definition calls_setup (o : options) (w : world) : list call :=
  [E_add_metadata (parsed w) "info" "CorrectedRankScore" "1" "Integer"
     "The corrected rank score for this variant."]
  ++ calls_build o w.

Definition calls_produce (o : options) (w : world) : list call :=
  [E_datetime_now;
   E_log INFO "Start parsing the variants" [];
   E_get_batches (mkStream (s_lines (w_variant_file w)) 0 true) (registered w)
     (vep o) true;
   E_log DEBUG "Put stop signs in the variant queue" [];
   E_log DEBUG "Put stop signs in the variant queue" []]
  ++ repeat E_variant_queue_put_None (Z.to_nat (processes o)).

Definition calls_barrier : list call :=
  [E_variant_queue_join; E_results_put_None; E_variant_printer_join].

(** The lines of the temporary file once [sort_variants] has returned. *)
Definition sorted_file (w : world) : list string :=
  sort_lines "chromosome" (w_spill w).

Definition calls_output (o : options) (w : world) : list call :=
  [E_sort_variants (w_temp_name w) "chromosome";
   E_print_headers (registered w) (outfile o) (silent o);
   E_open (w_temp_name w) "r" "utf-8"]
  ++ map (fun line => E_print_variant line (outfile o) "modified" (silent o))
       (sorted_file w)
  ++ [E_log DEBUG "Removing temp file" [];
      E_os_remove (w_temp_name w)].

Definition calls_epilogue (w : world) : list call :=
  [E_log DEBUG "Temp file removed" [];
   E_datetime_now;
   E_log INFO "Time for whole analyis: {0}"
     [VTimedelta (nth 2 (w_clock w) 0%Z - nth 0 (w_clock w) 0%Z)]].

Definition expected_calls (o : options) (w : world) : list call :=
  calls_header w
  ++ (if s_seekable (w_variant_file w)
      then calls_setup o w ++ calls_produce o w ++ calls_barrier
           ++ calls_output o w
           ++ (if w_remove_fails w then [] else calls_epilogue w)
      else []).

(** How the run ends. *)
Definition expected_exception (w : world) : option pyexn :=
  if s_seekable (w_variant_file w)
  then (if w_remove_fails w then Some (OSError (w_temp_name w)) else None)
  else Some UnsupportedOperation.

End Command.

(** ** The pipeline

    The processes of a run and the two queues they share.  The coordinating
    process makes the calls of [compound], in order; a call that blocks
    ([put] on a full queue, [join]) is taken only when it can return. *)
Section Pipeline.
Context `{Collaborators}.

(** What the coordinating process does, one step at a time: the calls of
    [compound] and, inside [get_batches], one [put] per unit.

    Modelled from the spec: [genmod.utils.get_batches] is not part of this
    file.  It "repeatedly requests the next batch from the external batching
    collaborator, enqueues it", "may also push early-failure records directly
    to the Results Queue", and returns when the stream is exhausted. *)
Inductive op : Type :=
| OCall (c : call)
| OProduce (u : batch + scored).

Definition expand (c : call) : list op :=
  match c with
  | E_get_batches variants head vep compound_mode =>
      OCall c :: map OProduce (batching (remaining variants) head vep compound_mode)
  | _ => [OCall c]
  end.

Definition script (calls : list call) : list op := flat_map expand calls.

(** A [CompoundScorer] process.

    Modelled from the spec: [genmod.score_variants.CompoundScorer] is not part
    of this file.  Its loop is "Idle -> dequeue -> Scoring (on real Batch) or
    Exited (on Termination Marker, after marking it acknowledged)"; a scored
    batch, or the failure payload, is pushed to the results queue before the
    batch is acknowledged.  [sc_markers] counts the termination markers the
    process has dequeued. *)
Inductive scorer_pc : Type :=
| Created                 (* built, not started *)
| Idle                    (* blocked in task_queue.get() *)
| Scoring (b : batch)     (* holds a batch, result not pushed yet *)
| Acknowledging           (* result pushed, task_done() pending *)
| Marked                  (* holds a marker, task_done() pending *)
| Exited.

Record scorer : Type := mkScorer {
  sc_pc : scorer_pc;
  sc_individuals : list string;
  sc_markers : nat
}.

(** The [VariantPrinter] process.

    Modelled from the spec: [genmod.utils.VariantPrinter] is not part of this
    file.  It loops: "dequeue from Results Queue; if item is the terminal
    marker, exit loop; otherwise serialize and append every record in the
    received unit to the Scratch Store, in arrival order". *)
Inductive printer_state : Type :=
| NoPrinter
| PrinterBuilt (head : header) (mode : string)
| PrinterRunning (head : header) (mode : string)
| PrinterExited.

Record shared : Type := mkShared {
  sh_maxsize : option Z;                  (* variant_queue, once created *)
  sh_variant_queue : list (option batch); (* oldest first; None = marker *)
  sh_unfinished : nat;                    (* JoinableQueue's unfinished tasks *)
  sh_results : list (option scored);      (* oldest first; None = marker *)
  sh_scorers : list scorer;               (* compound_scorers *)
  sh_printer : printer_state;
  sh_store : list string                  (* lines of the temporary file *)
}.

Record pipeline : Type := mkPipeline {
  p_done : list op;    (* steps the coordinator has completed, oldest first *)
  p_todo : list op;    (* steps it still has to take *)
  p_shared : shared
}.

Definition set_maxsize (m : option Z) (s : shared) : shared :=
  mkShared m (sh_variant_queue s) (sh_unfinished s) (sh_results s)
    (sh_scorers s) (sh_printer s) (sh_store s).
Definition set_variant_queue (q : list (option batch)) (s : shared) : shared :=
  mkShared (sh_maxsize s) q (sh_unfinished s) (sh_results s)
    (sh_scorers s) (sh_printer s) (sh_store s).
Definition set_unfinished (n : nat) (s : shared) : shared :=
  mkShared (sh_maxsize s) (sh_variant_queue s) n (sh_results s)
    (sh_scorers s) (sh_printer s) (sh_store s).
Definition set_results (q : list (option scored)) (s : shared) : shared :=
  mkShared (sh_maxsize s) (sh_variant_queue s) (sh_unfinished s) q
    (sh_scorers s) (sh_printer s) (sh_store s).
Definition set_scorers (l : list scorer) (s : shared) : shared :=
  mkShared (sh_maxsize s) (sh_variant_queue s) (sh_unfinished s) (sh_results s)
    l (sh_printer s) (sh_store s).
Definition set_printer (p : printer_state) (s : shared) : shared :=
  mkShared (sh_maxsize s) (sh_variant_queue s) (sh_unfinished s) (sh_results s)
    (sh_scorers s) p (sh_store s).
Definition set_store (l : list string) (s : shared) : shared :=
  mkShared (sh_maxsize s) (sh_variant_queue s) (sh_unfinished s) (sh_results s)
    (sh_scorers s) (sh_printer s) l.

(** [JoinableQueue.put]: refused ([None]) while the queue is full; a
    [maxsize] of zero or less means no bound.  Every item put counts as an
    unfinished task. *)
Definition has_room (m : Z) (q : list (option batch)) : bool :=
  (m <=? 0)%Z || (Z.of_nat (length q) <? m)%Z.

Definition enqueue (x : option batch) (s : shared) : option shared :=
  match sh_maxsize s with
  | None => None
  | Some m =>
      if has_room m (sh_variant_queue s)
      then Some (set_unfinished (S (sh_unfinished s))
                   (set_variant_queue (sh_variant_queue s ++ [x]) s))
      else None
  end.

(** One step of the coordinating process; [None] when the call cannot return
    in this state. *)
Definition perform (o : op) (s : shared) : option shared :=
  match o with
  | OCall (E_JoinableQueue m) => Some (set_maxsize (Some m) s)
  | OCall (E_CompoundScorer i individuals) =>
      Some (set_scorers (sh_scorers s ++ [mkScorer Created individuals 0]) s)
  | OCall (E_worker_start i) =>
      match sh_scorers s !! i with
      | Some (mkScorer Created individuals k) =>
          Some (set_scorers (<[i := mkScorer Idle individuals k]> (sh_scorers s)) s)
      | _ => None
      end
  | OCall (E_VariantPrinter head mode _) => Some (set_printer (PrinterBuilt head mode) s)
  | OCall E_variant_printer_start =>
      match sh_printer s with
      | PrinterBuilt head mode => Some (set_printer (PrinterRunning head mode) s)
      | _ => None
      end
  | OCall E_variant_queue_put_None => enqueue None s
  | OCall E_variant_queue_join =>
      match sh_unfinished s with 0 => Some s | S _ => None end
  | OCall E_results_put_None => Some (set_results (sh_results s ++ [None]) s)
  | OCall E_variant_printer_join =>
      match sh_printer s with PrinterExited => Some s | _ => None end
  | OCall (E_sort_variants _ mode) => Some (set_store (sort_lines mode (sh_store s)) s)
  | OCall _ => Some s
  | OProduce (inl b) => enqueue (Some b) s
  | OProduce (inr r) => Some (set_results (sh_results s ++ [Some r]) s)
  end.

(** [task_queue.task_done()] *)
Definition task_done (s : shared) : option shared :=
  match sh_unfinished s with
  | 0 => None
  | S n => Some (set_unfinished n s)
  end.

(** One step of scorer [i]. *)
Definition scorer_step (i : nat) (s : shared) : option shared :=
  match sh_scorers s !! i with
  | Some (mkScorer pc individuals k) =>
      let become pc' k' s' := set_scorers (<[i := mkScorer pc' individuals k']> (sh_scorers s')) s' in
      match pc with
      | Idle =>
          match sh_variant_queue s with
          | [] => None
          | Some b :: q => Some (become (Scoring b) k (set_variant_queue q s))
          | None :: q => Some (become Marked (S k) (set_variant_queue q s))
          end
      | Scoring b =>
          Some (become Acknowledging k
                  (set_results (sh_results s ++ [Some (score individuals b)]) s))
      | Acknowledging => become Idle k <$> task_done s
      | Marked => become Exited k <$> task_done s
      | Created | Exited => None
      end
  | None => None
  end.

(** One step of the printer. *)
Definition printer_step (s : shared) : option shared :=
  match sh_printer s with
  | PrinterRunning head mode =>
      match sh_results s with
      | [] => None
      | Some r :: q =>
          Some (set_store (sh_store s ++ render head mode r) (set_results q s))
      | None :: q => Some (set_printer PrinterExited (set_results q s))
      end
  | _ => None
  end.

Inductive process : Type := Coordinator | Scorer (i : nat) | Printer.

(** One step of the process [t]; [None] when [t] is blocked or has ended. *)
Definition exec (t : process) (p : pipeline) : option pipeline :=
  match t with
  | Coordinator =>
      match p_todo p with
      | [] => None
      | o :: rest => mkPipeline (p_done p ++ [o]) rest <$> perform o (p_shared p)
      end
  | Scorer i => mkPipeline (p_done p) (p_todo p) <$> scorer_step i (p_shared p)
  | Printer => mkPipeline (p_done p) (p_todo p) <$> printer_step (p_shared p)
  end.

(** The state a schedule leads to, when each of its steps can be taken. *)
Fixpoint run (schedule : list process) (p : pipeline) : option pipeline :=
  match schedule with
  | [] => Some p
  | t :: schedule' =>
      match exec t p with
      | Some p' => run schedule' p'
      | None => None
      end
  end.

Definition boot (ops : list op) : pipeline :=
  mkPipeline [] ops (mkShared None [] 0 [] [] NoPrinter []).

(** The pipeline of the run of [compound] with options [o] in world [w]. *)
Definition launch (o : options) (w : world) : pipeline :=
  boot (script (calls_of o w)).

End Pipeline.

(** ** Observations on calls and on states *)
Section Observations.
Context `{Collaborators}.

Definition count_if {A} (f : A -> bool) (l : list A) : nat :=
  length (List.filter f l).

Definition is_marker_put (c : call) : bool :=
  match c with E_variant_queue_put_None => true | _ => false end.
Definition is_results_marker (c : call) : bool :=
  match c with E_results_put_None => true | _ => false end.
Definition is_creation (c : call) : bool :=
  match c with E_CompoundScorer _ _ => true | _ => false end.
Definition is_worker_start (c : call) : bool :=
  match c with E_worker_start _ => true | _ => false end.
Definition is_get_batches (c : call) : bool :=
  match c with E_get_batches _ _ _ _ => true | _ => false end.
Definition is_add_metadata (c : call) : bool :=
  match c with E_add_metadata _ _ _ _ _ _ => true | _ => false end.
Definition is_print_headers (c : call) : bool :=
  match c with E_print_headers _ _ _ => true | _ => false end.
Definition is_print_variant (c : call) : bool :=
  match c with E_print_variant _ _ _ _ => true | _ => false end.
Definition is_sort (c : call) : bool :=
  match c with E_sort_variants _ _ => true | _ => false end.

(** Calls that write to the header object. *)
Definition writes_header (c : call) : bool :=
  match c with
  | E_HeaderParser | E_parse_meta_data _ | E_parse_header_line _
  | E_add_metadata _ _ _ _ _ _ => true
  | _ => false
  end.

(** Calls that build, start, feed or wait for a queue, a scorer, the printer
    or the batch producer. *)
Definition pipeline_activity (c : call) : bool :=
  match c with
  | E_JoinableQueue _ | E_Manager_Queue | E_CompoundScorer _ _
  | E_worker_start _ | E_VariantPrinter _ _ _ | E_variant_printer_start
  | E_get_batches _ _ _ _ | E_variant_queue_put_None | E_variant_queue_join
  | E_results_put_None | E_variant_printer_join => true
  | _ => false
  end.

(** The header a call is handed, if it takes one. *)
Definition header_passed (c : call) : option header :=
  match c with
  | E_VariantPrinter h _ _ | E_get_batches _ h _ _ | E_print_headers h _ _ => Some h
  | _ => None
  end.

(** The [--silent] and [--outfile] options, as far as a call receives them. *)
Definition output_options (c : call) : option (option string * bool) :=
  match c with
  | E_print_headers _ out sil | E_print_variant _ out _ sil => Some (out, sil)
  | _ => None
  end.

(** The same call with those two options blanked. *)
Definition blind (c : call) : call :=
  match c with
  | E_print_headers h _ _ => E_print_headers h None false
  | E_print_variant l _ mode _ => E_print_variant l None mode false
  | _ => c
  end.

Definition blind_op (o : op) : op :=
  match o with
  | OCall c => OCall (blind c)
  | OProduce u => OProduce u
  end.

(** What a step of the coordinator puts on the batch queue. *)
Definition puts (o : op) : list (option batch) :=
  match o with
  | OCall E_variant_queue_put_None => [None]
  | OProduce (inl b) => [Some b]
  | _ => []
  end.

Definition future_puts (l : list op) : list (option batch) := flat_map puts l.

Definition creates (o : op) : bool :=
  match o with OCall c => is_creation c | OProduce _ => false end.

Definition creations (l : list op) : nat := count_if creates l.

(** Steps that leave the batch queue, the scorers and the printer alone. *)
Definition calm (o : op) : bool :=
  match o with
  | OCall (E_JoinableQueue _ | E_CompoundScorer _ _ | E_worker_start _
          | E_VariantPrinter _ _ _ | E_variant_printer_start
          | E_get_batches _ _ _ _ | E_variant_queue_put_None) => false
  | OCall _ => true
  | OProduce _ => false
  end.

(** A queue content in which every batch is ahead of every marker. *)
Fixpoint batches_first (q : list (option batch)) : Prop :=
  match q with
  | [] => True
  | Some _ :: q' => batches_first q'
  | None :: q' => Forall (fun x => x = None) q'
  end.

Definition is_marker (x : option batch) : bool :=
  match x with None => true | Some _ => false end.

Definition has_exited (s : scorer) : bool :=
  match sc_pc s with Exited => true | _ => false end.
Definition is_marked (s : scorer) : bool :=
  match sc_pc s with Marked => true | _ => false end.
(** The scorer holds an item it has not acknowledged yet. *)
Definition holding (s : scorer) : bool :=
  match sc_pc s with Scoring _ | Acknowledging | Marked => true | _ => false end.

(** The batches [get_batches] produces in a run. *)
Definition units_of (o : options) (w : world) : list (batch + scored) :=
  batching (s_lines (w_variant_file w)) (registered w) (vep o) true.

Fixpoint batches_in (us : list (batch + scored)) : list batch :=
  match us with
  | [] => []
  | inl b :: us' => b :: batches_in us'
  | inr _ :: us' => batches_in us'
  end.

(** The steps of the coordinator, phase by phase: up to and including the
    call of [get_batches]; the puts of [get_batches] and of the marker loop;
    the barrier; the output. *)
Definition ops_before (o : options) (w : world) : list op :=
  map OCall (calls_header w ++ calls_setup o w
             ++ [E_datetime_now;
                 E_log INFO "Start parsing the variants" [];
                 E_get_batches (mkStream (s_lines (w_variant_file w)) 0 true)
                   (registered w) (vep o) true]).

Definition ops_feed (o : options) (w : world) : list op :=
  map OProduce (units_of o w)
  ++ map OCall ([E_log DEBUG "Put stop signs in the variant queue" [];
                 E_log DEBUG "Put stop signs in the variant queue" []]
                ++ repeat E_variant_queue_put_None (Z.to_nat (processes o))).

Definition ops_barrier : list op := map OCall calls_barrier.

Definition ops_after (o : options) (w : world) : list op :=
  map OCall (calls_output o w
             ++ (if w_remove_fails w then [] else calls_epilogue w)).

(** Steps that belong to the phases before the barrier. *)
Definition early (o : op) : bool :=
  match o with
  | OCall (E_variant_queue_join | E_results_put_None | E_variant_printer_join
          | E_sort_variants _ _) => false
  | _ => true
  end.

Definition putless (o : op) : bool :=
  match puts o with [] => true | _ => false end.

Definition maxsize_1000 (o : op) : bool :=
  match o with
  | OCall (E_JoinableQueue m) => (m =? 1000)%Z
  | _ => true
  end.

(** [x] has been completed only after some step satisfying [P]. *)
Definition preceded_by (P Q : op -> bool) (l : list op) : Prop :=
  forall d y t, l = d ++ y :: t -> Q y = true -> exists x, In x d /\ P x = true.

Definition is_join_op (o : op) : bool :=
  match o with OCall E_variant_queue_join => true | _ => false end.
Definition is_results_marker_op (o : op) : bool :=
  match o with OCall c => is_results_marker c | _ => false end.
Definition is_printer_join_op (o : op) : bool :=
  match o with OCall E_variant_printer_join => true | _ => false end.
Definition is_sort_op (o : op) : bool :=
  match o with OCall c => is_sort c | _ => false end.

(** What the invariants of the pipeline need to know about the steps of the
    coordinator. *)
Record well_formed (S : list op) : Prop := mkWellFormed {
  wf_join_first : preceded_by is_join_op is_results_marker_op S;
  wf_join_printer : preceded_by is_join_op is_printer_join_op S;
  wf_printer_sort : preceded_by is_printer_join_op is_sort_op S;
  wf_calm : forall d y t, S = d ++ y :: t -> is_join_op y = true ->
                          forallb calm t = true;
  wf_fifo : batches_first (future_puts S);
  wf_markers : count_if is_marker (future_puts S) = creations S;
  wf_maxsize : forallb maxsize_1000 S = true
}.

(** The invariant of the pipeline whose coordinator runs the steps [S]. *)
Record invariant (S : list op) (p : pipeline) : Prop := mkInvariant {
  inv_script : p_done p ++ p_todo p = S;
  inv_maxsize :
    match sh_maxsize (p_shared p) with
    | None => sh_variant_queue (p_shared p) = []
    | Some m => m = 1000%Z /\ length (sh_variant_queue (p_shared p)) <= 1000
    end;
  inv_fifo :
    batches_first (sh_variant_queue (p_shared p) ++ future_puts (p_todo p));
  inv_count :
    count_if has_exited (sh_scorers (p_shared p))
    + count_if is_marked (sh_scorers (p_shared p))
    + count_if is_marker (sh_variant_queue (p_shared p) ++ future_puts (p_todo p))
    = length (sh_scorers (p_shared p)) + creations (p_todo p);
  inv_unfinished :
    sh_unfinished (p_shared p)
    = length (sh_variant_queue (p_shared p))
      + count_if holding (sh_scorers (p_shared p));
  inv_scorers :
    Forall (fun s => sc_markers s = if has_exited s || is_marked s then 1 else 0)
      (sh_scorers (p_shared p));
  inv_created : length (sh_scorers (p_shared p)) = creations (p_done p);
  inv_joined :
    In (OCall E_variant_queue_join) (p_done p) ->
    forallb calm (p_todo p) = true /\ sh_unfinished (p_shared p) = 0;
  inv_results :
    In None (sh_results (p_shared p)) \/ sh_printer (p_shared p) = PrinterExited ->
    In (OCall E_results_put_None) (p_done p);
  inv_printer :
    In (OCall E_variant_printer_join) (p_done p) ->
    sh_printer (p_shared p) = PrinterExited
}.

(** *** Further observations *)

(** The header lines at the start of [ls]: the longest prefix of lines that,
    once stripped, start with ['#']. *)
Fixpoint preamble (ls : list string) : list string :=
  match ls with
  | [] => []
  | l :: ls' => if startswith (rstrip l) "#" then l :: preamble ls' else []
  end.







(** The file-system path a call receives, if it takes one. *)
Definition path_passed (c : call) : option string :=
  match c with
  | E_VariantPrinter _ _ p | E_sort_variants p _ | E_open p _ _ | E_os_remove p =>
      Some p
  | _ => None
  end.

Definition is_temp_creation (c : call) : bool :=
  match c with E_NamedTemporaryFile _ => true | _ => false end.

(** The input stream when the command ends. *)
Definition stream_after (o : options) (w : world) : stream :=
  w_variant_file (final (compound o (set_trace [] w))).


Definition is_clock_reading (c : call) : bool :=
  match c with E_datetime_now => true | _ => false end.

(** The duration a log call reports, if it reports one. *)
Definition reported_duration (c : call) : option Z :=
  match c with
  | E_log _ _ [VTimedelta d] => Some d
  | _ => None
  end.

Definition is_remove (c : call) : bool :=
  match c with E_os_remove _ => true | _ => false end.



(** *** The pool before the first unit of work *)

Definition is_printer_start_op (x : op) : bool :=
  match x with OCall E_variant_printer_start => true | _ => false end.
Definition is_printer_build_op (x : op) : bool :=
  match x with OCall (E_VariantPrinter _ _ _) => true | _ => false end.
Definition is_start_op (x : op) : bool :=
  match x with OCall c => is_worker_start c | OProduce _ => false end.

(** Steps that put something on a queue or rewrite the temporary file. *)
Definition works (x : op) : bool :=
  match x with
  | OCall (E_variant_queue_put_None | E_results_put_None | E_sort_variants _ _) => true
  | OCall _ => false
  | OProduce _ => true
  end.

(** Steps that neither build nor start a process. *)
Definition settled (x : op) : bool :=
  negb (creates x) && negb (is_start_op x)
  && negb (is_printer_build_op x) && negb (is_printer_start_op x).

Definition is_created (s : scorer) : bool :=
  match sc_pc s with Created => true | _ => false end.
(** The scorer holds nothing and has taken nothing yet. *)
Definition waiting (s : scorer) : bool :=
  match sc_pc s with Created | Idle => true | _ => false end.
Definition printer_live (s : printer_state) : bool :=
  match s with PrinterRunning _ _ | PrinterExited => true | _ => false end.

Record well_ordered (S : list op) : Prop := mkWellOrdered {
  wo_printer_first : preceded_by is_printer_start_op works S;
  wo_settled : forall d y t, S = d ++ y :: t -> is_printer_start_op y = true ->
                             forallb settled t = true;
  wo_starts : count_if is_start_op S = creations S
}.

Record readiness (S : list op) (p : pipeline) : Prop := mkReadiness {
  rd_created :
    count_if is_created (sh_scorers (p_shared p)) + count_if is_start_op (p_done p)
    = creations (p_done p);
  rd_quiet :
    In (OCall E_variant_printer_start) (p_done p)
    \/ (sh_variant_queue (p_shared p) = [] /\ sh_results (p_shared p) = []
        /\ sh_store (p_shared p) = [] /\ sh_unfinished (p_shared p) = 0
        /\ forallb waiting (sh_scorers (p_shared p)) = true);
  rd_printer :
    In (OCall E_variant_printer_start) (p_done p) ->
    printer_live (sh_printer (p_shared p)) = true
    /\ forallb settled (p_todo p) = true;
  rd_lonely :
    sh_scorers (p_shared p) = [] ->
    sh_variant_queue (p_shared p) = future_puts (p_done p)
}.

(** *** Progress of the pipeline *)

Definition is_queue_build_op (x : op) : bool :=
  match x with OCall (E_JoinableQueue _) => true | _ => false end.
Definition is_put_op (x : op) : bool := negb (putless x).
Definition is_barrier_op (x : op) : bool := is_join_op x || is_printer_join_op x.

(** Steps of the coordinator that may have to wait for another process, or
    that need an object to be in a given state. *)
Definition can_block (x : op) : bool :=
  match x with
  | OCall (E_worker_start _ | E_variant_printer_start | E_variant_queue_put_None
          | E_variant_queue_join | E_variant_printer_join) => true
  | OProduce (inl _) => true
  | _ => false
  end.

(** What the progress of the pipeline needs to know about the steps of the
    coordinator: objects are built before they are used, the scorers are
    started in the order they were built in, once all of them are built, and
    the barrier comes after the printer is started and, for the printer's
    join, after the terminal marker. *)
Record well_staged (S : list op) : Prop := mkWellStaged {
  ws_queue : preceded_by is_queue_build_op is_put_op S;
  ws_printer_built : preceded_by is_printer_build_op is_printer_start_op S;
  ws_printer_once : count_if is_printer_start_op S <= 1;
  ws_roster :
    List.filter is_start_op S
    = map (fun j => OCall (E_worker_start j)) (seq 0 (creations S));
  ws_built : forall d y t, S = d ++ y :: t -> is_start_op y = true ->
                           creations t = 0;
  ws_started : preceded_by is_printer_start_op is_barrier_op S;
  ws_marker : preceded_by is_results_marker_op is_printer_join_op S;
  ws_pool : 1 <= creations S \/ forallb (fun x => negb (can_block x)) S = true
}.

Definition is_running (s : printer_state) : bool :=
  match s with PrinterRunning _ _ => true | _ => false end.

Record liveness (S : list op) (p : pipeline) : Prop := mkLiveness {
  lv_maxsize :
    sh_maxsize (p_shared p) = None -> count_if is_queue_build_op (p_done p) = 0;
  lv_printer :
    count_if is_printer_start_op (p_done p) = 0 ->
    count_if is_printer_build_op (p_done p) <> 0 ->
    exists head mode, sh_printer (p_shared p) = PrinterBuilt head mode;
  lv_roster :
    forall j s, count_if is_start_op (p_done p) <= j ->
                sh_scorers (p_shared p) !! j = Some s -> sc_pc s = Created;
  lv_drained :
    count_if has_exited (sh_scorers (p_shared p))
    + count_if is_marked (sh_scorers (p_shared p)) <> 0 ->
    Forall (fun x => x = None)
      (sh_variant_queue (p_shared p) ++ future_puts (p_todo p));
  lv_results :
    In (OCall E_results_put_None) (p_done p) ->
    is_running (sh_printer (p_shared p)) = true ->
    In None (sh_results (p_shared p))
}.

(** The invariants of the pipeline together. *)
Definition sound (S : list op) (p : pipeline) : Prop :=
  invariant S p /\ readiness S p /\ liveness S p.

(** What a scorer still has to do with the item it holds. *)
Definition weight (s : scorer) : nat :=
  match sc_pc s with
  | Scoring _ => 3
  | Acknowledging | Marked => 1
  | _ => 0
  end.

Definition load (l : list scorer) : nat := list_sum (map weight l).

(** A bound on the number of steps the pipeline can still take. *)
Definition effort (p : pipeline) : nat :=
  5 * length (p_todo p)
  + 4 * length (sh_variant_queue (p_shared p))
  + length (sh_results (p_shared p))
  + load (sh_scorers (p_shared p)).

(** *** Conservation of the units of work *)

(** The items of a queue that are not markers. *)
Fixpoint somes {A} (l : list (option A)) : list A :=
  match l with
  | [] => []
  | Some x :: l' => x :: somes l'
  | None :: l' => somes l'
  end.

(** The units [get_batches] emits in the steps [l]. *)
Definition units_todo (l : list op) : list (batch + scored) :=
  flat_map (fun x => match x with OProduce u => [u] | OCall _ => [] end) l.

(** What reaches the results queue for one unit: the scoring of a batch, or
    the failure payload as it is. *)
Definition result_of (individuals : list string) (u : batch + scored) : scored :=
  match u with
  | inl b => score individuals b
  | inr r => r
  end.

(** What a scorer is about to push. *)
Definition in_hand (s : scorer) : list scored :=
  match sc_pc s with
  | Scoring b => [score (sc_individuals s) b]
  | _ => []
  end.

Definition has_sorted (l : list op) : bool := existsb is_sort_op l.
Definition marker_sent (l : list op) : bool := existsb is_results_marker_op l.

(** What the scorers, the printer and [sort_variants] are given in the steps
    [S]: every scorer the individuals [inds], the printer the header [head] and
    the mode [mode], the sort the mode [smode]; the file is sorted once and the
    terminal marker is put once. *)
Record well_supplied (inds : list string) (head : header) (mode smode : string)
    (S : list op) : Prop := mkWellSupplied {
  sp_individuals : forall i ind, In (OCall (E_CompoundScorer i ind)) S -> ind = inds;
  sp_printer : forall h m f, In (OCall (E_VariantPrinter h m f)) S -> h = head /\ m = mode;
  sp_sort : forall f m, In (OCall (E_sort_variants f m)) S -> m = smode;
  sp_sort_once : count_if is_sort_op S <= 1;
  sp_marker_once : count_if is_results_marker_op S <= 1
}.

(** Every unit is somewhere: written to the temporary file, in the results
    queue, in the hands of a scorer, in the batch queue, or still to be
    produced. *)
Record conserved (inds : list string) (head : header) (mode smode : string)
    (S : list op) (p : pipeline) : Prop := mkConserved {
  cv_individuals :
    Forall (fun s => sc_individuals s = inds) (sh_scorers (p_shared p));
  cv_printer :
    match sh_printer (p_shared p) with
    | PrinterBuilt h m | PrinterRunning h m => h = head /\ m = mode
    | _ => True
    end;
  cv_tail :
    if marker_sent (p_done p)
    then (sh_printer (p_shared p) = PrinterExited /\ sh_results (p_shared p) = [])
         \/ (sh_printer (p_shared p) <> PrinterExited
             /\ exists rs, sh_results (p_shared p) = map Some rs ++ [None])
    else ~ In None (sh_results (p_shared p));
  cv_store :
    exists rs,
      sh_store (p_shared p)
      = (if has_sorted (p_done p) then sort_lines smode (flat_map (render head mode) rs)
         else flat_map (render head mode) rs)
      /\ Permutation
           (rs ++ somes (sh_results (p_shared p))
               ++ flat_map in_hand (sh_scorers (p_shared p))
               ++ map (score inds) (somes (sh_variant_queue (p_shared p)))
               ++ map (result_of inds) (units_todo (p_todo p)))
           (map (result_of inds) (units_todo S))
}.

(** What one step of a scorer is. *)
Inductive scorer_move (s : shared) (i : nat) (s' : shared) : Prop :=
| TakeBatch individuals k b q :
    sh_scorers s !! i = Some (mkScorer Idle individuals k) ->
    sh_variant_queue s = Some b :: q ->
    s' = mkShared (sh_maxsize s) q (sh_unfinished s) (sh_results s)
           (<[i := mkScorer (Scoring b) individuals k]> (sh_scorers s))
           (sh_printer s) (sh_store s) ->
    scorer_move s i s'
| TakeMarker individuals k q :
    sh_scorers s !! i = Some (mkScorer Idle individuals k) ->
    sh_variant_queue s = None :: q ->
    s' = mkShared (sh_maxsize s) q (sh_unfinished s) (sh_results s)
           (<[i := mkScorer Marked individuals (S k)]> (sh_scorers s))
           (sh_printer s) (sh_store s) ->
    scorer_move s i s'
| PushResult individuals k b :
    sh_scorers s !! i = Some (mkScorer (Scoring b) individuals k) ->
    s' = mkShared (sh_maxsize s) (sh_variant_queue s) (sh_unfinished s)
           (sh_results s ++ [Some (score individuals b)])
           (<[i := mkScorer Acknowledging individuals k]> (sh_scorers s))
           (sh_printer s) (sh_store s) ->
    scorer_move s i s'
| AckBatch individuals k n :
    sh_scorers s !! i = Some (mkScorer Acknowledging individuals k) ->
    sh_unfinished s = S n ->
    s' = mkShared (sh_maxsize s) (sh_variant_queue s) n (sh_results s)
           (<[i := mkScorer Idle individuals k]> (sh_scorers s))
           (sh_printer s) (sh_store s) ->
    scorer_move s i s'
| AckMarker individuals k n :
    sh_scorers s !! i = Some (mkScorer Marked individuals k) ->
    sh_unfinished s = S n ->
    s' = mkShared (sh_maxsize s) (sh_variant_queue s) n (sh_results s)
           (<[i := mkScorer Exited individuals k]> (sh_scorers s))
           (sh_printer s) (sh_store s) ->
    scorer_move s i s'.

(** States that agree on everything but the options the remaining print
    calls will receive. *)
Definition alike (p p' : pipeline) : Prop :=
  p_shared p = p_shared p'
  /\ map blind_op (p_todo p) = map blind_op (p_todo p').

(** Steps that touch neither a queue, nor a process, nor the temporary file. *)
Definition idle (x : op) : bool :=
  match x with
  | OCall c => negb (pipeline_activity c) && negb (is_sort c)
  | OProduce _ => false
  end.

Definition pristine : shared := mkShared None [] 0 [] [] NoPrinter [].

(** The stream handed to [get_batches] is past the header: the first line it
    yields, if any, is not a header line. *)
Definition producer_input_past_header (o : options) (w : world) : Prop :=
  forall variants head vep compound_mode,
    In (E_get_batches variants head vep compound_mode) (calls_of o w) ->
    match remaining variants with
    | [] => True
    | line :: _ => startswith (rstrip line) "#" = false
    end.

(** A failing [os.remove] does not make the command fail. *)
Definition deletion_failure_tolerated (o : options) (w : world) : Prop :=
  w_remove_fails w = true -> exception_of o w = None.

End Observations.

Arguments call {_}.
Arguments world {_}.
Arguments outcome {_} A.
Arguments Return {_ A} a w.
Arguments Raise {_ A} e w.
Arguments M {_} A.
Arguments op {_}.
Arguments scorer_pc {_}.
Arguments scorer {_}.
Arguments printer_state {_}.
Arguments shared {_}.
Arguments pipeline {_}.

(** ** A concrete set of collaborators

    Headers are kept as the list of their lines, every data line is a batch of
    its own, scoring and printing leave a line as it is, and the sort orders
    the lines as strings. *)
Module Lines.

Fixpoint insert_line (x : string) (l : list string) : list string :=
  match l with
  | [] => [x]
  | y :: l' => if String.leb x y then x :: y :: l' else y :: insert_line x l'
  end.

Definition sort (l : list string) : list string := foldr insert_line [] l.

Definition data_lines (l : list string) : list string :=
  List.filter (fun s => negb (startswith s "#")) l.

#[export] Instance collaborators : Collaborators := {|
  header := list string;
  batch := list string;
  scored := list string;
  version := "3.7";
  HeaderParser := [];
  parse_meta_data h line := h ++ [line];
  parse_header_line h line := h ++ [line];
  header_attr h := List.filter (fun s => negb (startswith s "##")) h;
  individuals_attr h := [];
  add_metadata h section key number type description :=
    h ++ [String.concat "," [("##" ++ section ++ "=" ++ key)%string;
                             number; type; description]];
  batching ls h vep compound_mode := map (fun s => inl [s]) (data_lines ls);
  score individuals b := b;
  render h mode r := r;
  sort_lines mode ls := sort ls
|}.

(** A three-line file: one meta line, the column header, one variant. *)
Definition vcf : list string :=
  ["##fileformat=VCFv4.1"; "#CHROM POS ID REF ALT"; "1 100 . A T"].

Definition world_of (f : stream) (spill : list string) (remove_fails : bool)
  : world :=
  mkWorld f [] "/tmp/tmpq1" None spill remove_fails 8 [10; 20; 30]%Z [].

(** The file opened from disk, with a well-behaved and with a failing
    [os.remove], and the same lines arriving on a pipe. *)
Definition world_ok : world :=
  world_of (mkStream vcf 0 true) ["1 100 . A T"] false.
Definition world_remove_fails : world :=
  world_of (mkStream vcf 0 true) ["1 100 . A T"] true.
Definition world_pipe : world :=
  world_of (mkStream vcf 0 false) ["1 100 . A T"] false.

Definition two_workers : options := mkOptions false None false 2.
Definition two_workers_silent : options := mkOptions true (Some "out.vcf") false 2.
Definition no_worker : options := mkOptions false None false 0.

(** A schedule of the run with two workers up to [results.put(None)], and on
    to the end of the command. *)
Definition until_terminal_marker : list process :=
  repeat Coordinator 38
  ++ [Scorer 0; Scorer 0; Scorer 0; Scorer 0; Scorer 0; Scorer 1; Scorer 1;
      Printer; Coordinator; Coordinator].

Definition whole_run : list process :=
  until_terminal_marker ++ [Printer] ++ repeat Coordinator 10.

(** Up to the point where scorer 0 has acknowledged the only batch and the
    two markers are all that is left in the queue. *)
Definition until_marker_at_head : list process :=
  repeat Coordinator 38 ++ [Scorer 0; Scorer 0; Scorer 0].

(** The run on the pipe: its seven calls. *)
Definition pipe_run : list process := repeat Coordinator 7.

Definition pipe_system : opsys := mkOpsys (mkStream vcf 0 false) [].

(** The states these schedules lead to. *)
Definition state_after (schedule : list process) (o : options) (w : world)
  : pipeline :=
  default (launch o w) (run schedule (launch o w)).

Definition at_terminal_marker : pipeline :=
  Eval vm_compute in state_after until_terminal_marker two_workers world_ok.
Definition at_end : pipeline :=
  Eval vm_compute in state_after whole_run two_workers world_ok.
Definition at_marker_at_head : pipeline :=
  Eval vm_compute in state_after until_marker_at_head two_workers world_ok.
Definition at_pipe_end : pipeline :=
  Eval vm_compute in state_after pipe_run two_workers world_pipe.

(** A file with 1001 variants, and the coordinator running alone on it until
    the batch queue is full. *)
Definition long_vcf : list string :=
  ["##fileformat=VCFv4.1"; "#CHROM POS ID REF ALT"] ++ repeat "1 100 . A T" 1001.

Definition world_long : world := world_of (mkStream long_vcf 0 true) [] false.

Definition until_full : list process := repeat Coordinator 1027.

Definition at_full : pipeline :=
  Eval vm_compute in state_after until_full no_worker world_long.

(** The run without a scorer, up to [variant_queue.join()]. *)
Definition until_join : list process := repeat Coordinator 30.

Definition at_join : pipeline :=
  Eval vm_compute in state_after until_join no_worker world_ok.

(** The options when [--processes] is left at its default on a machine with
    eight processors. *)
Definition default_workers : options :=
  mkOptions false None false (default_processes 8).

End Lines.

(** * Properties

    ** The calls of a run *)
Section Shape.
Context `{Collaborators}.

Lemma iterate_header (ls : list string) (body : string -> M loop_ctl) :
  (forall line f h n t s r c b tr,
      body line (mkWorld f h n t s r c b tr)
      = if startswith (rstrip line) "#"
        then Return Continue
               (mkWorld f (if startswith (rstrip line) "##"
                           then parse_meta_data h (rstrip line)
                           else parse_header_line h (rstrip line))
                  n t s r c b
                  (tr ++ [if startswith (rstrip line) "##"
                          then E_parse_meta_data (rstrip line)
                          else E_parse_header_line (rstrip line)]))
        else Return Break (mkWorld f h n t s r c b tr)) ->
  forall f h n t s r c b tr,
    iterate ls body (mkWorld f h n t s r c b tr)
    = Return tt (mkWorld (mkStream (s_lines f) (s_pos f + header_read ls) (s_seekable f))
                   (header_after h ls) n t s r c b (tr ++ header_calls ls)).
Proof.
  intros Hbody. induction ls as [|l ls IH]; intros f h n t s r c b tr.
  - cbn. destruct f. cbn. rewrite Nat.add_0_r, app_nil_r. reflexivity.
  - cbn [iterate header_read header_after header_calls].
    unfold mbind, M_bind, advance, set_variant_file.
    cbn [w_variant_file w_head w_temp_name w_temp_file w_spill w_remove_fails
           w_cpu_count w_clock w_trace].
    rewrite Hbody.
    destruct (startswith (rstrip l) "#").
    + rewrite IH. cbn [s_lines s_pos s_seekable].
      rewrite <- app_assoc, Nat.add_succ_r. reflexivity.
    + cbn. rewrite app_nil_r, Nat.add_1_r. reflexivity.
Qed.

Lemma comprehension_emits {A} (l : list A) (mk : A -> M A) (g : A -> call) :
  (forall x f h n t s r c b tr,
      mk x (mkWorld f h n t s r c b tr) = Return x (mkWorld f h n t s r c b (tr ++ [g x]))) ->
  forall f h n t s r c b tr,
    comprehension l mk (mkWorld f h n t s r c b tr)
    = Return l (mkWorld f h n t s r c b (tr ++ map g l)).
Proof.
  intros Hmk. induction l as [|x l IH]; intros; cbn [comprehension map].
  - unfold mret, M_ret. rewrite app_nil_r. reflexivity.
  - unfold mbind, M_bind, mret, M_ret. rewrite Hmk, IH, <- app_assoc. reflexivity.
Qed.

Lemma for_each_emits {A} (l : list A) (body : A -> M unit) (g : A -> list call) :
  (forall x f h n t s r c b tr,
      body x (mkWorld f h n t s r c b tr) = Return tt (mkWorld f h n t s r c b (tr ++ g x))) ->
  forall f h n t s r c b tr,
    for_each l body (mkWorld f h n t s r c b tr)
    = Return tt (mkWorld f h n t s r c b (tr ++ flat_map g l)).
Proof.
  intros Hb. induction l as [|x l IH]; intros; cbn [for_each flat_map].
  - unfold mret, M_ret. rewrite app_nil_r. reflexivity.
  - unfold mbind, M_bind. rewrite Hb, IH, <- app_assoc. reflexivity.
Qed.

Lemma flat_map_singleton {A B} (g : A -> B) (l : list A) :
  flat_map (fun x => [g x]) l = map g l.
Proof. induction l as [|x l IH]; cbn; [reflexivity | now rewrite IH]. Qed.

Lemma flat_map_const {A B} (y : B) (l : list A) :
  flat_map (fun _ => [y]) l = repeat y (length l).
Proof. induction l as [|x l IH]; cbn; [reflexivity | now rewrite IH]. Qed.

Lemma length_range (n : Z) : length (range n) = Z.to_nat n.
Proof. unfold range. apply length_seq. Qed.

Lemma third_reading (b : list Z) : hd 0%Z (tl (tl b)) = nth 2 b 0%Z.
Proof. destruct b as [|? [|? [|? ?]]]; reflexivity. Qed.

Lemma first_reading (b : list Z) : hd 0%Z b = nth 0 b 0%Z.
Proof. destruct b; reflexivity. Qed.

Ltac run_M :=
  cbv beta iota zeta delta
    [mbind M_bind mret M_ret emit gets modify raise
     logger_info logger_debug datetime_now new_HeaderParser
     head_parse_meta_data head_parse_header_line variant_file_seek_0
     head_header head_individuals call_add_metadata new_JoinableQueue
     new_Manager_Queue cpu_count NamedTemporaryFile temp_file_close
     new_CompoundScorer worker_start new_VariantPrinter variant_printer_start
     get_batches variant_queue_put_None variant_queue_join results_put_None
     variant_printer_join sort_variants print_headers open_r print_variant
     os_remove for_line_in_variant_file
     set_variant_file set_head set_temp_file set_clock set_trace
     w_variant_file w_head w_temp_name w_temp_file w_spill w_remove_fails
     w_cpu_count w_clock w_trace s_lines s_pos s_seekable remaining
     final raised].

Lemma compound_outcome (o : options) (w : world) :
  let r := compound o w in
  w_trace (final r) = w_trace w ++ expected_calls o w
  /\ raised r = expected_exception w
  /\ w_head (final r)
     = (if s_seekable (w_variant_file w) then registered w else parsed w)
  /\ w_temp_file (final r)
     = (if s_seekable (w_variant_file w)
        then (if w_remove_fails w then Some (sorted_file w) else None)
        else w_temp_file w).
Proof.
  destruct w as [[lines pos seekable] h n t s r c b tr].
  unfold compound, expected_calls, expected_exception.
  run_M.
  erewrite iterate_header.
  2:{ intros. run_M. destruct (startswith (rstrip line) "#"); [|reflexivity].
      destruct (startswith (rstrip line) "##"); reflexivity. }
  run_M.
  destruct seekable; run_M.
  2: { unfold calls_header, parsed. run_M.
       rewrite app_nil_r, <- !app_assoc. repeat split; reflexivity. }
  rewrite (comprehension_emits _ _
             (fun i => E_CompoundScorer i
                         (individuals_attr (header_after HeaderParser (drop pos lines))))).
  2: { intros. reflexivity. }
  run_M.
  rewrite (for_each_emits _ _
             (fun i => [E_log DEBUG "Starting worker {0}" [VWorker i]; E_worker_start i])).
  2: { intros. run_M. rewrite <- app_assoc. reflexivity. }
  run_M.
  rewrite (for_each_emits _ _ (fun _ => [E_variant_queue_put_None])).
  2: { intros. reflexivity. }
  run_M. cbn [default fmap option_fmap option_map app].
  rewrite (for_each_emits _ _
             (fun line => [E_print_variant line (outfile o) "modified" (silent o)])).
  2: { intros. reflexivity. }
  rewrite flat_map_const, length_range, flat_map_singleton.
  unfold calls_header, calls_setup, calls_build, calls_produce, calls_barrier,
    calls_output, calls_epilogue, parsed, registered, sorted_file.
  destruct r; run_M; cbn [id app]; rewrite ?third_reading, ?first_reading;
    (split; [|repeat split; reflexivity]); rewrite <- ?app_assoc; cbn [app];
    rewrite <- ?app_assoc; cbn [app]; try rewrite app_nil_r; reflexivity.
Qed.

Lemma calls_of_expected (o : options) (w : world) :
  calls_of o w = expected_calls o w.
Proof.
  unfold calls_of. destruct (compound_outcome o (set_trace [] w)) as [E _].
  rewrite E. destruct w; reflexivity.
Qed.

Lemma exception_of_expected (o : options) (w : world) :
  exception_of o w = expected_exception w.
Proof.
  unfold exception_of. destruct (compound_outcome o (set_trace [] w)) as (_ & E & _).
  rewrite E. destruct w; reflexivity.
Qed.

Lemma head_after_expected (o : options) (w : world) :
  head_after o w
  = if s_seekable (w_variant_file w) then registered w else parsed w.
Proof.
  unfold head_after.
  destruct (compound_outcome o (set_trace [] w)) as (_ & _ & E & _).
  rewrite E. destruct w; reflexivity.
Qed.

Lemma scratch_after_expected (o : options) (w : world) :
  scratch_after o w
  = if s_seekable (w_variant_file w)
    then (if w_remove_fails w then Some (sorted_file w) else None)
    else w_temp_file w.
Proof.
  unfold scratch_after.
  destruct (compound_outcome o (set_trace [] w)) as (_ & _ & _ & E).
  rewrite E. destruct w; reflexivity.
Qed.

(** Where the run leaves the input stream: at its end when [get_batches] has
    read it, after the lines the header loop has taken when [seek] fails. *)
Lemma stream_after_expected (o : options) (w : world) :
  stream_after o w
  = if s_seekable (w_variant_file w)
    then mkStream (s_lines (w_variant_file w))
           (length (s_lines (w_variant_file w))) true
    else mkStream (s_lines (w_variant_file w))
           (s_pos (w_variant_file w) + header_read (remaining (w_variant_file w)))
           false.
Proof.
  destruct w as [[lines pos seekable] h n t s r c b tr].
  unfold stream_after, compound. run_M.
  erewrite iterate_header.
  2:{ intros. run_M. destruct (startswith (rstrip line) "#"); [|reflexivity].
      destruct (startswith (rstrip line) "##"); reflexivity. }
  run_M.
  destruct seekable; run_M; [|reflexivity].
  rewrite (comprehension_emits _ _
             (fun i => E_CompoundScorer i
                         (individuals_attr (header_after HeaderParser (drop pos lines))))).
  2: { intros. reflexivity. }
  run_M.
  rewrite (for_each_emits _ _
             (fun i => [E_log DEBUG "Starting worker {0}" [VWorker i]; E_worker_start i])).
  2: { intros. run_M. rewrite <- app_assoc. reflexivity. }
  run_M.
  rewrite (for_each_emits _ _ (fun _ => [E_variant_queue_put_None])).
  2: { intros. reflexivity. }
  run_M. cbn [default fmap option_fmap option_map app].
  rewrite (for_each_emits _ _
             (fun line => [E_print_variant line (outfile o) "modified" (silent o)])).
  2: { intros. reflexivity. }
  destruct r; run_M; reflexivity.
Qed.

Lemma stream_after_unseekable (o : options) (w : world) :
  s_seekable (w_variant_file w) = false ->
  stream_after o w
  = mkStream (s_lines (w_variant_file w))
      (s_pos (w_variant_file w) + header_read (remaining (w_variant_file w)))
      false.
Proof. intros Hs. now rewrite stream_after_expected, Hs. Qed.

End Shape.

(** ** The steps of the coordinator *)
Section Script.
Context `{Collaborators}.

Lemma script_app (a b : list call) : script (a ++ b) = script a ++ script b.
Proof. unfold script. apply flat_map_app. Qed.

Lemma script_plain (l : list call) :
  forallb (fun c => negb (is_get_batches c)) l = true -> script l = map OCall l.
Proof.
  induction l as [|c l IH]; [reflexivity|].
  cbn [forallb]. intros [Hc Hl]%andb_true_iff.
  change (script (c :: l)) with (expand c ++ script l).
  rewrite (IH Hl). destruct c; try reflexivity. discriminate.
Qed.

Lemma forallb_all {A} (f : A -> bool) (l : list A) :
  (forall x, f x = true) -> forallb f l = true.
Proof. intros Hf. induction l as [|x l IH]; cbn; [reflexivity|]. now rewrite Hf, IH. Qed.

Lemma forallb_fmap {A B} (f : B -> bool) (g : A -> B) (l : list A) :
  forallb f (map g l) = forallb (fun x => f (g x)) l.
Proof. induction l as [|x l IH]; cbn; [reflexivity|]. now rewrite IH. Qed.

Lemma forallb_flat_map {A B} (f : B -> bool) (g : A -> list B) (l : list A) :
  forallb f (flat_map g l) = forallb (fun x => forallb f (g x)) l.
Proof.
  induction l as [|x l IH]; cbn; [reflexivity|]. now rewrite forallb_app, IH.
Qed.

Lemma forallb_repeat {A} (f : A -> bool) (x : A) (n : nat) :
  f x = true -> forallb f (repeat x n) = true.
Proof. intros Hx. induction n as [|n IH]; cbn; [reflexivity|]. now rewrite Hx, IH. Qed.

Lemma forallb_header_calls (f : call -> bool) (ls : list string) :
  (forall l, f (E_parse_meta_data l) = true) ->
  (forall l, f (E_parse_header_line l) = true) ->
  forallb f (header_calls ls) = true.
Proof.
  intros H1 H2. induction ls as [|l ls IH]; cbn -[rstrip startswith]; [reflexivity|].
  destruct (startswith (rstrip l) "#"); [|reflexivity].
  cbn -[rstrip startswith]. rewrite IH.
  destruct (startswith (rstrip l) "##"); now rewrite ?H1, ?H2.
Qed.

End Script.

(** Decide a [forallb] over the calls of a run, segment by segment. *)
Ltac forallb_segments :=
  unfold ops_before, ops_feed, ops_barrier, ops_after, calls_header,
    calls_setup, calls_build, calls_produce, calls_barrier, calls_output,
    calls_epilogue;
  repeat first
    [ rewrite forallb_app | rewrite forallb_fmap | rewrite forallb_flat_map
    | rewrite andb_true_iff | split
    | match goal with
      | |- forallb _ (if ?b then _ else _) = true => destruct b
      end ];
  repeat match goal with
    | |- forallb _ (header_calls _) = true =>
        apply forallb_header_calls; intros; reflexivity
    | |- forallb _ (repeat _ _) = true => apply forallb_repeat; reflexivity
    | |- forallb _ (if ?b then _ else _) = true => destruct b
    | |- forallb _ _ = true => first [reflexivity | apply forallb_all; intros; reflexivity]
    end.

Section Phases.
Context `{Collaborators}.

Lemma no_get_batches_header (w : world) :
  forallb (fun c => negb (is_get_batches c)) (calls_header w) = true.
Proof. forallb_segments. Qed.

Lemma no_get_batches_setup (o : options) (w : world) :
  forallb (fun c => negb (is_get_batches c)) (calls_setup o w) = true.
Proof. forallb_segments. Qed.

Lemma no_get_batches_output (o : options) (w : world) :
  forallb (fun c => negb (is_get_batches c))
    (calls_output o w ++ (if w_remove_fails w then [] else calls_epilogue w)) = true.
Proof. forallb_segments. Qed.

Lemma no_get_batches_repeat (n : nat) :
  forallb (fun c => negb (is_get_batches c)) (repeat E_variant_queue_put_None n) = true.
Proof. forallb_segments. Qed.

(** The steps of a run that gets past [seek]. *)
Lemma script_seekable (o : options) (w : world) :
  s_seekable (w_variant_file w) = true ->
  script (calls_of o w)
  = ops_before o w ++ ops_feed o w ++ ops_barrier ++ ops_after o w.
Proof.
  intros Hs. rewrite calls_of_expected. unfold expected_calls. rewrite Hs.
  unfold calls_produce.
  rewrite !script_app.
  rewrite (script_plain _ (no_get_batches_header w)).
  rewrite (script_plain _ (no_get_batches_setup o w)).
  rewrite (script_plain _ (no_get_batches_repeat _)).
  rewrite (script_plain calls_barrier eq_refl).
  rewrite <- script_app.
  rewrite (script_plain _ (no_get_batches_output o w)).
  unfold ops_before, ops_feed, ops_barrier, ops_after, units_of.
  cbn [script flat_map expand app remaining s_pos s_lines drop].
  rewrite !map_app. cbn [map]. rewrite <- !app_assoc. cbn [app]. reflexivity.
Qed.

(** The steps of a run that fails at [seek]. *)
Lemma script_unseekable (o : options) (w : world) :
  s_seekable (w_variant_file w) = false ->
  script (calls_of o w) = map OCall (calls_header w).
Proof.
  intros Hs. rewrite calls_of_expected. unfold expected_calls. rewrite Hs.
  rewrite app_nil_r. apply script_plain, no_get_batches_header.
Qed.


(** *** Splitting a list at an element *)

Lemma split_after_prefix {A} (Q : A -> bool) (a r d t : list A) (y : A) :
  forallb (fun z => negb (Q z)) a = true -> Q y = true ->
  a ++ r = d ++ y :: t ->
  exists d', d = a ++ d' /\ r = d' ++ y :: t.
Proof.
  revert d. induction a as [|x a IH]; intros d Ha Hy E.
  - exists d. split; [reflexivity | exact E].
  - cbn in Ha. apply andb_true_iff in Ha as [Hx Ha].
    destruct d as [|z d]; cbn in E; injection E as -> E.
    + rewrite Hy in Hx. discriminate.
    + destruct (IH d Ha Hy E) as (d' & -> & ->). exists d'. split; reflexivity.
Qed.

Lemma forallb_weaken {A} (f g : A -> bool) (l : list A) :
  (forall x, f x = true -> g x = true) -> forallb f l = true -> forallb g l = true.
Proof.
  intros Hfg. induction l as [|x l IH]; cbn; [reflexivity|].
  intros [Hx Hl]%andb_true_iff. now rewrite (Hfg _ Hx), IH.
Qed.

Lemma forallb_none {A} (Q : A -> bool) (l d t : list A) (y : A) :
  forallb (fun z => negb (Q z)) l = true -> Q y = true -> l <> d ++ y :: t.
Proof.
  intros Hl Hy E. rewrite E, forallb_app in Hl.
  apply andb_true_iff in Hl as [_ Hl]. cbn in Hl. now rewrite Hy in Hl.
Qed.

Lemma forallb_suffix {A} (f : A -> bool) (d t : list A) (y : A) :
  forallb f (d ++ y :: t) = true -> forallb f t = true.
Proof.
  rewrite forallb_app. cbn. intros [_ [_ Ht]%andb_true_iff]%andb_true_iff. exact Ht.
Qed.

(** *** Classification of the phases *)

Lemma early_before_feed (o : options) (w : world) :
  forallb early (ops_before o w ++ ops_feed o w) = true.
Proof. forallb_segments. Qed.

Lemma early_header (w : world) : forallb early (map OCall (calls_header w)) = true.
Proof. forallb_segments. Qed.

Lemma calm_after (o : options) (w : world) : forallb calm (ops_after o w) = true.
Proof. forallb_segments. Qed.

Lemma putless_before (o : options) (w : world) :
  forallb putless (ops_before o w) = true.
Proof. forallb_segments. Qed.

Lemma maxsize_seekable (o : options) (w : world) :
  forallb maxsize_1000
    (ops_before o w ++ ops_feed o w ++ ops_barrier ++ ops_after o w) = true.
Proof. forallb_segments. Qed.

Lemma calm_putless (l : list op) : forallb calm l = true -> forallb putless l = true.
Proof.
  apply forallb_weaken. intros [c|u]; [|discriminate]. destruct c; cbn; congruence.
Qed.

Lemma calm_no_creation (l : list op) : forallb calm l = true -> creations l = 0.
Proof.
  unfold creations, count_if. induction l as [|x l IH]; cbn; [reflexivity|].
  intros [Hx Hl]%andb_true_iff.
  destruct x as [c|u]; [destruct c; cbn in *; try discriminate|]; auto.
Qed.

Lemma future_puts_app (a b : list op) :
  future_puts (a ++ b) = future_puts a ++ future_puts b.
Proof. unfold future_puts. apply flat_map_app. Qed.

Lemma putless_future (l : list op) : forallb putless l = true -> future_puts l = [].
Proof.
  unfold future_puts, putless. induction l as [|x l IH]; cbn; [reflexivity|].
  intros [Hx Hl]%andb_true_iff. rewrite (IH Hl).
  destruct (puts x); [reflexivity | discriminate].
Qed.

Lemma future_puts_units (us : list (batch + scored)) :
  future_puts (map OProduce us) = map Some (batches_in us).
Proof.
  unfold future_puts. induction us as [|[b|r] us IH]; cbn; [reflexivity| |]; now rewrite IH.
Qed.

Lemma future_puts_markers (n : nat) :
  future_puts (map OCall (repeat E_variant_queue_put_None n)) = repeat None n.
Proof. unfold future_puts. induction n as [|n IH]; cbn; [reflexivity|]. now rewrite IH. Qed.

Lemma future_puts_feed (o : options) (w : world) :
  future_puts (ops_feed o w)
  = map Some (batches_in (units_of o w)) ++ repeat None (Z.to_nat (processes o)).
Proof.
  unfold ops_feed. rewrite future_puts_app, future_puts_units, map_app, future_puts_app.
  rewrite future_puts_markers. reflexivity.
Qed.

Lemma future_puts_seekable (o : options) (w : world) :
  future_puts (ops_before o w ++ ops_feed o w ++ ops_barrier ++ ops_after o w)
  = map Some (batches_in (units_of o w)) ++ repeat None (Z.to_nat (processes o)).
Proof.
  rewrite !future_puts_app, future_puts_feed.
  rewrite (putless_future _ (putless_before o w)).
  rewrite (putless_future ops_barrier eq_refl).
  rewrite (putless_future _ (calm_putless _ (calm_after o w))).
  cbn [app]. now rewrite app_nil_r.
Qed.

Lemma batches_first_sorted (bs : list batch) (n : nat) :
  batches_first (map Some bs ++ repeat None n).
Proof.
  induction bs as [|b bs IH]; cbn; [|exact IH].
  destruct n as [|n]; cbn; [exact I|].
  apply List.Forall_forall. intros x Hx. now apply repeat_spec in Hx.
Qed.

Lemma count_if_app {A} (f : A -> bool) (a b : list A) :
  count_if f (a ++ b) = count_if f a + count_if f b.
Proof. unfold count_if. now rewrite List.filter_app, length_app. Qed.

Lemma count_if_none {A} (f : A -> bool) (l : list A) :
  forallb (fun x => negb (f x)) l = true -> count_if f l = 0.
Proof.
  unfold count_if. induction l as [|x l IH]; cbn; [reflexivity|].
  intros [Hx Hl]%andb_true_iff. destruct (f x); [discriminate | auto].
Qed.

Lemma count_if_all {A} (f : A -> bool) (l : list A) :
  forallb f l = true -> count_if f l = length l.
Proof.
  unfold count_if. induction l as [|x l IH]; cbn; [reflexivity|].
  intros [Hx Hl]%andb_true_iff. rewrite Hx. cbn. now rewrite IH.
Qed.

Lemma count_markers_sorted (bs : list batch) (n : nat) :
  count_if is_marker (map Some bs ++ repeat None n) = n.
Proof.
  rewrite count_if_app, count_if_none, count_if_all, repeat_length; [reflexivity| |].
  - now apply forallb_repeat.
  - rewrite forallb_fmap. now apply forallb_all.
Qed.

Lemma creations_seekable (o : options) (w : world) :
  creations (ops_before o w ++ ops_feed o w ++ ops_barrier ++ ops_after o w)
  = Z.to_nat (processes o).
Proof.
  unfold creations. rewrite !count_if_app.
  rewrite (count_if_none _ (ops_feed o w)) by forallb_segments.
  rewrite (count_if_none _ ops_barrier) by reflexivity.
  rewrite (count_if_none _ (ops_after o w)) by forallb_segments.
  unfold ops_before, calls_setup, calls_build. rewrite !map_app, !count_if_app.
  rewrite (count_if_none _ (map OCall (calls_header w))) by forallb_segments.
  rewrite (count_if_all _ (map OCall (map _ (range (processes o)))))
    by forallb_segments.
  rewrite !length_map, length_range.
  rewrite (count_if_none _ (map OCall (flat_map _ _))) by forallb_segments.
  cbn. lia.
Qed.

(** *** Well-formedness of the steps of every run *)

Lemma split_known {A} (Q : A -> bool) (l a r d t : list A) (y : A) :
  l = a ++ r -> forallb (fun z => negb (Q z)) a = true -> Q y = true ->
  l = d ++ y :: t ->
  exists d', d = a ++ d' /\ r = d' ++ y :: t.
Proof. intros -> Ha Hy E. now apply (split_after_prefix Q). Qed.

Lemma early_then (Q : op -> bool) (l extra : list op) :
  (forall x, early x = true -> negb (Q x) = true) ->
  forallb early l = true ->
  forallb (fun z => negb (Q z)) extra = true ->
  forallb (fun z => negb (Q z)) (l ++ extra) = true.
Proof.
  intros HQ Hl He. rewrite forallb_app, He, (forallb_weaken _ _ _ HQ Hl). reflexivity.
Qed.

Ltac not_early := intros [c|u]; [destruct c|]; cbn; congruence.

Lemma well_formed_script (o : options) (w : world) :
  well_formed (script (calls_of o w)).
Proof.
  destruct (s_seekable (w_variant_file w)) eqn:Hs.
  - rewrite (script_seekable o w Hs).
    pose proof (early_before_feed o w) as He.
    constructor.
    + intros d y t E Hy.
      destruct (fun H1 H2 => split_known is_results_marker_op _
                  ((ops_before o w ++ ops_feed o w) ++ [OCall E_variant_queue_join])
                  ([OCall E_results_put_None; OCall E_variant_printer_join]
                     ++ ops_after o w) d t y H1 H2 Hy E) as (d' & -> & _).
      * rewrite <- !app_assoc. reflexivity.
      * apply early_then; [not_early | exact He | reflexivity].
      * exists (OCall E_variant_queue_join). split; [|reflexivity].
        rewrite !in_app_iff. left. right. now left.
    + intros d y t E Hy.
      destruct (fun H1 H2 => split_known is_printer_join_op _
                  ((ops_before o w ++ ops_feed o w)
                     ++ [OCall E_variant_queue_join; OCall E_results_put_None])
                  ([OCall E_variant_printer_join] ++ ops_after o w) d t y H1 H2 Hy E)
        as (d' & -> & _).
      * rewrite <- !app_assoc. reflexivity.
      * apply early_then; [not_early | exact He | reflexivity].
      * exists (OCall E_variant_queue_join). split; [|reflexivity].
        rewrite !in_app_iff. left. right. now left.
    + intros d y t E Hy.
      destruct (fun H1 H2 => split_known is_sort_op _
                  ((ops_before o w ++ ops_feed o w) ++ ops_barrier)
                  (ops_after o w) d t y H1 H2 Hy E) as (d' & -> & _).
      * rewrite <- !app_assoc. reflexivity.
      * apply early_then; [not_early | exact He | reflexivity].
      * exists (OCall E_variant_printer_join). split; [|reflexivity].
        rewrite !in_app_iff. left. right. cbn. auto.
    + intros d y t E Hy.
      destruct (fun H1 H2 => split_known is_join_op _
                  (ops_before o w ++ ops_feed o w)
                  (ops_barrier ++ ops_after o w) d t y H1 H2 Hy E) as (d' & _ & E').
      * rewrite <- !app_assoc. reflexivity.
      * apply forallb_weaken with (f := early); [not_early | exact He].
      * apply (forallb_suffix calm d' t y). rewrite <- E'.
        rewrite forallb_app, calm_after. reflexivity.
    + rewrite future_puts_seekable. apply batches_first_sorted.
    + rewrite future_puts_seekable, count_markers_sorted, creations_seekable.
      reflexivity.
    + apply maxsize_seekable.
  - rewrite (script_unseekable o w Hs).
    pose proof (early_header w) as He.
    assert (Hnone : forall (Q : op -> bool) d y t,
               (forall x, early x = true -> negb (Q x) = true) -> Q y = true ->
               map OCall (calls_header w) <> d ++ y :: t).
    { intros Q d y t HQ Hy. apply (forallb_none Q); [|exact Hy].
      now apply (forallb_weaken _ _ _ HQ). }
    constructor.
    + intros d y t E Hy. exfalso. revert E. apply (Hnone is_results_marker_op); auto.
      not_early.
    + intros d y t E Hy. exfalso. revert E. apply (Hnone is_printer_join_op); auto.
      not_early.
    + intros d y t E Hy. exfalso. revert E. apply (Hnone is_sort_op); auto.
      not_early.
    + intros d y t E Hy. exfalso. revert E. apply (Hnone is_join_op); auto.
      not_early.
    + rewrite putless_future by forallb_segments. exact I.
    + rewrite putless_future by forallb_segments.
      unfold creations. rewrite (count_if_none creates) by forallb_segments. reflexivity.
    + forallb_segments.
Qed.

End Phases.

(** ** Steps of the pipeline *)
Section Steps.
Context `{Collaborators}.

Ltac split_match H :=
  repeat match type of H with
    | match ?x with _ => _ end = Some _ => destruct x eqn:?; try discriminate
    | _ <$> ?x = Some _ => destruct x eqn:?; [cbn in H|discriminate]
    end.

Lemma enqueue_spec (x : option batch) (s s' : shared) :
  enqueue x s = Some s' ->
  s' = mkShared (sh_maxsize s) (sh_variant_queue s ++ [x]) (S (sh_unfinished s))
         (sh_results s) (sh_scorers s) (sh_printer s) (sh_store s)
  /\ exists m, sh_maxsize s = Some m /\ has_room m (sh_variant_queue s) = true.
Proof.
  unfold enqueue. destruct (sh_maxsize s) as [m|] eqn:Hm; [|discriminate].
  destruct (has_room m (sh_variant_queue s)) eqn:Hr; [|discriminate].
  intros [= <-]. split; [|eauto].
  unfold set_unfinished, set_variant_queue. cbn. rewrite ?Hm. reflexivity.
Qed.

(** What one step of the coordinator changes. *)
Lemma perform_queue (o : op) (s s' : shared) :
  perform o s = Some s' ->
  sh_variant_queue s' = sh_variant_queue s ++ puts o
  /\ sh_unfinished s' = sh_unfinished s + length (puts o)
  /\ (puts o <> [] ->
      exists m, sh_maxsize s = Some m /\ has_room m (sh_variant_queue s) = true).
Proof.
  destruct o as [c|[b|r]]; [destruct c|..]; cbn [perform puts];
    try (intros Hp; apply enqueue_spec in Hp as (-> & ?); cbn;
         repeat split; auto; lia);
    intros Hp; split_match Hp;
    injection Hp as <-; cbn; rewrite ?app_nil_r, ?Nat.add_0_r; repeat split; congruence.
Qed.

Lemma perform_maxsize (o : op) (s s' : shared) :
  perform o s = Some s' ->
  sh_maxsize s' = match o with
                  | OCall (E_JoinableQueue m) => Some m
                  | _ => sh_maxsize s
                  end.
Proof.
  destruct o as [c|[b|r]]; [destruct c|..]; cbn [perform];
    try (intros Hp; apply enqueue_spec in Hp as (-> & ?); reflexivity);
    intros Hp; split_match Hp; injection Hp as <-; reflexivity.
Qed.

Lemma perform_results (o : op) (s s' : shared) :
  perform o s = Some s' ->
  sh_results s'
  = sh_results s ++ match o with
                    | OCall E_results_put_None => [None]
                    | OProduce (inr r) => [Some r]
                    | _ => []
                    end.
Proof.
  destruct o as [c|[b|r]]; [destruct c|..]; cbn [perform];
    try (intros Hp; apply enqueue_spec in Hp as (-> & ?); cbn; now rewrite app_nil_r);
    intros Hp; split_match Hp; injection Hp as <-; cbn; now rewrite ?app_nil_r.
Qed.

Lemma perform_scorers (o : op) (s s' : shared) :
  perform o s = Some s' ->
  if creates o
  then exists individuals,
      sh_scorers s' = sh_scorers s ++ [mkScorer Created individuals 0]
  else sh_scorers s' = sh_scorers s
       \/ exists i individuals k,
           sh_scorers s !! i = Some (mkScorer Created individuals k)
           /\ sh_scorers s' = <[i := mkScorer Idle individuals k]> (sh_scorers s).
Proof.
  destruct o as [c|[b|r]]; [destruct c|..]; cbn [perform creates is_creation];
    try (intros Hp; apply enqueue_spec in Hp as (-> & ?); left; reflexivity);
    intros Hp; split_match Hp; injection Hp as <-; cbn; eauto.
  right. subst. eauto.
Qed.

Lemma perform_calm (o : op) (s s' : shared) :
  perform o s = Some s' -> calm o = true ->
  sh_printer s' = sh_printer s /\ sh_scorers s' = sh_scorers s
  /\ sh_unfinished s' = sh_unfinished s
  /\ sh_variant_queue s' = sh_variant_queue s.
Proof.
  destruct o as [c|[b|r]]; [destruct c|..]; cbn [perform calm]; try discriminate;
    intros Hp _; split_match Hp; injection Hp as <-; cbn; auto.
Qed.

Lemma perform_guards (o : op) (s s' : shared) :
  perform o s = Some s' ->
  (is_join_op o = true -> sh_unfinished s = 0)
  /\ (is_printer_join_op o = true -> sh_printer s = PrinterExited).
Proof.
  intros Hp.
  destruct o as [c|[b|r]]; [destruct c|..]; cbn; split; try discriminate;
    intros _; cbn in Hp; split_match Hp; auto.
Qed.

Lemma perform_printer (o : op) (s s' : shared) :
  perform o s = Some s' -> sh_printer s' = PrinterExited ->
  sh_printer s = PrinterExited.
Proof.
  destruct o as [c|[b|r]]; [destruct c|..]; cbn [perform];
    try (intros Hp; apply enqueue_spec in Hp as (-> & ?); auto);
    intros Hp; split_match Hp; injection Hp as <-; cbn; auto; discriminate.
Qed.

Lemma perform_store (o : op) (s s' : shared) :
  perform o s = Some s' ->
  sh_store s' = match o with
                | OCall (E_sort_variants _ mode) => sort_lines mode (sh_store s)
                | _ => sh_store s
                end.
Proof.
  destruct o as [c|[b|r]]; [destruct c|..]; cbn [perform];
    try (intros Hp; apply enqueue_spec in Hp as (-> & ?); reflexivity);
    intros Hp; split_match Hp; injection Hp as <-; reflexivity.
Qed.

Lemma scorer_step_move (i : nat) (s s' : shared) :
  scorer_step i s = Some s' -> scorer_move s i s'.
Proof.
  unfold scorer_step, task_done.
  destruct (sh_scorers s !! i) as [[pc individuals k]|] eqn:Hi; [|discriminate].
  destruct pc; try discriminate.
  - destruct (sh_variant_queue s) as [|[b|] q] eqn:Hq; [discriminate| |];
      intros [= <-]; [eapply TakeBatch | eapply TakeMarker]; eauto.
  - intros [= <-]. eapply PushResult; eauto.
  - destruct (sh_unfinished s) as [|n] eqn:Hn; [discriminate|].
    intros [= <-]. eapply AckBatch; eauto.
  - destruct (sh_unfinished s) as [|n] eqn:Hn; [discriminate|].
    intros [= <-]. eapply AckMarker; eauto.
Qed.


(** What one step of the printer is. *)
Lemma printer_step_move (s s' : shared) :
  printer_step s = Some s' ->
  exists head mode x q,
    sh_printer s = PrinterRunning head mode /\ sh_results s = x :: q
    /\ s' = mkShared (sh_maxsize s) (sh_variant_queue s) (sh_unfinished s) q
              (sh_scorers s)
              (match x with Some _ => sh_printer s | None => PrinterExited end)
              (match x with
               | Some r => sh_store s ++ render head mode r
               | None => sh_store s
               end).
Proof.
  unfold printer_step.
  destruct (sh_printer s) as [| |head mode|] eqn:Hp; try discriminate.
  destruct (sh_results s) as [|[r|] q] eqn:Hr; [discriminate| |];
    intros [= <-]; exists head, mode; eexists; exists q;
    (split; [reflexivity|split; [reflexivity|]]);
    unfold set_store, set_results, set_printer; cbn; rewrite ?Hp; reflexivity.
Qed.

(** *** Counting over a list updated in place *)

Lemma count_if_insert {A} (f : A -> bool) (l : list A) (i : nat) (x y : A) :
  l !! i = Some x ->
  count_if f (<[i := y]> l) + Nat.b2n (f x) = count_if f l + Nat.b2n (f y).
Proof.
  intros Hi. rewrite insert_take_drop by (eapply lookup_lt_Some; eauto).
  rewrite <- (take_drop_middle l i x Hi) at 3.
  rewrite !count_if_app. unfold count_if at 2 4. cbn [List.filter].
  destruct (f x), (f y); cbn; lia.
Qed.

Lemma count_if_snoc {A} (f : A -> bool) (l : list A) (x : A) :
  count_if f (l ++ [x]) = count_if f l + Nat.b2n (f x).
Proof. rewrite count_if_app. unfold count_if at 2. cbn. destruct (f x); reflexivity. Qed.

Lemma count_if_cons {A} (f : A -> bool) (l : list A) (x : A) :
  count_if f (x :: l) = Nat.b2n (f x) + count_if f l.
Proof. unfold count_if. cbn. destruct (f x); reflexivity. Qed.

Lemma Forall_insert_at {A} (P : A -> Prop) (l : list A) (i : nat) (y : A) :
  Forall P l -> P y -> Forall P (<[i := y]> l).
Proof. intros Hl Hy. now apply Forall_insert. Qed.

Lemma batches_first_tail (x : option batch) (q : list (option batch)) :
  batches_first (x :: q) -> batches_first q.
Proof.
  destruct x as [b|]; cbn; [auto|]. intros Hq.
  induction Hq as [|y q -> Hq IH]; cbn; auto.
Qed.

Lemma length_puts (o : op) : length (puts o) <= 1.
Proof. destruct o as [c|[b|r]]; [destruct c|..]; cbn; lia. Qed.

Lemma is_join_op_eq (o : op) : is_join_op o = true -> o = OCall E_variant_queue_join.
Proof. destruct o as [c|u]; [destruct c|]; cbn; congruence. Qed.

Lemma is_printer_join_op_eq (o : op) :
  is_printer_join_op o = true -> o = OCall E_variant_printer_join.
Proof. destruct o as [c|u]; [destruct c|]; cbn; congruence. Qed.

Lemma is_results_marker_op_eq (o : op) :
  is_results_marker_op o = true -> o = OCall E_results_put_None.
Proof. destruct o as [c|u]; [destruct c|]; cbn; congruence. Qed.

End Steps.

(** ** The invariant is kept by every step *)
Section Invariants.
Context `{Collaborators}.
Variable S : list op.
Hypothesis WF : well_formed S.

Lemma invariant_boot : invariant S (boot S).
Proof.
  constructor; cbn; try tauto; try reflexivity.
  - apply (wf_fifo S WF).
  - apply (wf_markers S WF).
  - constructor.
  - intros [[]|]. discriminate.
Qed.

(** A completed step of kind [Q] has a completed step of kind [P] before it. *)
Lemma done_preceded (P Q : op -> bool) (p : pipeline) (y : op) :
  p_done p ++ p_todo p = S -> preceded_by P Q S ->
  In y (p_done p) -> Q y = true ->
  exists x, In x (p_done p) /\ P x = true.
Proof.
  intros HS Hpre Hy HQ. apply in_split in Hy as (d1 & d2 & Hd).
  destruct (Hpre d1 y (d2 ++ p_todo p)) as (x & Hx & HP); auto.
  - rewrite <- HS, Hd, <- app_assoc. reflexivity.
  - exists x. split; [|exact HP]. rewrite Hd, in_app_iff. now left.
Qed.

Lemma joined_before_printer_join (p : pipeline) :
  invariant S p -> In (OCall E_variant_printer_join) (p_done p) ->
  In (OCall E_variant_queue_join) (p_done p).
Proof.
  intros I Hj.
  destruct (done_preceded is_join_op is_printer_join_op p _
              (inv_script S p I) (wf_join_printer S WF) Hj eq_refl) as (x & Hx & HP).
  now rewrite <- (is_join_op_eq x HP).
Qed.

Lemma joined_before_results_marker (p : pipeline) :
  invariant S p -> In (OCall E_results_put_None) (p_done p) ->
  In (OCall E_variant_queue_join) (p_done p).
Proof.
  intros I Hj.
  destruct (done_preceded is_join_op is_results_marker_op p _
              (inv_script S p I) (wf_join_first S WF) Hj eq_refl) as (x & Hx & HP).
  now rewrite <- (is_join_op_eq x HP).
Qed.

Lemma printer_joined_before_sort (p : pipeline) (infile mode : string) :
  invariant S p -> In (OCall (E_sort_variants infile mode)) (p_done p) ->
  In (OCall E_variant_printer_join) (p_done p).
Proof.
  intros I Hj.
  destruct (done_preceded is_printer_join_op is_sort_op p _
              (inv_script S p I) (wf_printer_sort S WF) Hj eq_refl) as (x & Hx & HP).
  now rewrite <- (is_printer_join_op_eq x HP).
Qed.

Lemma invariant_coordinator (p : pipeline) (o : op) (rest : list op) (s' : shared) :
  invariant S p -> p_todo p = o :: rest -> perform o (p_shared p) = Some s' ->
  invariant S (mkPipeline (p_done p ++ [o]) rest s').
Proof.
  intros I Htodo Hp.
  pose proof (perform_queue _ _ _ Hp) as (Hq & Hu & Hroom).
  pose proof (perform_maxsize _ _ _ Hp) as Hm.
  pose proof (perform_results _ _ _ Hp) as Hr.
  pose proof (perform_scorers _ _ _ Hp) as Hs.
  pose proof (perform_guards _ _ _ Hp) as (Hgj & Hgp).
  pose proof (inv_script S p I) as HS. rewrite Htodo in HS.
  assert (Hfut : sh_variant_queue s' ++ future_puts rest
                 = sh_variant_queue (p_shared p) ++ future_puts (o :: rest)).
  { rewrite Hq, <- app_assoc. reflexivity. }
  assert (Hcalm : In (OCall E_variant_queue_join) (p_done p) ->
                  calm o = true /\ forallb calm rest = true
                  /\ sh_unfinished (p_shared p) = 0).
  { intros Hj. destruct (inv_joined S p I Hj) as [Hc Hz].
    rewrite Htodo in Hc. cbn in Hc. apply andb_true_iff in Hc as [? ?]. auto. }
  constructor; cbn [p_done p_todo p_shared].
  - rewrite <- app_assoc. exact HS.
  - pose proof (inv_maxsize S p I) as Hold. rewrite Hm, Hq.
    assert (Ho : maxsize_1000 o = true).
    { pose proof (wf_maxsize S WF) as Hall. rewrite <- HS, forallb_app in Hall.
      apply andb_true_iff in Hall as [_ Hall]. cbn in Hall.
      now apply andb_true_iff in Hall as [? _]. }
    destruct (puts o) as [|x l] eqn:Hputs.
    + rewrite app_nil_r.
      destruct o as [c|u]; [destruct c|]; try exact Hold.
      cbn in Ho. apply Z.eqb_eq in Ho. split; [exact Ho|].
      destruct (sh_maxsize (p_shared p)) as [m|]; [apply Hold | rewrite Hold; cbn; lia].
    + destruct Hroom as (m & Em & Hm'); [discriminate|].
      pose proof (length_puts o) as Hl. rewrite Hputs in Hl. cbn in Hl.
      assert (l = []) by (destruct l; [reflexivity | cbn in Hl; lia]). subst l.
      assert (Hsame : match o with
                      | OCall (E_JoinableQueue m0) => Some m0
                      | _ => sh_maxsize (p_shared p)
                      end = sh_maxsize (p_shared p)).
      { destruct o as [c|u]; [destruct c|]; try reflexivity. discriminate. }
      rewrite Hsame, Em. rewrite Em in Hold. destruct Hold as [-> Hlen].
      split; [reflexivity|]. rewrite length_app. cbn.
      unfold has_room in Hm'. cbn in Hm'. apply Z.ltb_lt in Hm'. lia.
  - rewrite Hfut, <- Htodo. apply (inv_fifo S p I).
  - rewrite Hfut. pose proof (inv_count S p I) as Hc. rewrite Htodo in Hc.
    unfold creations in *. rewrite count_if_cons in Hc.
    destruct (creates o).
    + destruct Hs as [individuals ->]. rewrite !count_if_snoc, length_app.
      cbn in *. lia.
    + destruct Hs as [-> | (i & individuals & k & Hi & ->)]; [exact Hc|].
      rewrite length_insert.
      pose proof (count_if_insert has_exited _ i _ (mkScorer Idle individuals k) Hi).
      pose proof (count_if_insert is_marked _ i _ (mkScorer Idle individuals k) Hi).
      cbn in *. lia.
  - rewrite Hu, Hq, length_app, (inv_unfinished S p I).
    assert (count_if holding (sh_scorers s')
            = count_if holding (sh_scorers (p_shared p))) as ->; [|lia].
    destruct (creates o).
    + destruct Hs as [individuals ->]. rewrite count_if_snoc. cbn. lia.
    + destruct Hs as [-> | (i & individuals & k & Hi & ->)]; [reflexivity|].
      pose proof (count_if_insert holding _ i _ (mkScorer Idle individuals k) Hi).
      cbn in *. lia.
  - pose proof (inv_scorers S p I) as Hall.
    destruct (creates o).
    + destruct Hs as [individuals ->]. apply Forall_app. split; [exact Hall|].
      constructor; [reflexivity | constructor].
    + destruct Hs as [-> | (i & individuals & k & Hi & ->)]; [exact Hall|].
      apply Forall_insert_at; [exact Hall|].
      apply (Forall_lookup_1 _ _ _ _ Hall) in Hi. exact Hi.
  - pose proof (inv_created S p I) as Hl. unfold creations in *.
    rewrite count_if_snoc.
    destruct (creates o).
    + destruct Hs as [individuals ->]. rewrite length_app. cbn. lia.
    + destruct Hs as [-> | (i & individuals & k & Hi & ->)];
        rewrite ?length_insert; cbn; lia.
  - intros [Hj | [Ho | []]]%in_app_iff; [|subst o].
    + destruct (Hcalm Hj) as (Hc & Hrest & Hz).
      destruct (perform_calm _ _ _ Hp Hc) as (_ & _ & -> & _). auto.
    + split.
      * apply (wf_calm S WF (p_done p) (OCall E_variant_queue_join) rest); auto.
      * rewrite Hu. cbn. rewrite (Hgj eq_refl). reflexivity.
  - rewrite Hr. intros [Hin | Hex].
    + apply in_app_iff. apply in_app_iff in Hin as [Hin | Hin].
      * left. apply (inv_results S p I). now left.
      * right. destruct o as [c|[b|r]]; [destruct c|..]; cbn in Hin;
          try tauto; destruct Hin as [|[]]; try discriminate. now left.
    + apply in_app_iff. left. apply (inv_results S p I). right.
      now apply (perform_printer _ _ _ Hp).
  - intros [Hj | [Ho | []]]%in_app_iff; [|subst o].
    + pose proof (inv_printer S p I Hj) as Hex.
      destruct (Hcalm (joined_before_printer_join p I Hj)) as (Hc & _ & _).
      destruct (perform_calm _ _ _ Hp Hc) as (-> & _). exact Hex.
    + destruct (perform_calm _ _ _ Hp eq_refl) as (-> & _). now apply Hgp.
Qed.


Lemma invariant_scorer (p : pipeline) (i : nat) (s' : shared) :
  invariant S p -> scorer_step i (p_shared p) = Some s' ->
  invariant S (mkPipeline (p_done p) (p_todo p) s').
Proof.
  intros I Hstep. apply scorer_step_move in Hstep.
  pose proof (inv_count S p I) as Hc.
  pose proof (inv_unfinished S p I) as Hu.
  pose proof (inv_fifo S p I) as Hf.
  pose proof (inv_maxsize S p I) as Hm.
  pose proof (inv_scorers S p I) as Hall.
  pose proof (inv_joined S p I) as Hj.
  pose proof (inv_results S p I) as Hr.
  destruct Hstep as [ind k b q Hi Hq ->|ind k q Hi Hq ->|ind k b Hi ->
                    |ind k n Hi Hn ->|ind k n Hi Hn ->];
    pose proof (Forall_lookup_1 _ _ _ _ Hall Hi) as Hk;
    constructor; cbn [p_done p_todo p_shared sh_maxsize sh_variant_queue
                        sh_unfinished sh_results sh_scorers sh_printer];
    try apply (inv_script S p I); try apply (inv_printer S p I);
    try exact Hm; try exact Hf; try exact Hr;
    rewrite ?length_insert; try apply (inv_created S p I);
    try (apply Forall_insert_at; [exact Hall | cbn in *; congruence]);
    try rewrite Hq in *; cbn [app length] in *;
    try (eapply batches_first_tail; exact Hf);
    try (destruct (sh_maxsize (p_shared p)); [split; [apply Hm | lia] | discriminate]);
    try (intros Hd; destruct (Hj Hd) as [? ?]; split; [assumption | congruence]);
    try (intros [Hin|Hex]; apply Hr; [left | right; exact Hex];
         apply in_app_iff in Hin as [?|[|[]]]; [assumption | discriminate]).
  all: try rewrite count_if_cons in *.
  all: match goal with
       | Hi : _ !! ?j = Some ?x |- context [<[?j := ?y]> _] =>
           pose proof (count_if_insert has_exited _ j x y Hi);
           pose proof (count_if_insert is_marked _ j x y Hi);
           pose proof (count_if_insert holding _ j x y Hi)
       end; cbn in *; lia.
Qed.

Lemma invariant_printer (p : pipeline) (s' : shared) :
  invariant S p -> printer_step (p_shared p) = Some s' ->
  invariant S (mkPipeline (p_done p) (p_todo p) s').
Proof.
  intros I Hstep.
  apply printer_step_move in Hstep as (head & mode & x & q & Hp & Hq & ->).
  constructor; cbn [p_done p_todo p_shared sh_maxsize sh_variant_queue
                      sh_unfinished sh_results sh_scorers sh_printer];
    try apply I.
  - intros Hx. apply (inv_results S p I). left. rewrite Hq.
    destruct Hx as [Hin | Hex]; [now right|].
    destruct x; [congruence | now left].
  - intros Hj. pose proof (inv_printer S p I Hj). congruence.
Qed.

Lemma invariant_exec (t : process) (p p' : pipeline) :
  invariant S p -> exec t p = Some p' -> invariant S p'.
Proof.
  intros I. destruct t as [|i|]; cbn.
  - destruct (p_todo p) as [|o rest] eqn:Htodo; [discriminate|].
    destruct (perform o (p_shared p)) as [s'|] eqn:Hp; [|discriminate].
    intros [= <-]. now apply invariant_coordinator.
  - destruct (scorer_step i (p_shared p)) as [s'|] eqn:Hs; [|discriminate].
    intros [= <-]. now apply invariant_scorer with (i := i).
  - destruct (printer_step (p_shared p)) as [s'|] eqn:Hs; [|discriminate].
    intros [= <-]. now apply invariant_printer.
Qed.

Lemma invariant_run (schedule : list process) (p p' : pipeline) :
  invariant S p -> run schedule p = Some p' -> invariant S p'.
Proof.
  revert p. induction schedule as [|t schedule IH]; intros p I; cbn.
  - now intros [= <-].
  - destruct (exec t p) as [p1|] eqn:Ht; [|discriminate].
    apply IH. now apply (invariant_exec t p).
Qed.

End Invariants.

Section Reachable.
Context `{Collaborators}.

(** Every state a run of the command can reach satisfies the invariant. *)
Lemma invariant_reachable (o : options) (w : world) (schedule : list process)
    (p : pipeline) :
  run schedule (launch o w) = Some p -> invariant (script (calls_of o w)) p.
Proof.
  apply invariant_run; [apply well_formed_script|].
  apply invariant_boot, well_formed_script.
Qed.

End Reachable.

(** ** Consequences of the invariant *)
Section Barrier.
Context `{Collaborators}.

Lemma count_if_le_length {A} (f : A -> bool) (l : list A) : count_if f l <= length l.
Proof.
  induction l as [|x l IH]; [cbn; lia|]. rewrite count_if_cons. cbn [length].
  destruct (f x); cbn; lia.
Qed.

Lemma count_if_full {A} (f : A -> bool) (l : list A) :
  count_if f l = length l -> Forall (fun x => f x = true) l.
Proof.
  induction l as [|x l IH]; [constructor|]. rewrite count_if_cons. cbn [length].
  pose proof (count_if_le_length f l). destruct (f x) eqn:Hx; cbn; intros E.
  - constructor; [exact Hx | apply IH; lia].
  - lia.
Qed.

Lemma count_if_mono {A} (f g : A -> bool) (l : list A) :
  (forall x, f x = true -> g x = true) -> count_if f l <= count_if g l.
Proof.
  intros Hfg. induction l as [|x l IH]; [cbn; lia|]. rewrite !count_if_cons.
  destruct (f x) eqn:Hx; [rewrite (Hfg x Hx)|]; cbn; lia.
Qed.

Lemma marked_holding (s : scorer) : is_marked s = true -> holding s = true.
Proof. unfold is_marked, holding. destruct (sc_pc s); congruence. Qed.

(** Once [variant_queue.join()] has returned, every item ever put on the
    batch queue is acknowledged and every scorer has exited on its marker. *)
Lemma joined_all_exited (S : list op) (p : pipeline) :
  invariant S p -> In (OCall E_variant_queue_join) (p_done p) ->
  sh_unfinished (p_shared p) = 0
  /\ sh_variant_queue (p_shared p) = []
  /\ future_puts (p_todo p) = []
  /\ Forall (fun s => sc_pc s = Exited /\ sc_markers s = 1) (sh_scorers (p_shared p)).
Proof.
  intros I Hj. destruct (inv_joined S p I Hj) as [Hcalm Hz].
  pose proof (inv_unfinished S p I) as Hu. rewrite Hz in Hu.
  assert (Hq : sh_variant_queue (p_shared p) = []).
  { destruct (sh_variant_queue (p_shared p)); [reflexivity | cbn in Hu; lia]. }
  assert (Hf : future_puts (p_todo p) = []) by now apply putless_future, calm_putless.
  repeat split; auto.
  pose proof (inv_count S p I) as Hc.
  rewrite Hq, Hf, (calm_no_creation _ Hcalm) in Hc. cbn in Hc.
  pose proof (count_if_mono is_marked holding (sh_scorers (p_shared p)) marked_holding).
  rewrite Hq in Hu. cbn in Hu.
  assert (Hall : count_if has_exited (sh_scorers (p_shared p))
                 = length (sh_scorers (p_shared p))) by lia.
  apply count_if_full in Hall.
  pose proof (inv_scorers S p I) as Hk.
  apply List.Forall_forall. intros s Hs.
  pose proof (proj1 (List.Forall_forall _ _) Hall s Hs) as He.
  pose proof (proj1 (List.Forall_forall _ _) Hk s Hs) as Hm. cbn in He, Hm.
  rewrite He in Hm. split; [|exact Hm].
  unfold has_exited in He. destruct (sc_pc s); congruence.
Qed.

Lemma exited_cannot_step (p : pipeline) (i : nat) :
  Forall (fun s => sc_pc s = Exited) (sh_scorers (p_shared p)) ->
  exec (Scorer i) p = None.
Proof.
  intros Hall. cbn. unfold scorer_step.
  destruct (sh_scorers (p_shared p) !! i) as [[pc individuals k]|] eqn:Hi; [|reflexivity].
  apply (Forall_lookup_1 _ _ _ _ Hall) in Hi. cbn in Hi. subst pc. reflexivity.
Qed.

End Barrier.

(** * The claims *)
Section Claims.
Context `{Collaborators}.

Lemma results_marker_once (o : options) (w : world) :
  count_if is_results_marker (calls_of o w)
  = if s_seekable (w_variant_file w) then 1 else 0.
Proof.
  rewrite calls_of_expected. unfold expected_calls.
  rewrite count_if_app, (count_if_none _ (calls_header w)) by forallb_segments.
  destruct (s_seekable (w_variant_file w)); [|reflexivity].
  rewrite !count_if_app.
  rewrite (count_if_none _ (calls_setup o w)) by forallb_segments.
  rewrite (count_if_none _ (calls_produce o w)) by forallb_segments.
  rewrite (count_if_none _ (calls_output o w)) by forallb_segments.
  rewrite (count_if_none _ (if w_remove_fails w then _ else _)) by forallb_segments.
  reflexivity.
Qed.

(** C1: the coordinator puts the one terminal marker on the results queue
    only once [variant_queue.join()] has returned, that is once every item put
    on the batch queue is acknowledged, and it starts [sort_variants] only
    once [variant_printer.join()] has returned; so from the moment the
    terminal marker is in the results queue, and when the printer takes it out,
    every scorer has exited and none can push a result. *)
Theorem terminal_marker_after_barrier (o : options) (w : world)
    (schedule : list process) (p : pipeline) :
  run schedule (launch o w) = Some p ->
  count_if is_results_marker (calls_of o w)
  = (if s_seekable (w_variant_file w) then 1 else 0)
  /\ (In (OCall E_results_put_None) (p_done p) ->
      In (OCall E_variant_queue_join) (p_done p)
      /\ sh_unfinished (p_shared p) = 0
      /\ sh_variant_queue (p_shared p) = []
      /\ future_puts (p_todo p) = []
      /\ Forall (fun s => sc_pc s = Exited) (sh_scorers (p_shared p)))
  /\ (forall infile mode,
         In (OCall (E_sort_variants infile mode)) (p_done p) ->
         In (OCall E_variant_printer_join) (p_done p)
         /\ sh_printer (p_shared p) = PrinterExited)
  /\ (In None (sh_results (p_shared p))
      \/ sh_printer (p_shared p) = PrinterExited ->
      forall i, exec (Scorer i) p = None).
Proof.
  intros Hrun. pose proof (invariant_reachable o w schedule p Hrun) as I.
  pose proof (well_formed_script o w) as WF.
  assert (Hsent : In (OCall E_results_put_None) (p_done p) ->
            In (OCall E_variant_queue_join) (p_done p)
            /\ sh_unfinished (p_shared p) = 0
            /\ sh_variant_queue (p_shared p) = []
            /\ future_puts (p_todo p) = []
            /\ Forall (fun s => sc_pc s = Exited) (sh_scorers (p_shared p))).
  { intros Hm.
    pose proof (joined_before_results_marker _ WF p I Hm) as Hj.
    destruct (joined_all_exited _ p I Hj) as (Hu & Hq & Hf & Hall).
    repeat split; auto. apply (Forall_impl _ _ _ Hall). now intros s [? ?]. }
  split; [apply results_marker_once|]. split; [exact Hsent|]. split.
  - intros infile mode Hs.
    pose proof (printer_joined_before_sort _ WF p infile mode I Hs) as Hj.
    split; [exact Hj | now apply (inv_printer _ p I)].
  - intros Hm i. apply exited_cannot_step. apply Hsent. now apply (inv_results _ p I).
Qed.


Lemma marker_puts_count (o : options) (w : world) :
  count_if is_marker_put (calls_of o w)
  = if s_seekable (w_variant_file w) then Z.to_nat (processes o) else 0.
Proof.
  rewrite calls_of_expected. unfold expected_calls.
  rewrite count_if_app, (count_if_none _ (calls_header w)) by forallb_segments.
  destruct (s_seekable (w_variant_file w)); [|reflexivity].
  rewrite !count_if_app.
  rewrite (count_if_none _ (calls_setup o w)) by forallb_segments.
  rewrite (count_if_none _ calls_barrier) by reflexivity.
  rewrite (count_if_none _ (calls_output o w)) by forallb_segments.
  rewrite (count_if_none _ (if w_remove_fails w then _ else _)) by forallb_segments.
  unfold calls_produce. rewrite count_if_app.
  rewrite (count_if_all _ (repeat _ _)) by forallb_segments.
  rewrite repeat_length. cbn. lia.
Qed.

Lemma creations_count (o : options) (w : world) :
  count_if is_creation (calls_of o w)
  = if s_seekable (w_variant_file w) then Z.to_nat (processes o) else 0.
Proof.
  rewrite calls_of_expected. unfold expected_calls.
  rewrite count_if_app, (count_if_none _ (calls_header w)) by forallb_segments.
  destruct (s_seekable (w_variant_file w)); [|reflexivity].
  rewrite !count_if_app.
  rewrite (count_if_none _ (calls_produce o w)) by forallb_segments.
  rewrite (count_if_none _ calls_barrier) by reflexivity.
  rewrite (count_if_none _ (calls_output o w)) by forallb_segments.
  rewrite (count_if_none _ (if w_remove_fails w then _ else _)) by forallb_segments.
  unfold calls_setup, calls_build. rewrite !count_if_app.
  rewrite (count_if_all _ (map _ (range (processes o)))) by forallb_segments.
  rewrite (count_if_none _ (flat_map _ _)) by forallb_segments.
  rewrite length_map, length_range. cbn. lia.
Qed.

Lemma creations_script (l : list call) :
  creations (script l) = count_if is_creation l.
Proof.
  unfold creations. induction l as [|c l IH]; [reflexivity|].
  change (script (c :: l)) with (expand c ++ script l).
  rewrite count_if_app, IH, count_if_cons.
  destruct c; try reflexivity. cbn [expand is_creation Nat.b2n].
  rewrite count_if_cons, count_if_none; [reflexivity|].
  rewrite forallb_fmap. now apply forallb_all.
Qed.

Lemma creations_app (a b : list op) : creations (a ++ b) = creations a + creations b.
Proof. apply count_if_app. Qed.

(** Every marker is put after [get_batches] has been called. *)
Lemma markers_after_get_batches (o : options) (w : world) (l1 l2 : list call) :
  calls_of o w = l1 ++ E_variant_queue_put_None :: l2 ->
  exists c, In c l1 /\ is_get_batches c = true.
Proof.
  rewrite calls_of_expected. unfold expected_calls.
  destruct (s_seekable (w_variant_file w)).
  - intros E. unfold calls_produce in E.
    destruct (split_after_prefix is_marker_put
                (calls_header w ++ calls_setup o w
                   ++ [E_datetime_now;
                       E_log INFO "Start parsing the variants" [];
                       E_get_batches (mkStream (s_lines (w_variant_file w)) 0 true)
                         (registered w) (vep o) true;
                       E_log DEBUG "Put stop signs in the variant queue" [];
                       E_log DEBUG "Put stop signs in the variant queue" []])
                (repeat E_variant_queue_put_None (Z.to_nat (processes o))
                   ++ calls_barrier ++ calls_output o w
                   ++ (if w_remove_fails w then [] else calls_epilogue w))
                l1 l2 E_variant_queue_put_None) as (d' & -> & _).
    + forallb_segments.
    + reflexivity.
    + rewrite <- E, <- !app_assoc. reflexivity.
    + exists (E_get_batches (mkStream (s_lines (w_variant_file w)) 0 true)
                (registered w) (vep o) true).
      split; [|reflexivity].
      rewrite !in_app_iff. left. right. right. cbn. auto.
  - rewrite app_nil_r. intros E. exfalso. revert E.
    apply (forallb_none is_marker_put); [forallb_segments | reflexivity].
Qed.

(** C3: for every worker count, the command puts exactly as many termination
    markers on the batch queue as it has built scorers (the number of
    processes asked for), all of them after the call of [get_batches]; no
    scorer ever takes more than one marker, and once the queue is joined every
    scorer has taken exactly one and has exited. *)
Theorem one_marker_per_worker (o : options) (w : world)
    (schedule : list process) (p : pipeline) :
  run schedule (launch o w) = Some p ->
  count_if is_marker_put (calls_of o w) = count_if is_creation (calls_of o w)
  /\ (s_seekable (w_variant_file w) = true ->
      count_if is_marker_put (calls_of o w) = Z.to_nat (processes o))
  /\ (forall l1 l2, calls_of o w = l1 ++ E_variant_queue_put_None :: l2 ->
                    exists c, In c l1 /\ is_get_batches c = true)
  /\ Forall (fun s => sc_markers s <= 1) (sh_scorers (p_shared p))
  /\ (In (OCall E_variant_queue_join) (p_done p) ->
      length (sh_scorers (p_shared p)) = count_if is_creation (calls_of o w)
      /\ Forall (fun s => sc_markers s = 1 /\ sc_pc s = Exited)
           (sh_scorers (p_shared p))).
Proof.
  intros Hrun. pose proof (invariant_reachable o w schedule p Hrun) as I.
  split; [now rewrite marker_puts_count, creations_count|].
  split; [intros Hs; now rewrite marker_puts_count, Hs|].
  split; [apply markers_after_get_batches|]. split.
  - apply (Forall_impl _ _ _ (inv_scorers _ p I)). intros s ->.
    destruct (has_exited s || is_marked s); lia.
  - intros Hj. destruct (joined_all_exited _ p I Hj) as (_ & _ & _ & Hall). split.
    + rewrite (inv_created _ p I), <- creations_script, <- (inv_script _ p I).
      rewrite creations_app.
      destruct (inv_joined _ p I Hj) as [Hcalm _].
      rewrite (calm_no_creation _ Hcalm). lia.
    + apply (Forall_impl _ _ _ Hall). now intros s [? ?].
Qed.


Lemma only_maxsize_1000 (o : options) (w : world) (m : Z) :
  In (E_JoinableQueue m) (calls_of o w) -> m = 1000%Z.
Proof.
  assert (Hall : forallb (fun c => match c with
                                   | E_JoinableQueue m => (m =? 1000)%Z
                                   | _ => true
                                   end) (calls_of o w) = true).
  { rewrite calls_of_expected. unfold expected_calls. forallb_segments. }
  intros Hin. rewrite forallb_forall in Hall. apply Hall in Hin. now apply Z.eqb_eq.
Qed.

(** C6: the batch queue is created with [maxsize=1000]; in every state of
    every run it holds at most 1000 items, and while it holds 1000 a [put] of
    the coordinator cannot return: the coordinator stays where it is until a
    scorer has taken an item out. *)
Theorem batch_queue_bounded (o : options) (w : world)
    (schedule : list process) (p : pipeline) :
  run schedule (launch o w) = Some p ->
  (forall m, In (E_JoinableQueue m) (calls_of o w) -> m = 1000%Z)
  /\ length (sh_variant_queue (p_shared p)) <= 1000
  /\ (length (sh_variant_queue (p_shared p)) = 1000 ->
      forall x rest, p_todo p = x :: rest -> puts x <> [] ->
        exec Coordinator p = None
        /\ forall t p', exec t p = Some p' ->
             p_todo p' = x :: rest
             /\ (length (sh_variant_queue (p_shared p')) < 1000 ->
                 exists i, t = Scorer i)).
Proof.
  intros Hrun. pose proof (invariant_reachable o w schedule p Hrun) as I.
  pose proof (inv_maxsize _ p I) as Hm.
  split; [intros m; apply only_maxsize_1000|]. split.
  - destruct (sh_maxsize (p_shared p)); [apply Hm | rewrite Hm; cbn; lia].
  - intros Hfull x rest Htodo Hputs.
    assert (Hblocked : exec Coordinator p = None).
    { cbn. rewrite Htodo.
      destruct (perform x (p_shared p)) as [s'|] eqn:Hp; [|reflexivity].
      exfalso. destruct (perform_queue _ _ _ Hp) as (_ & _ & Hroom).
      destruct (Hroom Hputs) as (m & Em & Hr). rewrite Em in Hm.
      destruct Hm as [-> _]. unfold has_room in Hr. cbn in Hr.
      apply Z.ltb_lt in Hr. lia. }
    split; [exact Hblocked|]. intros t p' Ht.
    destruct t as [|i|].
    + congruence.
    + cbn in Ht. destruct (scorer_step i (p_shared p)); [|discriminate].
      injection Ht as <-. cbn. split; [exact Htodo | eauto].
    + cbn in Ht. destruct (printer_step (p_shared p)) as [s'|] eqn:Hs; [|discriminate].
      injection Ht as <-. cbn. split; [exact Htodo|].
      apply printer_step_move in Hs as (? & ? & ? & ? & _ & _ & ->). cbn. lia.
Qed.

Lemma batches_first_after_marker (a b : list (option batch)) :
  batches_first (a ++ None :: b) -> Forall (fun x => x = None) b.
Proof.
  induction a as [|[x|] a IH]; cbn; auto.
  intros Hall. apply Forall_app in Hall as [_ Hall]. now inversion Hall.
Qed.

(** C8: [get_batches] runs inside the coordinating process: only the
    coordinator ever adds to the batch queue, and it puts the markers after
    the last batch.  So the queue, followed by what is still to be put on it,
    always has every batch ahead of every marker; once a marker has been put
    no batch is put any more; and whenever a marker is at the head of the
    queue, where a scorer can take it, no batch is in the queue or to come. *)
Theorem batches_precede_markers (o : options) (w : world)
    (schedule : list process) (p : pipeline) :
  run schedule (launch o w) = Some p ->
  (forall t p', exec t p = Some p' ->
                length (sh_variant_queue (p_shared p))
                < length (sh_variant_queue (p_shared p')) ->
                t = Coordinator)
  /\ batches_first (sh_variant_queue (p_shared p) ++ future_puts (p_todo p))
  /\ (In (OCall E_variant_queue_put_None) (p_done p) ->
      Forall (fun x => x = None) (future_puts (p_todo p)))
  /\ (forall q, sh_variant_queue (p_shared p) = None :: q ->
                Forall (fun x => x = None) (q ++ future_puts (p_todo p)))
  /\ (forall i p', exec (Scorer i) p = Some p' ->
                   sh_variant_queue (p_shared p)
                   = None :: sh_variant_queue (p_shared p') ->
                   Forall (fun x => x = None)
                     (sh_variant_queue (p_shared p') ++ future_puts (p_todo p'))).
Proof.
  intros Hrun. pose proof (invariant_reachable o w schedule p Hrun) as I.
  pose proof (inv_fifo _ p I) as Hf.
  assert (Hhead : forall q, sh_variant_queue (p_shared p) = None :: q ->
                    Forall (fun x => x = None) (q ++ future_puts (p_todo p))).
  { intros q Hq. rewrite Hq in Hf. exact Hf. }
  split; [|split; [exact Hf|split; [|split; [exact Hhead|]]]].
  - intros t p' Ht Hlen. destruct t as [|i|]; [reflexivity|exfalso..].
    + cbn in Ht. destruct (scorer_step i (p_shared p)) as [s'|] eqn:Hs; [|discriminate].
      injection Ht as <-. cbn in Hlen. apply scorer_step_move in Hs.
      destruct Hs as [? ? ? ? _ Hq ->|? ? ? _ Hq ->|? ? ? _ ->|? ? ? _ _ ->|? ? ? _ _ ->];
        cbn in Hlen; try rewrite Hq in Hlen; cbn in Hlen; lia.
    + cbn in Ht. destruct (printer_step (p_shared p)) as [s'|] eqn:Hs; [|discriminate].
      injection Ht as <-. cbn in Hlen.
      apply printer_step_move in Hs as (? & ? & ? & ? & _ & _ & ->). cbn in Hlen. lia.
  - intros Hput. apply in_split in Hput as (d1 & d2 & Hd).
    pose proof (wf_fifo _ (well_formed_script o w)) as Hall.
    rewrite <- (inv_script _ p I), Hd, <- app_assoc in Hall.
    rewrite future_puts_app in Hall. cbn [app] in Hall.
    change (future_puts (OCall E_variant_queue_put_None :: d2 ++ p_todo p))
      with (None :: future_puts (d2 ++ p_todo p)) in Hall.
    apply batches_first_after_marker in Hall.
    rewrite future_puts_app in Hall. now apply Forall_app in Hall as [_ ?].
  - intros i p' Ht Hq. cbn in Ht.
    destruct (scorer_step i (p_shared p)) as [s'|]; [|discriminate].
    injection Ht as <-. cbn in *. now apply Hhead.
Qed.


(** *** Runs that differ in [--silent] and [--outfile] *)

Lemma perform_blind (x : op) (s : shared) : perform (blind_op x) s = perform x s.
Proof. destruct x as [c|u]; [destruct c|]; reflexivity. Qed.

Lemma script_blind (l : list call) : script (map blind l) = map blind_op (script l).
Proof.
  induction l as [|c l IH]; [reflexivity|].
  change (script (map blind (c :: l))) with (expand (blind c) ++ script (map blind l)).
  change (script (c :: l)) with (expand c ++ script l).
  rewrite map_app, IH. f_equal.
  destruct c; try reflexivity. cbn. f_equal.
  rewrite map_map. reflexivity.
Qed.

Lemma blind_calls (o o' : options) (w : world) :
  vep o = vep o' -> processes o = processes o' ->
  map blind (calls_of o w) = map blind (calls_of o' w).
Proof.
  intros Hv Hn. rewrite !calls_of_expected. unfold expected_calls.
  destruct (s_seekable (w_variant_file w)); [|reflexivity].
  unfold calls_setup, calls_build, calls_produce, calls_output. rewrite Hv, Hn.
  rewrite !map_app, !map_map. reflexivity.
Qed.

Lemma alike_exec (t : process) (p p' q : pipeline) :
  alike p p' -> exec t p = Some q ->
  exists q', exec t p' = Some q' /\ alike q q'.
Proof.
  intros [Hs Ht] Hq. destruct t as [|i|]; cbn in *.
  - destruct (p_todo p) as [|x rest] eqn:Hx; [discriminate|].
    destruct (p_todo p') as [|x' rest'] eqn:Hx'; [discriminate|].
    cbn in Ht. injection Ht as Hb Hrest.
    rewrite <- Hs, <- (perform_blind x'), <- Hb, perform_blind.
    destruct (perform x (p_shared p)) as [s'|]; [|discriminate].
    injection Hq as <-. eexists. split; [reflexivity|]. split; [reflexivity | exact Hrest].
  - rewrite <- Hs. destruct (scorer_step i (p_shared p)) as [s'|]; [|discriminate].
    injection Hq as <-. eexists. split; [reflexivity|]. split; [reflexivity | exact Ht].
  - rewrite <- Hs. destruct (printer_step (p_shared p)) as [s'|]; [|discriminate].
    injection Hq as <-. eexists. split; [reflexivity|]. split; [reflexivity | exact Ht].
Qed.

Lemma alike_run (schedule : list process) (p p' q : pipeline) :
  alike p p' -> run schedule p = Some q ->
  exists q', run schedule p' = Some q' /\ alike q q'.
Proof.
  revert p p'. induction schedule as [|t schedule IH]; intros p p' Ha; cbn.
  - intros [= <-]. eauto.
  - destruct (exec t p) as [p1|] eqn:Ht; [|discriminate]. intros Hq.
    destruct (alike_exec t p p' p1 Ha Ht) as (p1' & -> & Ha1). eauto.
Qed.

(** C9: [silent] and [outfile] reach only [print_headers] and
    [print_variant]: with them blanked, two runs that differ in nothing else
    make the same calls, and under every schedule their pipelines go through
    the same states of the queues, the scorers, the printer and the temporary
    file. *)
Theorem output_options_leave_scratch_alone (o o' : options) (w : world) :
  vep o = vep o' -> processes o = processes o' ->
  (forall c, In c (calls_of o w) ->
             output_options c = None
             \/ is_print_headers c = true \/ is_print_variant c = true)
  /\ map blind (calls_of o w) = map blind (calls_of o' w)
  /\ (forall schedule p,
         run schedule (launch o w) = Some p ->
         exists p', run schedule (launch o' w) = Some p'
                    /\ p_shared p' = p_shared p
                    /\ sh_store (p_shared p') = sh_store (p_shared p)).
Proof.
  intros Hv Hn. split; [|split].
  - intros c _. destruct c; cbn; auto.
  - now apply blind_calls.
  - intros schedule p Hrun.
    destruct (alike_run schedule (launch o w) (launch o' w) p) as (p' & Hrun' & Hs & _).
    + split; [reflexivity|]. cbn [launch boot p_todo].
      now rewrite <- !script_blind, (blind_calls o o' w Hv Hn).
    + exact Hrun.
    + exists p'. rewrite Hs. auto.
Qed.


(** *** The sequential part of the command *)

(** While only idle steps remain, nothing in the pipeline moves. *)
Lemma idle_exec (t : process) (q q' : pipeline) :
  forallb idle (p_todo q) = true -> p_shared q = pristine ->
  exec t q = Some q' ->
  forallb idle (p_todo q') = true /\ p_shared q' = pristine.
Proof.
  intros Hq Hsh Ht. destruct t as [|i|]; cbn in Ht; rewrite Hsh in Ht;
    [|discriminate..].
  destruct (p_todo q) as [|x rest]; [discriminate|].
  cbn in Hq. apply andb_true_iff in Hq as [Hx Hrest].
  destruct x as [c|u]; [|discriminate].
  destruct c; try discriminate; cbn in Ht; injection Ht as <-; auto.
Qed.

Lemma idle_run (schedule : list process) (q q' : pipeline) :
  forallb idle (p_todo q) = true -> p_shared q = pristine ->
  run schedule q = Some q' -> p_shared q' = pristine.
Proof.
  revert q. induction schedule as [|t schedule IH]; intros q Hq Hsh; cbn.
  - now intros [= <-].
  - destruct (exec t q) as [q1|] eqn:Ht; [|discriminate].
    destruct (idle_exec t q q1 Hq Hsh Ht). now apply IH.
Qed.

(** C10: [click.File('r')] accepts ['-'] and hands over standard input as it
    is; on a stream that cannot seek, the command raises at
    [variant_file.seek(0)], which is its last call: [get_batches] is never
    called and, in the pipeline, nothing is ever put on a queue. *)
Theorem unseekable_input_fails (o : options) (w : world) (os : opsys)
    (schedule : list process) (p : pipeline) :
  s_seekable (w_variant_file w) = false ->
  run schedule (launch o w) = Some p ->
  click_File "-" os = Some (os_stdin os)
  /\ exception_of o w = Some UnsupportedOperation
  /\ (exists calls, calls_of o w = calls ++ [E_seek 0])
  /\ forallb (fun c => negb (is_get_batches c) && negb (pipeline_activity c))
       (calls_of o w) = true
  /\ sh_variant_queue (p_shared p) = []
  /\ sh_results (p_shared p) = []
  /\ sh_store (p_shared p) = [].
Proof.
  intros Hs Hrun. split; [reflexivity|].
  split; [rewrite exception_of_expected; unfold expected_exception; now rewrite Hs|].
  assert (Hcalls : calls_of o w = calls_header w).
  { rewrite calls_of_expected. unfold expected_calls. now rewrite Hs, app_nil_r. }
  split; [|split].
  - rewrite Hcalls. unfold calls_header. eexists. rewrite app_assoc. reflexivity.
  - rewrite Hcalls. forallb_segments.
  - unfold launch in Hrun. rewrite (script_unseekable o w Hs) in Hrun.
    assert (Hend : p_shared p = pristine).
    { apply (idle_run schedule (boot (map OCall (calls_header w))));
        [cbn [boot p_todo]; forallb_segments | reflexivity | exact Hrun]. }
    rewrite Hend. auto.
Qed.

(** C7: once [variant_printer.join()] has returned the command calls, in this
    order and nowhere else: [sort_variants] on the temporary file with mode
    ['chromosome']; [print_headers] once, with the header, [outfile] and
    [silent]; then, for every line of the sorted file in file order,
    [print_variant] with that line, [outfile], mode ['modified'] and
    [silent]. *)
Theorem relinearization_order (o : options) (w : world) :
  s_seekable (w_variant_file w) = true ->
  exists pre post,
    calls_of o w
    = pre
      ++ [E_variant_printer_join;
          E_sort_variants (w_temp_name w) "chromosome";
          E_print_headers (registered w) (outfile o) (silent o);
          E_open (w_temp_name w) "r" "utf-8"]
      ++ map (fun line => E_print_variant line (outfile o) "modified" (silent o))
           (sort_lines "chromosome" (w_spill w))
      ++ post
    /\ forallb (fun c => negb (is_sort c || is_print_headers c || is_print_variant c))
         (pre ++ post) = true
    /\ count_if is_print_headers (calls_of o w) = 1.
Proof.
  intros Hs. rewrite calls_of_expected. unfold expected_calls. rewrite Hs.
  exists (calls_header w ++ calls_setup o w ++ calls_produce o w
            ++ [E_variant_queue_join; E_results_put_None]),
    ([E_log DEBUG "Removing temp file" []; E_os_remove (w_temp_name w)]
       ++ (if w_remove_fails w then [] else calls_epilogue w)).
  split; [|split].
  - unfold calls_barrier, calls_output, sorted_file.
    rewrite <- !app_assoc. reflexivity.
  - forallb_segments.
  - rewrite !count_if_app.
    rewrite (count_if_none _ (calls_header w)) by forallb_segments.
    rewrite (count_if_none _ (calls_setup o w)) by forallb_segments.
    rewrite (count_if_none _ (calls_produce o w)) by forallb_segments.
    rewrite (count_if_none _ (if w_remove_fails w then _ else _)) by forallb_segments.
    unfold calls_output. rewrite !count_if_app.
    rewrite (count_if_none _ (map _ _)) by forallb_segments. reflexivity.
Qed.

(** C5: the command registers the INFO field ["CorrectedRankScore"] (type
    Integer, number 1, with its description) by one call of [add_metadata],
    made on the header as parsed from the preamble, before any call that
    builds, starts or feeds a queue, a scorer, the printer or the producer;
    after it no call writes to the header, whatever the number of processes:
    every collaborator handed the header receives the header with that one
    registration, and so it stands when the command ends. *)
Theorem header_registered_once (o : options) (w : world) :
  s_seekable (w_variant_file w) = true ->
  exists rest,
    calls_of o w
    = calls_header w
      ++ E_add_metadata (parsed w) "info" "CorrectedRankScore" "1" "Integer"
           "The corrected rank score for this variant." :: rest
    /\ forallb (fun c => negb (pipeline_activity c) && negb (is_add_metadata c))
         (calls_header w) = true
    /\ forallb (fun c => negb (writes_header c)) rest = true
    /\ count_if is_add_metadata (calls_of o w) = 1
    /\ forallb (fun c => match header_passed c with
                         | Some h => false
                         | None => true
                         end) (calls_header w) = true
    /\ (forall c h, In c rest -> header_passed c = Some h -> h = registered w)
    /\ head_after o w = registered w.
Proof.
  intros Hs. rewrite head_after_expected, calls_of_expected.
  unfold expected_calls. rewrite Hs.
  exists (calls_build o w ++ calls_produce o w ++ calls_barrier
            ++ calls_output o w
            ++ (if w_remove_fails w then [] else calls_epilogue w)).
  split; [unfold calls_setup; rewrite <- !app_assoc; reflexivity|].
  split; [forallb_segments|]. split; [forallb_segments|]. split; [|split; [|split]].
  - rewrite !count_if_app.
    rewrite (count_if_none _ (calls_header w)) by forallb_segments.
    rewrite (count_if_none _ (calls_produce o w)) by forallb_segments.
    rewrite (count_if_none _ calls_barrier) by reflexivity.
    rewrite (count_if_none _ (calls_output o w)) by forallb_segments.
    rewrite (count_if_none _ (if w_remove_fails w then _ else _)) by forallb_segments.
    unfold calls_setup. rewrite count_if_app.
    rewrite (count_if_none _ (calls_build o w)) by forallb_segments. reflexivity.
  - forallb_segments.
  - intros c h Hin Hh.
    assert (Hall : forall l, forallb (fun c => match header_passed c with
                                               | Some h => false
                                               | None => true
                                               end) l = true -> In c l -> False).
    { intros l Hl Hc. rewrite forallb_forall in Hl. apply Hl in Hc.
      now rewrite Hh in Hc. }
    unfold calls_build, calls_produce, calls_barrier, calls_output in Hin.
    rewrite ?in_app_iff in Hin. cbn [In] in Hin.
    repeat match type of Hin with
      | _ \/ _ => destruct Hin as [Hin|Hin]
      end;
      try (subst c; cbn in Hh; congruence);
      try (exfalso; exact Hin);
      exfalso; revert Hin; apply Hall; forallb_segments.
  - reflexivity.
Qed.


Lemma the_get_batches_call (o : options) (w : world) (c : call) :
  In c (calls_of o w) -> is_get_batches c = true ->
  c = E_get_batches (mkStream (s_lines (w_variant_file w)) 0 true)
        (registered w) (vep o) true.
Proof.
  rewrite calls_of_expected. unfold expected_calls. intros Hin Hc.
  assert (Hall : forall l, forallb (fun c => negb (is_get_batches c)) l = true ->
                           In c l -> False).
  { intros l Hl Hi. rewrite forallb_forall in Hl. apply Hl in Hi.
    now rewrite Hc in Hi. }
  apply in_app_iff in Hin as [Hin|Hin];
    [exfalso; revert Hin; apply Hall, no_get_batches_header|].
  destruct (s_seekable (w_variant_file w)); [|destruct Hin].
  unfold calls_produce in Hin. rewrite ?in_app_iff in Hin. cbn [In] in Hin.
  repeat match type of Hin with
    | _ \/ _ => destruct Hin as [Hin|Hin]
    end;
    try (subst c; first [reflexivity | discriminate]);
    try (exfalso; exact Hin);
    exfalso; revert Hin; apply Hall; forallb_segments.
Qed.

(** C4, as the code has it: the stream handed to [get_batches] has been
    rewound by [seek(0)]: it stands at the first line of the file and the
    producer receives every line of the file, header lines included. *)
Theorem producer_input_rewound (o : options) (w : world) (variants : stream)
    (head : header) (vep compound_mode : bool) :
  In (E_get_batches variants head vep compound_mode) (calls_of o w) ->
  s_pos variants = 0
  /\ remaining variants = s_lines (w_variant_file w)
  /\ (exists d t, calls_of o w
                  = d ++ E_get_batches variants head vep compound_mode :: t
                  /\ In (E_seek 0) d).
Proof.
  intros Hin. pose proof (the_get_batches_call o w _ Hin eq_refl) as E.
  injection E as -> -> _ _. split; [reflexivity|]. split; [reflexivity|].
  apply in_split in Hin as (d & t & Hd). exists d, t. split; [exact Hd|].
  rewrite calls_of_expected in Hd. unfold expected_calls, calls_header in Hd.
  rewrite <- !app_assoc in Hd. rewrite 2!app_assoc in Hd.
  apply (split_after_prefix is_get_batches) in Hd as (d' & -> & _);
    [|forallb_segments|reflexivity].
  rewrite !in_app_iff. left. right. now left.
Qed.

(** C2, as the code has it: [os.remove] is called on the temporary file once
    every sorted record has been printed; when it succeeds the file is gone
    and the command ends normally after two more log lines and a reading of
    the clock; when it fails the exception is not caught: [os.remove] is the
    last call of the command, the command ends with that exception, and the
    file is still there. *)
Theorem scratch_removed_last (o : options) (w : world) :
  s_seekable (w_variant_file w) = true ->
  exists pre,
    calls_of o w
    = pre ++ E_os_remove (w_temp_name w)
          :: (if w_remove_fails w then [] else calls_epilogue w)
    /\ count_if is_print_variant pre
       = length (sort_lines "chromosome" (w_spill w))
    /\ count_if is_print_variant (calls_of o w)
       = length (sort_lines "chromosome" (w_spill w))
    /\ exception_of o w
       = (if w_remove_fails w then Some (OSError (w_temp_name w)) else None)
    /\ scratch_after o w
       = (if w_remove_fails w
          then Some (sort_lines "chromosome" (w_spill w)) else None).
Proof.
  intros Hs. rewrite exception_of_expected, scratch_after_expected, calls_of_expected.
  unfold expected_exception, expected_calls. rewrite Hs.
  assert (Hpre : count_if is_print_variant
                   (calls_header w ++ calls_setup o w ++ calls_produce o w
                      ++ calls_barrier
                      ++ [E_sort_variants (w_temp_name w) "chromosome";
                          E_print_headers (registered w) (outfile o) (silent o);
                          E_open (w_temp_name w) "r" "utf-8"]
                      ++ map (fun line => E_print_variant line (outfile o) "modified"
                                            (silent o)) (sorted_file w)
                      ++ [E_log DEBUG "Removing temp file" []])
                 = length (sort_lines "chromosome" (w_spill w))).
  { rewrite !count_if_app.
    rewrite (count_if_none _ (calls_header w)) by forallb_segments.
    rewrite (count_if_none _ (calls_setup o w)) by forallb_segments.
    rewrite (count_if_none _ (calls_produce o w)) by forallb_segments.
    rewrite (count_if_none _ calls_barrier) by reflexivity.
    rewrite (count_if_all _ (map _ _)) by forallb_segments.
    rewrite length_map. cbn. unfold sorted_file. lia. }
  eexists. split; [|split; [exact Hpre|split; [|split; reflexivity]]].
  - unfold calls_output. rewrite <- !app_assoc. reflexivity.
  - rewrite !count_if_app.
    rewrite (count_if_none _ (calls_header w)) by forallb_segments.
    rewrite (count_if_none _ (calls_setup o w)) by forallb_segments.
    rewrite (count_if_none _ (calls_produce o w)) by forallb_segments.
    rewrite (count_if_none _ calls_barrier) by reflexivity.
    rewrite (count_if_none _ (if w_remove_fails w then _ else _)) by forallb_segments.
    unfold calls_output. rewrite !count_if_app.
    rewrite (count_if_all _ (map _ _)) by forallb_segments.
    rewrite length_map. cbn. unfold sorted_file. lia.
Qed.

End Claims.

(** * Further properties

    What the code shows beyond the claims: the header loop, the roster of
    scorers, the temporary file, the ways a run ends, the progress of the
    pipeline, and the fate of every unit of work. *)

(** ** The header loop *)
Section HeaderLoop.
Context `{Collaborators}.





Lemma header_read_preamble (ls : list string) :
  header_read ls
  = length (preamble ls) + (if Nat.ltb (length (preamble ls)) (length ls) then 1 else 0).
Proof.
  induction ls as [|l ls IH]; [reflexivity|]. cbn [header_read preamble].
  destruct (startswith (rstrip l) "#"); [|reflexivity].
  cbn [length]. rewrite IH.
  change (Nat.ltb (S (length (preamble ls))) (S (length ls)))
    with (Nat.ltb (length (preamble ls)) (length ls)). lia.
Qed.


Lemma filter_none {A} (f : A -> bool) (l : list A) :
  forallb (fun x => negb (f x)) l = true -> List.filter f l = [].
Proof.
  induction l as [|x l IH]; cbn; [reflexivity|].
  intros [Hx Hl]%andb_true_iff. destruct (f x); [discriminate | auto].
Qed.

Lemma filter_all {A} (f : A -> bool) (l : list A) :
  forallb f l = true -> List.filter f l = l.
Proof.
  induction l as [|x l IH]; cbn; [reflexivity|].
  intros [Hx Hl]%andb_true_iff. rewrite Hx. f_equal. auto.
Qed.




End HeaderLoop.

(** ** The roster of scorers *)
Section Roster.
Context `{Collaborators}.

Lemma filter_fmap_all {A B} (f : B -> bool) (g : A -> B) (l : list A) :
  (forall x, f (g x) = true) -> List.filter f (map g l) = map g l.
Proof. intros Hfg. apply filter_all. rewrite forallb_fmap. now apply forallb_all. Qed.

Lemma filter_starts (l : list nat) :
  List.filter is_worker_start
    (flat_map (fun i => [E_log DEBUG "Starting worker {0}" [VWorker i];
                         E_worker_start i]) l)
  = map E_worker_start l.
Proof. induction l as [|i l IH]; [reflexivity|]. cbn. now rewrite IH. Qed.

(** X3: the command builds one scorer per index of [range(processes)], each with
    the individuals of the header as parsed, and starts each of them once, in
    the same order; it builds all of them before it starts the first.  A run
    that fails at [seek] builds and starts none. *)
Theorem every_scorer_built_is_started (o : options) (w : world) :
  List.filter is_creation (calls_of o w)
  = (if s_seekable (w_variant_file w)
     then map (fun i => E_CompoundScorer i (individuals_attr (parsed w)))
            (range (processes o))
     else [])
  /\ List.filter is_worker_start (calls_of o w)
     = (if s_seekable (w_variant_file w)
        then map E_worker_start (range (processes o))
        else [])
  /\ forall l1 i l2,
      calls_of o w = l1 ++ E_worker_start i :: l2 ->
      List.filter is_creation l1
      = map (fun i => E_CompoundScorer i (individuals_attr (parsed w)))
          (range (processes o))
      /\ List.filter is_creation l2 = [].
Proof.
  rewrite calls_of_expected. unfold expected_calls.
  destruct (s_seekable (w_variant_file w)).
  - pose (built := calls_header w
                ++ [E_add_metadata (parsed w) "info" "CorrectedRankScore"
                      "1" "Integer"
                      "The corrected rank score for this variant.";
                    E_log DEBUG
                      "Setting up a JoinableQueue for storing variant batches" [];
                    E_JoinableQueue 1000;
                    E_log DEBUG
                      "Setting up a Queue for storing results from workers" [];
                    E_Manager_Queue; E_cpu_count;
                    E_log INFO "Number of CPU:s {}" [VInt (w_cpu_count w)];
                    E_log INFO "Number of model checkers: {}"
                      [VInt (processes o)];
                    E_log DEBUG "Build a tempfile for printing the variants" [];
                    E_NamedTemporaryFile false; E_temp_file_close;
                    E_log INFO "Seting up the workers" []]
                ++ map (fun i => E_CompoundScorer i (individuals_attr (parsed w)))
                     (range (processes o))
                ++ [E_log INFO "Starting the workers" []]).
    assert (Hbuilt : List.filter is_creation built
                     = map (fun i => E_CompoundScorer i (individuals_attr (parsed w)))
                         (range (processes o))).
    { unfold built. rewrite !List.filter_app.
      rewrite (filter_none _ (calls_header w)) by forallb_segments.
      rewrite filter_fmap_all by reflexivity. cbn. now rewrite app_nil_r. }
    split; [|split].
    + rewrite !List.filter_app.
      rewrite (filter_none _ (calls_header w)) by forallb_segments.
      rewrite (filter_none _ (calls_produce o w)) by forallb_segments.
      rewrite (filter_none _ calls_barrier) by reflexivity.
      rewrite (filter_none _ (calls_output o w)) by forallb_segments.
      rewrite (filter_none _ (if w_remove_fails w then _ else _)) by forallb_segments.
      unfold calls_setup, calls_build. rewrite !List.filter_app.
      rewrite filter_fmap_all by reflexivity.
      rewrite (filter_none _ (flat_map _ _)) by forallb_segments.
      cbn. now rewrite !app_nil_r.
    + rewrite !List.filter_app.
      rewrite (filter_none _ (calls_header w)) by forallb_segments.
      rewrite (filter_none _ (calls_produce o w)) by forallb_segments.
      rewrite (filter_none _ calls_barrier) by reflexivity.
      rewrite (filter_none _ (calls_output o w)) by forallb_segments.
      rewrite (filter_none _ (if w_remove_fails w then _ else _)) by forallb_segments.
      unfold calls_setup, calls_build. rewrite !List.filter_app.
      rewrite (filter_none _ (map _ _)) by forallb_segments.
      rewrite filter_starts. cbn. now rewrite !app_nil_r.
    + intros l1 i l2 E.
      destruct (split_after_prefix is_worker_start built
                  (flat_map (fun i => [E_log DEBUG "Starting worker {0}" [VWorker i];
                                       E_worker_start i]) (range (processes o))
                     ++ [E_log INFO "Seting up the variant printer" [];
                         E_VariantPrinter (registered w) "chromosome" (w_temp_name w);
                         E_log INFO "Starting the variant printer process" [];
                         E_variant_printer_start]
                     ++ calls_produce o w ++ calls_barrier ++ calls_output o w
                     ++ (if w_remove_fails w then [] else calls_epilogue w))
                  l1 l2 (E_worker_start i)) as (d' & -> & Hrest).
      * unfold built. forallb_segments.
      * reflexivity.
      * rewrite <- E. unfold built, calls_setup, calls_build.
        rewrite <- !app_assoc. reflexivity.
      * assert (Hnone : forallb (fun c => negb (is_creation c))
                          (d' ++ E_worker_start i :: l2) = true)
          by (rewrite <- Hrest; forallb_segments).
        rewrite forallb_app in Hnone. apply andb_true_iff in Hnone as [Hd Hl].
        cbn in Hl. rewrite List.filter_app, Hbuilt, (filter_none _ d' Hd), app_nil_r.
        split; [reflexivity | now apply filter_none].
  - rewrite app_nil_r.
    rewrite !filter_none by forallb_segments.
    split; [reflexivity|]. split; [reflexivity|].
    intros l1 i l2 E. exfalso. revert E.
    apply (forallb_none is_worker_start); [forallb_segments | reflexivity].
Qed.

End Roster.

(** ** The temporary file *)

(** Membership in the calls of a run, phase by phase. *)
Ltac in_phases Hin :=
  unfold expected_calls, calls_header, calls_setup, calls_build, calls_produce,
    calls_barrier, calls_output, calls_epilogue in Hin;
  repeat first
    [ rewrite in_app_iff in Hin
    | progress cbn [In] in Hin
    | match type of Hin with
      | _ \/ _ => destruct Hin as [Hin|Hin]
      | In _ (if ?b then _ else _) => destruct b
      end ].

Section Scratch.
Context `{Collaborators}.

(** X4: the command makes one temporary file, with [delete=False], and the
    path it hands to the printer, to [sort_variants], to [open] and to
    [os.remove] is always the name of that file: nothing else is written by
    the printer, sorted, read back or removed.  The file is made before any
    call that receives its name. *)
Theorem one_scratch_file (o : options) (w : world) (c : call) (path : string) :
  In c (calls_of o w) -> path_passed c = Some path ->
  path = w_temp_name w
  /\ count_if is_temp_creation (calls_of o w) = 1
  /\ exists l1 l2,
      calls_of o w = l1 ++ c :: l2 /\ In (E_NamedTemporaryFile false) l1.
Proof.
  intros Hin Hpath.
  assert (Hname : path = w_temp_name w).
  { rewrite calls_of_expected in Hin.
    assert (Hall : forall l, forallb (fun c => match path_passed c with
                                               | Some _ => false
                                               | None => true
                                               end) l = true -> In c l -> False).
    { intros l Hl Hc. rewrite forallb_forall in Hl. apply Hl in Hc.
      now rewrite Hpath in Hc. }
    in_phases Hin;
      try (subst c; cbn in Hpath; congruence);
      try (exfalso; exact Hin);
      exfalso; revert Hin; apply Hall; forallb_segments. }
  assert (Hs : s_seekable (w_variant_file w) = true).
  { destruct (s_seekable (w_variant_file w)) eqn:Hs; [reflexivity|]. exfalso.
    rewrite calls_of_expected in Hin. unfold expected_calls in Hin.
    rewrite Hs, app_nil_r in Hin.
    assert (Hall : forallb (fun c => match path_passed c with
                                     | Some _ => false
                                     | None => true
                                     end) (calls_header w) = true) by forallb_segments.
    rewrite forallb_forall in Hall. apply Hall in Hin. now rewrite Hpath in Hin. }
  split; [exact Hname|]. split.
  - rewrite calls_of_expected. unfold expected_calls. rewrite Hs, !count_if_app.
    rewrite (count_if_none _ (calls_header w)) by forallb_segments.
    rewrite (count_if_none _ (calls_produce o w)) by forallb_segments.
    rewrite (count_if_none _ calls_barrier) by reflexivity.
    rewrite (count_if_none _ (calls_output o w)) by forallb_segments.
    rewrite (count_if_none _ (if w_remove_fails w then _ else _)) by forallb_segments.
    unfold calls_setup, calls_build. rewrite !count_if_app.
    rewrite (count_if_none _ (map _ _)) by forallb_segments.
    rewrite (count_if_none _ (flat_map _ _)) by forallb_segments. reflexivity.
  - apply in_split in Hin as (l1 & l2 & E). exists l1, l2. split; [exact E|].
    rewrite calls_of_expected in E. unfold expected_calls in E. rewrite Hs in E.
    destruct (split_after_prefix
                (fun c => match path_passed c with Some _ => true | None => false end)
                (calls_header w
                   ++ [E_add_metadata (parsed w) "info" "CorrectedRankScore" "1"
                         "Integer" "The corrected rank score for this variant."]
                   ++ [E_log DEBUG
                         "Setting up a JoinableQueue for storing variant batches" [];
                       E_JoinableQueue 1000;
                       E_log DEBUG
                         "Setting up a Queue for storing results from workers" [];
                       E_Manager_Queue; E_cpu_count;
                       E_log INFO "Number of CPU:s {}" [VInt (w_cpu_count w)];
                       E_log INFO "Number of model checkers: {}" [VInt (processes o)];
                       E_log DEBUG "Build a tempfile for printing the variants" [];
                       E_NamedTemporaryFile false; E_temp_file_close;
                       E_log INFO "Seting up the workers" []])
                (map (fun i => E_CompoundScorer i (individuals_attr (parsed w)))
                   (range (processes o))
                   ++ [E_log INFO "Starting the workers" []]
                   ++ flat_map (fun i => [E_log DEBUG "Starting worker {0}" [VWorker i];
                                          E_worker_start i]) (range (processes o))
                   ++ [E_log INFO "Seting up the variant printer" [];
                       E_VariantPrinter (registered w) "chromosome" (w_temp_name w);
                       E_log INFO "Starting the variant printer process" [];
                       E_variant_printer_start]
                   ++ calls_produce o w ++ calls_barrier ++ calls_output o w
                   ++ (if w_remove_fails w then [] else calls_epilogue w))
                l1 l2 c) as (d' & -> & _).
    + forallb_segments.
    + now rewrite Hpath.
    + rewrite <- E. unfold calls_setup, calls_build. rewrite <- !app_assoc. reflexivity.
    + rewrite !in_app_iff. left. right. right. cbn. tauto.
Qed.

(** X5: a run on a stream that cannot seek fails before it has made a
    temporary file or registered the new header field: it leaves the file
    system as it found it and the header as parsed.  By then the loop has
    taken the header lines and, if there is one, the first line after them
    out of the stream. *)
Theorem failed_seek_leaves_no_scratch (o : options) (w : world) :
  s_seekable (w_variant_file w) = false ->
  scratch_after o w = w_temp_file w
  /\ count_if is_temp_creation (calls_of o w) = 0
  /\ head_after o w = parsed w
  /\ s_pos (stream_after o w)
     = s_pos (w_variant_file w)
       + length (preamble (remaining (w_variant_file w)))
       + (if Nat.ltb (length (preamble (remaining (w_variant_file w))))
                     (length (remaining (w_variant_file w)))
          then 1 else 0).
Proof.
  intros Hs. rewrite scratch_after_expected, head_after_expected, Hs.
  split; [reflexivity|]. split; [|split; [reflexivity|]].
  - rewrite calls_of_expected. unfold expected_calls. rewrite Hs, app_nil_r.
    apply count_if_none. forallb_segments.
  - rewrite (stream_after_unseekable o w Hs). cbn [s_pos].
    rewrite header_read_preamble. lia.
Qed.

End Scratch.

(** ** Readiness: an invariant on the order of starts *)
Section Readiness.
Context `{Collaborators}.

Lemma count_if_fmap {A B} (f : B -> bool) (g : A -> B) (l : list A) :
  count_if f (map g l) = count_if (fun x => f (g x)) l.
Proof.
  unfold count_if. induction l as [|x l IH]; [reflexivity|]. cbn.
  destruct (f (g x)); cbn; now rewrite IH.
Qed.

Lemma count_starts (l : list nat) :
  count_if is_worker_start
    (flat_map (fun i => [E_log DEBUG "Starting worker {0}" [VWorker i];
                         E_worker_start i]) l)
  = length l.
Proof. unfold count_if. now rewrite filter_starts, length_map. Qed.

Lemma well_ordered_script (o : options) (w : world) :
  well_ordered (script (calls_of o w)).
Proof.
  destruct (s_seekable (w_variant_file w)) eqn:Hs.
  - rewrite (script_seekable o w Hs).
    pose (ready := map OCall
                     (calls_header w
                        ++ [E_add_metadata (parsed w) "info" "CorrectedRankScore" "1"
                              "Integer" "The corrected rank score for this variant."]
                        ++ [E_log DEBUG
                              "Setting up a JoinableQueue for storing variant batches" [];
                            E_JoinableQueue 1000;
                            E_log DEBUG
                              "Setting up a Queue for storing results from workers" [];
                            E_Manager_Queue; E_cpu_count;
                            E_log INFO "Number of CPU:s {}" [VInt (w_cpu_count w)];
                            E_log INFO "Number of model checkers: {}"
                              [VInt (processes o)];
                            E_log DEBUG "Build a tempfile for printing the variants" [];
                            E_NamedTemporaryFile false; E_temp_file_close;
                            E_log INFO "Seting up the workers" []]
                        ++ map (fun i => E_CompoundScorer i (individuals_attr (parsed w)))
                             (range (processes o))
                        ++ [E_log INFO "Starting the workers" []]
                        ++ flat_map (fun i => [E_log DEBUG "Starting worker {0}"
                                                 [VWorker i];
                                               E_worker_start i]) (range (processes o))
                        ++ [E_log INFO "Seting up the variant printer" [];
                            E_VariantPrinter (registered w) "chromosome" (w_temp_name w);
                            E_log INFO "Starting the variant printer process" []])).
    pose (later := map OCall
                     [E_datetime_now;
                      E_log INFO "Start parsing the variants" [];
                      E_get_batches (mkStream (s_lines (w_variant_file w)) 0 true)
                        (registered w) (vep o) true]
                   ++ ops_feed o w ++ ops_barrier ++ ops_after o w).
    assert (E : ops_before o w ++ ops_feed o w ++ ops_barrier ++ ops_after o w
                = ready ++ OCall E_variant_printer_start :: later).
    { unfold ops_before, ready, later, calls_setup, calls_build.
      rewrite !map_app, <- !app_assoc. reflexivity. }
    rewrite E. constructor.
    + intros d y t Hd Hy.
      destruct (split_after_prefix works (ready ++ [OCall E_variant_printer_start])
                  later d t y) as (d' & -> & _).
      * unfold ready. forallb_segments.
      * exact Hy.
      * rewrite <- Hd, <- app_assoc. reflexivity.
      * exists (OCall E_variant_printer_start). split; [|reflexivity].
        rewrite !in_app_iff. left. right. now left.
    + intros d y t Hd Hy.
      destruct (split_after_prefix is_printer_start_op ready
                  (OCall E_variant_printer_start :: later) d t y) as (d' & _ & Hl).
      * unfold ready. forallb_segments.
      * exact Hy.
      * exact Hd.
      * assert (Hlater : forallb settled later = true)
          by (unfold later; forallb_segments).
        destruct d' as [|x d']; cbn in Hl; injection Hl as _ Hl.
        -- now rewrite <- Hl.
        -- apply (forallb_suffix settled d' t y). now rewrite <- Hl.
    + rewrite <- E, creations_seekable. unfold ops_before.
      rewrite !count_if_app.
      rewrite (count_if_none _ (ops_feed o w)) by forallb_segments.
      rewrite (count_if_none _ ops_barrier) by reflexivity.
      rewrite (count_if_none _ (ops_after o w)) by forallb_segments.
      rewrite count_if_fmap.
      change (fun x => is_start_op (OCall x)) with is_worker_start.
      unfold calls_setup, calls_build. rewrite !count_if_app.
      rewrite (count_if_none _ (calls_header w)) by forallb_segments.
      rewrite (count_if_none _ (map _ (range (processes o)))) by forallb_segments.
      rewrite count_starts, length_range. cbn. lia.
  - rewrite (script_unseekable o w Hs).
    assert (Hnone : forall (Q : op -> bool) d y t,
               forallb (fun x => negb (Q x)) (map OCall (calls_header w)) = true ->
               Q y = true -> map OCall (calls_header w) <> d ++ y :: t).
    { intros Q d y t HQ Hy. now apply (forallb_none Q). }
    constructor.
    + intros d y t E Hy. exfalso. revert E. apply (Hnone works); [forallb_segments | exact Hy].
    + intros d y t E Hy. exfalso. revert E.
      apply (Hnone is_printer_start_op); [forallb_segments | exact Hy].
    + unfold creations. rewrite !count_if_none by forallb_segments. reflexivity.
Qed.


Lemma is_printer_start_op_eq (x : op) :
  is_printer_start_op x = true -> x = OCall E_variant_printer_start.
Proof. destruct x as [c|u]; [destruct c|]; cbn; congruence. Qed.

Ltac perform_cases x Hp :=
  destruct x as [c|[b|r]]; [destruct c|..]; cbn in Hp |- *;
  try discriminate;
  first
    [ apply enqueue_spec in Hp as (-> & _)
    | repeat match type of Hp with
        | match ?y with _ => _ end = Some _ => destruct y eqn:?; try discriminate
        end;
      injection Hp as <- ].

(** A step that does no work leaves the queues and the file as they are. *)
Lemma perform_no_work (x : op) (s s' : shared) :
  perform x s = Some s' -> works x = false ->
  sh_variant_queue s' = sh_variant_queue s /\ sh_results s' = sh_results s
  /\ sh_store s' = sh_store s /\ sh_unfinished s' = sh_unfinished s.
Proof. intros Hp Hw. perform_cases x Hp; cbn; auto. Qed.

Lemma perform_printer_frame (x : op) (s s' : shared) :
  perform x s = Some s' ->
  is_printer_build_op x = false -> is_printer_start_op x = false ->
  sh_printer s' = sh_printer s.
Proof. intros Hp Hb Hs. perform_cases x Hp; cbn; auto. Qed.

Lemma perform_printer_start (s s' : shared) :
  perform (OCall E_variant_printer_start) s = Some s' ->
  printer_live (sh_printer s') = true.
Proof.
  cbn. destruct (sh_printer s); try discriminate. now intros [= <-].
Qed.

Lemma perform_start (x : op) (s s' : shared) :
  perform x s = Some s' -> is_start_op x = true ->
  exists i individuals k,
    sh_scorers s !! i = Some (mkScorer Created individuals k)
    /\ sh_scorers s' = <[i := mkScorer Idle individuals k]> (sh_scorers s).
Proof.
  intros Hp Hs. pose proof (perform_scorers _ _ _ Hp) as Hsc.
  destruct x as [c|u]; [destruct c|]; try discriminate. cbn in Hp.
  destruct (sh_scorers s !! i) as [[[] individuals k]|] eqn:Hi; try discriminate.
  injection Hp as <-. cbn. eauto.
Qed.

Lemma perform_not_start (x : op) (s s' : shared) :
  perform x s = Some s' -> is_start_op x = false -> creates x = false ->
  sh_scorers s' = sh_scorers s.
Proof. intros Hp Hs Hc. perform_cases x Hp; cbn; auto. Qed.

Lemma forallb_insert {A} (f : A -> bool) (l : list A) (i : nat) (y : A) :
  forallb f l = true -> f y = true -> forallb f (<[i := y]> l) = true.
Proof.
  revert i. induction l as [|x l IH]; intros i Hl Hy; [reflexivity|].
  cbn in Hl. apply andb_true_iff in Hl as [Hx Hl].
  destruct i as [|i]; cbn; [now rewrite Hy, Hl | now rewrite Hx, IH].
Qed.

Lemma forallb_lookup {A} (f : A -> bool) (l : list A) (i : nat) (x : A) :
  forallb f l = true -> l !! i = Some x -> f x = true.
Proof.
  intros Hl Hi. rewrite forallb_forall in Hl. apply Hl.
  apply list_elem_of_In. eapply list_elem_of_lookup_2. exact Hi.
Qed.

Section Kept.
Variable S : list op.
Hypothesis WO : well_ordered S.

Lemma readiness_boot : readiness S (boot S).
Proof.
  constructor; cbn; auto; tauto.
Qed.

Lemma readiness_coordinator (p : pipeline) (x : op) (rest : list op) (s' : shared) :
  p_done p ++ p_todo p = S -> readiness S p ->
  p_todo p = x :: rest -> perform x (p_shared p) = Some s' ->
  readiness S (mkPipeline (p_done p ++ [x]) rest s').
Proof.
  intros HS R Htodo Hp. rewrite Htodo in HS.
  pose proof (perform_queue _ _ _ Hp) as (Hq & Hu & _).
  pose proof (perform_scorers _ _ _ Hp) as Hsc.
  assert (Hstarted : works x = true -> In (OCall E_variant_printer_start) (p_done p)).
  { intros Hw. destruct (wo_printer_first S WO (p_done p) x rest) as (y & Hy & Hys); auto.
    now rewrite <- (is_printer_start_op_eq y Hys). }
  constructor; cbn [p_done p_todo p_shared].
  - pose proof (rd_created S p R) as Hc. unfold creations in *.
    rewrite !count_if_snoc.
    destruct (creates x) eqn:Hcr.
    + destruct Hsc as [individuals ->]. rewrite count_if_snoc.
      assert (is_start_op x = false) as ->
          by (destruct x as [c|u]; [destruct c|]; cbn in *; congruence).
      cbn. lia.
    + destruct (is_start_op x) eqn:Hst.
      * destruct (perform_start _ _ _ Hp Hst) as (i & individuals & k & Hi & ->).
        pose proof (count_if_insert is_created _ i _ (mkScorer Idle individuals k) Hi).
        cbn in *. lia.
      * rewrite (perform_not_start _ _ _ Hp Hst Hcr). cbn. lia.
  - destruct (rd_quiet S p R) as [Hst | (Hvq & Hres & Hsto & Hun & Hwait)];
      [left; apply in_app_iff; now left|].
    destruct (works x) eqn:Hw; [left; apply in_app_iff; left; now apply Hstarted|].
    destruct (perform_no_work _ _ _ Hp Hw) as (-> & -> & -> & ->).
    right. repeat split; auto.
    destruct (creates x).
    + destruct Hsc as [individuals ->]. rewrite forallb_app, Hwait. reflexivity.
    + destruct Hsc as [-> | (i & individuals & k & Hi & ->)]; [exact Hwait|].
      now apply forallb_insert.
  - intros [Hst | [Hx | []]]%in_app_iff; [|subst x].
    + destruct (rd_printer S p R Hst) as [Hlive Hset]. rewrite Htodo in Hset.
      cbn in Hset. apply andb_true_iff in Hset as [Hx Hrest].
      split; [|exact Hrest].
      unfold settled in Hx. rewrite !andb_true_iff, !negb_true_iff in Hx.
      destruct Hx as [[[_ _] Hb] Hs]. now rewrite (perform_printer_frame _ _ _ Hp Hb Hs).
    + split; [now apply (perform_printer_start (p_shared p))|].
      now apply (wo_settled S WO (p_done p) (OCall E_variant_printer_start) rest).
  - intros Hnil. rewrite Hq, future_puts_app. cbn. rewrite app_nil_r. f_equal.
    apply (rd_lonely S p R).
    destruct (creates x).
    + destruct Hsc as [individuals E]. rewrite E in Hnil. now destruct (sh_scorers (p_shared p)).
    + destruct Hsc as [E | (i & individuals & k & Hi & E)]; rewrite E in Hnil; [exact Hnil|].
      apply (f_equal length) in Hnil. rewrite length_insert in Hnil.
      now destruct (sh_scorers (p_shared p)).
Qed.

Lemma readiness_scorer (p : pipeline) (i : nat) (s' : shared) :
  readiness S p -> scorer_step i (p_shared p) = Some s' ->
  readiness S (mkPipeline (p_done p) (p_todo p) s').
Proof.
  intros R Hstep. apply scorer_step_move in Hstep.
  pose proof (rd_created S p R) as Hc.
  assert (Hquiet : forall s, sh_scorers (p_shared p) !! i = Some s ->
                     (waiting s = false \/ sh_variant_queue (p_shared p) <> []) ->
                     In (OCall E_variant_printer_start) (p_done p)).
  { intros s Hi Hs. destruct (rd_quiet S p R) as [Hst | (Hvq & _ & _ & _ & Hwait)];
      [exact Hst|]. exfalso.
    pose proof (forallb_lookup _ _ _ _ Hwait Hi). destruct Hs; congruence. }
  destruct Hstep as [ind k b q Hi Hq ->|ind k q Hi Hq ->|ind k b Hi ->
                    |ind k n Hi Hn ->|ind k n Hi Hn ->];
    (constructor; cbn [p_done p_todo p_shared sh_maxsize sh_variant_queue
                         sh_unfinished sh_results sh_scorers sh_printer sh_store];
     [ match goal with
       | Hi : _ !! ?j = Some ?x |- context [<[?j := ?y]> _] =>
           pose proof (count_if_insert is_created _ j x y Hi)
       end; unfold creations, count_if in *; cbn [is_created sc_pc Nat.b2n] in *; lia
     | left; apply (Hquiet _ Hi); first [left; reflexivity | right; congruence]
     | apply (rd_printer S p R)
     | intros Hnil; apply (f_equal length) in Hnil; rewrite length_insert in Hnil;
       apply lookup_lt_Some in Hi; cbn [length] in Hnil; lia ]).
Qed.

Lemma readiness_printer (p : pipeline) (s' : shared) :
  readiness S p -> printer_step (p_shared p) = Some s' ->
  readiness S (mkPipeline (p_done p) (p_todo p) s').
Proof.
  intros R Hstep.
  apply printer_step_move in Hstep as (head & mode & x & q & Hp & Hq & ->).
  constructor; cbn [p_done p_todo p_shared sh_maxsize sh_variant_queue
                      sh_unfinished sh_results sh_scorers sh_printer sh_store].
  - apply (rd_created S p R).
  - destruct (rd_quiet S p R) as [Hst | (_ & Hres & _)]; [now left | congruence].
  - intros Hst. destruct (rd_printer S p R Hst) as [Hlive Hset]. split; [|exact Hset].
    destruct x; [exact Hlive | reflexivity].
  - apply (rd_lonely S p R).
Qed.

Lemma readiness_run (schedule : list process) (p p' : pipeline) :
  p_done p ++ p_todo p = S -> readiness S p -> run schedule p = Some p' ->
  readiness S p'.
Proof.
  revert p. induction schedule as [|t schedule IH]; intros p HS R; cbn.
  - now intros [= <-].
  - destruct (exec t p) as [p1|] eqn:Ht; [|discriminate].
    assert (p_done p1 ++ p_todo p1 = S /\ readiness S p1) as [HS1 R1].
    { destruct t as [|i|]; cbn in Ht.
      - destruct (p_todo p) as [|x rest] eqn:Htodo; [discriminate|].
        destruct (perform x (p_shared p)) as [s'|] eqn:Hp; [|discriminate].
        injection Ht as <-. split; [cbn; now rewrite <- app_assoc|].
        apply readiness_coordinator; auto. now rewrite Htodo.
      - destruct (scorer_step i (p_shared p)) as [s'|] eqn:Hs; [|discriminate].
        injection Ht as <-. split; [exact HS | now apply readiness_scorer with (i := i)].
      - destruct (printer_step (p_shared p)) as [s'|] eqn:Hs; [|discriminate].
        injection Ht as <-. split; [exact HS | now apply readiness_printer]. }
    now apply IH.
Qed.

End Kept.

Lemma readiness_reachable (o : options) (w : world) (schedule : list process)
    (p : pipeline) :
  run schedule (launch o w) = Some p -> readiness (script (calls_of o w)) p.
Proof.
  apply readiness_run; [apply well_ordered_script | reflexivity|].
  apply readiness_boot.
Qed.

End Readiness.

(** ** How a run ends, and what the options reach *)
Section Outcome.
Context `{Collaborators}.

(** X6: a run that ends without an exception has deleted its temporary file, with
    one call of [os.remove], has read the input stream to its end, and leaves
    the header with the new field registered. *)
Theorem clean_exit_leaves_nothing (o : options) (w : world) :
  exception_of o w = None ->
  scratch_after o w = None
  /\ count_if is_remove (calls_of o w) = 1
  /\ remaining (stream_after o w) = []
  /\ head_after o w = registered w.
Proof.
  rewrite exception_of_expected, scratch_after_expected, head_after_expected,
    stream_after_expected, calls_of_expected.
  unfold expected_exception, expected_calls.
  destruct (s_seekable (w_variant_file w)); [|discriminate].
  destruct (w_remove_fails w); [discriminate|]. intros _.
  split; [reflexivity|]. split; [|split; [|reflexivity]].
  - rewrite !count_if_app.
    rewrite (count_if_none _ (calls_header w)) by forallb_segments.
    rewrite (count_if_none _ (calls_setup o w)) by forallb_segments.
    rewrite (count_if_none _ (calls_produce o w)) by forallb_segments.
    rewrite (count_if_none _ calls_barrier) by reflexivity.
    rewrite (count_if_none _ (calls_epilogue w)) by reflexivity.
    unfold calls_output. rewrite !count_if_app.
    rewrite (count_if_none _ (map _ _)) by forallb_segments. reflexivity.
  - unfold remaining. cbn [s_pos s_lines]. apply drop_all.
Qed.

(** X7: a duration is logged only by a run that ends normally, and as its last
    call; it is the third reading of the clock minus the first.  The reading
    taken before [get_batches] is not used. *)
Theorem elapsed_time_reported (o : options) (w : world) (c : call) (d : Z) :
  In c (calls_of o w) -> reported_duration c = Some d ->
  d = (nth 2 (w_clock w) 0 - nth 0 (w_clock w) 0)%Z
  /\ count_if is_clock_reading (calls_of o w) = 3
  /\ exception_of o w = None
  /\ last (calls_of o w) = Some c.
Proof.
  intros Hin Hd.
  assert (Hall : forall l, forallb (fun c => match reported_duration c with
                                             | Some _ => false
                                             | None => true
                                             end) l = true -> In c l -> False).
  { intros l Hl Hc. rewrite forallb_forall in Hl. apply Hl in Hc.
    now rewrite Hd in Hc. }
  rewrite exception_of_expected, calls_of_expected.
  rewrite calls_of_expected in Hin.
  unfold expected_exception, expected_calls. unfold expected_calls in Hin.
  destruct (s_seekable (w_variant_file w)).
  2:{ exfalso. revert Hin. rewrite app_nil_r. apply Hall. forallb_segments. }
  destruct (w_remove_fails w).
  { exfalso. revert Hin. rewrite app_nil_r, !app_assoc, <- !app_assoc.
    apply Hall. forallb_segments. }
  assert (Hc : c = E_log INFO "Time for whole analyis: {0}"
                     [VTimedelta (nth 2 (w_clock w) 0%Z - nth 0 (w_clock w) 0%Z)]).
  { rewrite !in_app_iff in Hin.
    destruct Hin as [Hin|[Hin|[Hin|[Hin|[Hin|Hin]]]]];
      try solve [exfalso; revert Hin; apply Hall; forallb_segments].
    unfold calls_epilogue in Hin. cbn [In] in Hin.
    destruct Hin as [<-|[<-|[<-|[]]]]; try discriminate Hd. reflexivity. }
  subst c. cbn [reported_duration] in Hd. injection Hd as <-.
  split; [reflexivity|]. split; [|split; [reflexivity|]].
  - rewrite !count_if_app.
    rewrite (count_if_none _ (calls_setup o w)) by forallb_segments.
    rewrite (count_if_none _ calls_barrier) by reflexivity.
    rewrite (count_if_none _ (calls_output o w)) by forallb_segments.
    unfold calls_header, calls_produce. rewrite !count_if_app.
    rewrite (count_if_none _ (header_calls _)) by forallb_segments.
    rewrite (count_if_none _ (repeat _ _)) by forallb_segments. reflexivity.
  - unfold calls_epilogue.
    change [?a; ?b; ?x] with ([a; b] ++ [x]).
    rewrite !app_assoc. apply last_snoc.
Qed.



Lemma starts_count (o : options) (w : world) :
  count_if is_worker_start (calls_of o w)
  = if s_seekable (w_variant_file w) then Z.to_nat (processes o) else 0.
Proof.
  rewrite calls_of_expected. unfold expected_calls.
  destruct (s_seekable (w_variant_file w)).
  - rewrite !count_if_app.
    rewrite (count_if_none _ (calls_header w)) by forallb_segments.
    rewrite (count_if_none _ (calls_produce o w)) by forallb_segments.
    rewrite (count_if_none _ calls_barrier) by reflexivity.
    rewrite (count_if_none _ (calls_output o w)) by forallb_segments.
    rewrite (count_if_none _ (if w_remove_fails w then _ else _)) by forallb_segments.
    unfold calls_setup, calls_build. rewrite !count_if_app.
    rewrite (count_if_none _ (map _ _)) by forallb_segments.
    rewrite count_starts, length_range. cbn. lia.
  - rewrite app_nil_r. apply count_if_none. forallb_segments.
Qed.

(** X9: with the default of [--processes], [min(4, cpu_count())], a run builds at
    most four scorers and no more than the machine has processors, and at
    least one when the machine reports a processor. *)
Theorem default_pool_size (o : options) (w : world) :
  processes o = default_processes (w_cpu_count w) ->
  s_seekable (w_variant_file w) = true ->
  count_if is_creation (calls_of o w) <= 4
  /\ (Z.of_nat (count_if is_creation (calls_of o w)) <= Z.max 0 (w_cpu_count w))%Z
  /\ ((1 <= w_cpu_count w)%Z -> 1 <= count_if is_creation (calls_of o w))
  /\ count_if is_worker_start (calls_of o w) = count_if is_creation (calls_of o w)
  /\ count_if is_marker_put (calls_of o w) = count_if is_creation (calls_of o w).
Proof.
  intros Hp Hs. unfold default_processes in Hp.
  rewrite marker_puts_count, creations_count, Hs.
  split; [lia|]. split; [lia|]. split; [lia|]. split; [|reflexivity].
  now rewrite starts_count, Hs.
Qed.

End Outcome.

(** ** The pool and the first unit of work *)
Section Pool.
Context `{Collaborators}.

Lemma settled_no_creation (l : list op) : forallb settled l = true -> creations l = 0.
Proof.
  intros Hl. apply count_if_none. revert Hl. apply forallb_weaken.
  intros x. unfold settled. rewrite !andb_true_iff. tauto.
Qed.

Lemma settled_no_start (l : list op) :
  forallb settled l = true -> count_if is_start_op l = 0.
Proof.
  intros Hl. apply count_if_none. revert Hl. apply forallb_weaken.
  intros x. unfold settled. rewrite !andb_true_iff. tauto.
Qed.

Lemma count_if_zero {A} (f : A -> bool) (l : list A) :
  count_if f l = 0 -> Forall (fun x => f x = false) l.
Proof.
  unfold count_if. induction l as [|x l IH]; cbn; [constructor|].
  destruct (f x) eqn:Hx; [discriminate|]. constructor; auto.
Qed.

(** X10: nothing is in flight before the pool is complete: in a state where a
    queue holds an item, a batch is unacknowledged, the temporary file has a
    line or a scorer has taken something, the printer has been started, every
    scorer the command builds has been built, and each of them has been
    started. *)
Theorem pool_ready_before_work (o : options) (w : world)
    (schedule : list process) (p : pipeline) :
  run schedule (launch o w) = Some p ->
  sh_variant_queue (p_shared p) <> [] \/ sh_results (p_shared p) <> []
  \/ sh_store (p_shared p) <> [] \/ sh_unfinished (p_shared p) <> 0
  \/ forallb waiting (sh_scorers (p_shared p)) = false ->
  In (OCall E_variant_printer_start) (p_done p)
  /\ printer_live (sh_printer (p_shared p)) = true
  /\ length (sh_scorers (p_shared p)) = count_if is_creation (calls_of o w)
  /\ Forall (fun s => is_created s = false) (sh_scorers (p_shared p)).
Proof.
  intros Hrun Hbusy.
  pose proof (invariant_reachable o w schedule p Hrun) as I.
  pose proof (readiness_reachable o w schedule p Hrun) as R.
  assert (Hst : In (OCall E_variant_printer_start) (p_done p)).
  { destruct (rd_quiet _ p R) as [Hst | (Hq & Hr & Hs & Hu & Hw)]; [exact Hst|].
    exfalso. destruct Hbusy as [?|[?|[?|[?|?]]]]; congruence. }
  destruct (rd_printer _ p R Hst) as [Hlive Hset].
  pose proof (inv_script _ p I) as HS.
  pose proof (inv_created _ p I) as Hlen.
  assert (Hall : creations (p_done p) = count_if is_creation (calls_of o w)).
  { rewrite <- creations_script, <- HS, creations_app, (settled_no_creation _ Hset).
    lia. }
  split; [exact Hst|]. split; [exact Hlive|]. split; [congruence|].
  apply count_if_zero.
  pose proof (rd_created _ p R) as Hc.
  pose proof (wo_starts _ (well_ordered_script o w)) as Hstarts.
  rewrite <- HS, count_if_app, creations_app, (settled_no_start _ Hset),
    (settled_no_creation _ Hset) in Hstarts.
  lia.
Qed.

(** X11: with [--processes] zero or negative the command builds no scorer and
    puts no marker, and still calls [get_batches]: when the input gives at
    least one batch, [variant_queue.join()] never returns.  Whatever the
    schedule, the batches put so far are all still in the queue and the
    command has steps left. *)
Theorem no_worker_never_joins (o : options) (w : world)
    (schedule : list process) (p : pipeline) :
  (processes o <= 0)%Z -> s_seekable (w_variant_file w) = true ->
  batches_in (units_of o w) <> [] ->
  run schedule (launch o w) = Some p ->
  count_if is_creation (calls_of o w) = 0
  /\ count_if is_marker_put (calls_of o w) = 0
  /\ count_if is_get_batches (calls_of o w) = 1
  /\ sh_scorers (p_shared p) = []
  /\ sh_variant_queue (p_shared p) = future_puts (p_done p)
  /\ ~ In (OCall E_variant_queue_join) (p_done p)
  /\ In (OCall E_variant_queue_join) (p_todo p).
Proof.
  intros Hn Hs Hb Hrun.
  pose proof (invariant_reachable o w schedule p Hrun) as I.
  pose proof (readiness_reachable o w schedule p Hrun) as R.
  pose proof (inv_script _ p I) as HS.
  assert (Hcr : count_if is_creation (calls_of o w) = 0).
  { rewrite creations_count, Hs. lia. }
  assert (Hnil : sh_scorers (p_shared p) = []).
  { pose proof (inv_created _ p I) as Hlen.
    assert (creations (p_done p) = 0).
    { pose proof (creations_script (calls_of o w)) as E.
      rewrite <- HS, creations_app in E. lia. }
    destruct (sh_scorers (p_shared p)); [reflexivity | cbn in Hlen; lia]. }
  assert (Hnot : ~ In (OCall E_variant_queue_join) (p_done p)).
  { intros Hj. destruct (joined_all_exited _ p I Hj) as (_ & Hq & Hf & _).
    rewrite (rd_lonely _ p R Hnil) in Hq.
    pose proof (future_puts_seekable o w) as E.
    rewrite <- (script_seekable o w Hs), <- HS, future_puts_app, Hq, Hf in E.
    destruct (batches_in (units_of o w)); [congruence | discriminate E]. }
  split; [exact Hcr|]. split; [rewrite marker_puts_count, Hs; lia|].
  split; [|split; [exact Hnil|split; [exact (rd_lonely _ p R Hnil)|split; [exact Hnot|]]]].
  - rewrite calls_of_expected. unfold expected_calls. rewrite Hs, !count_if_app.
    rewrite (count_if_none _ (calls_header w)) by apply no_get_batches_header.
    rewrite (count_if_none _ (calls_setup o w)) by apply no_get_batches_setup.
    rewrite (count_if_none _ calls_barrier) by reflexivity.
    rewrite (count_if_none _ (calls_output o w)) by forallb_segments.
    rewrite (count_if_none _ (if w_remove_fails w then _ else _)) by forallb_segments.
    unfold calls_produce. rewrite count_if_app.
    rewrite (count_if_none _ (repeat _ _)) by apply no_get_batches_repeat.
    reflexivity.
  - assert (Hin : In (OCall E_variant_queue_join) (p_done p ++ p_todo p)).
    { rewrite HS, (script_seekable o w Hs), !in_app_iff. right. right. left.
      now left. }
    apply in_app_iff in Hin as [Hin|Hin]; [contradiction | exact Hin].
Qed.

End Pool.

(** ** The pipeline cannot get stuck *)
Section Staging.
Context `{Collaborators}.

Lemma filter_fmap {A B} (f : B -> bool) (g : A -> B) (l : list A) :
  List.filter f (map g l) = map g (List.filter (fun x => f (g x)) l).
Proof.
  induction l as [|x l IH]; [reflexivity|]. cbn.
  destruct (f (g x)); cbn; now rewrite IH.
Qed.

Lemma split_prefix {A} (Q : A -> bool) (a r d t : list A) (y : A) :
  a ++ r = d ++ y :: t ->
  forallb (fun z => negb (Q z)) a = true -> Q y = true ->
  exists d', d = a ++ d' /\ r = d' ++ y :: t.
Proof. intros E Ha Hy. now apply (split_after_prefix Q a r d t y). Qed.

Lemma well_staged_script (o : options) (w : world) :
  (1 <= processes o)%Z -> well_staged (script (calls_of o w)).
Proof.
  intros Hn. destruct (s_seekable (w_variant_file w)) eqn:Hs.
  - rewrite (script_seekable o w Hs).
    pose (head := map OCall
                    (calls_header w
                       ++ [E_add_metadata (parsed w) "info" "CorrectedRankScore" "1"
                             "Integer" "The corrected rank score for this variant.";
                           E_log DEBUG
                             "Setting up a JoinableQueue for storing variant batches" []])).
    pose (build := map OCall
                     ([E_log DEBUG
                         "Setting up a Queue for storing results from workers" [];
                       E_Manager_Queue; E_cpu_count;
                       E_log INFO "Number of CPU:s {}" [VInt (w_cpu_count w)];
                       E_log INFO "Number of model checkers: {}"
                         [VInt (processes o)];
                       E_log DEBUG "Build a tempfile for printing the variants" [];
                       E_NamedTemporaryFile false; E_temp_file_close;
                       E_log INFO "Seting up the workers" []]
                      ++ map (fun i => E_CompoundScorer i (individuals_attr (parsed w)))
                           (range (processes o))
                      ++ [E_log INFO "Starting the workers" []])).
    pose (starts := map OCall
                      (flat_map (fun i => [E_log DEBUG "Starting worker {0}"
                                             [VWorker i];
                                           E_worker_start i]) (range (processes o)))).
    pose (printer := map OCall
                       [E_log INFO "Starting the variant printer process" []]).
    pose (produce := map OCall
                       [E_datetime_now;
                        E_log INFO "Start parsing the variants" [];
                        E_get_batches (mkStream (s_lines (w_variant_file w)) 0 true)
                          (registered w) (vep o) true]
                     ++ ops_feed o w).
    assert (E : ops_before o w ++ ops_feed o w ++ ops_barrier ++ ops_after o w
                = head ++ [OCall (E_JoinableQueue 1000)] ++ build ++ starts
                  ++ [OCall (E_log INFO "Seting up the variant printer" []);
                      OCall (E_VariantPrinter (registered w) "chromosome"
                               (w_temp_name w))]
                  ++ printer ++ [OCall E_variant_printer_start] ++ produce
                  ++ [OCall E_variant_queue_join; OCall E_results_put_None]
                  ++ [OCall E_variant_printer_join] ++ ops_after o w).
    { unfold ops_before, ops_barrier, calls_barrier, head, build, starts, printer,
        produce, calls_setup, calls_build.
      rewrite !map_app, <- !app_assoc. reflexivity. }
    assert (Hcr : creations
                    (ops_before o w ++ ops_feed o w ++ ops_barrier ++ ops_after o w)
                  = Z.to_nat (processes o)) by apply creations_seekable.
    assert (Hhead : forall Q : op -> bool,
               (forall c, Q (OCall c) = true -> pipeline_activity c = true) ->
               forallb (fun x => negb (Q x)) head = true).
    { intros Q HQ. unfold head. rewrite forallb_fmap.
      apply forallb_forall. intros c Hc. specialize (HQ c).
      destruct (Q (OCall c)); [|reflexivity]. specialize (HQ eq_refl).
      assert (Hact : forallb (fun c => negb (pipeline_activity c))
                       (calls_header w
                          ++ [E_add_metadata (parsed w) "info" "CorrectedRankScore" "1"
                                "Integer" "The corrected rank score for this variant.";
                              E_log DEBUG
                                "Setting up a JoinableQueue for storing variant batches"
                                []]) = true) by forallb_segments.
      rewrite forallb_forall in Hact. apply Hact in Hc. now rewrite HQ in Hc. }
    assert (Hafter : forall Q : op -> bool,
               (forall x, calm x = true -> Q x = false) ->
               forallb (fun x => negb (Q x)) (ops_after o w) = true).
    { intros Q HQ. apply forallb_weaken with (f := calm); [|apply calm_after].
      intros x Hx. now rewrite (HQ x Hx). }
    constructor.
    + (* the queue is built before anything is put on it *)
      intros d y t Hd Hy. rewrite E in Hd. do 1 rewrite app_assoc in Hd.
      apply (split_prefix is_put_op) in Hd as (d' & -> & _); [| | exact Hy].
      * exists (OCall (E_JoinableQueue 1000)). split; [|reflexivity].
        apply in_app_iff; left. apply in_app_iff; right. now left.
      * rewrite forallb_app, Hhead; [reflexivity|].
        intros c. destruct c; cbn; congruence.
    + (* the printer is built before it is started *)
      intros d y t Hd Hy. rewrite E in Hd. do 4 rewrite app_assoc in Hd.
      apply (split_prefix is_printer_start_op) in Hd as (d' & -> & _);
        [| | exact Hy].
      * exists (OCall (E_VariantPrinter (registered w) "chromosome" (w_temp_name w))).
        split; [|reflexivity].
        apply in_app_iff; left. apply in_app_iff; right. cbn. auto.
      * rewrite !forallb_app, Hhead by (intros c; destruct c; cbn; congruence).
        unfold build, starts. forallb_segments.
    + (* it is started once *)
      rewrite E, !count_if_app.
      rewrite (count_if_none _ head)
        by (apply Hhead; intros c; destruct c; cbn; congruence).
      rewrite (count_if_none _ build) by (unfold build; forallb_segments).
      rewrite (count_if_none _ starts) by (unfold starts; forallb_segments).
      rewrite (count_if_none _ produce) by (unfold produce; forallb_segments).
      rewrite (count_if_none _ (ops_after o w))
        by (apply Hafter; intros [c|u]; [destruct c|]; cbn; congruence).
      cbn. lia.
    + (* the scorers are started in the order they were built in *)
      rewrite Hcr, E, !List.filter_app.
      rewrite (filter_none _ head)
        by (apply Hhead; intros c; destruct c; cbn; congruence).
      rewrite (filter_none _ build) by (unfold build; forallb_segments).
      rewrite (filter_none _ produce) by (unfold produce; forallb_segments).
      rewrite (filter_none _ (ops_after o w))
        by (apply Hafter; intros [c|u]; [destruct c|]; cbn; congruence).
      cbn [List.filter is_start_op is_worker_start app]. rewrite !app_nil_r.
      unfold starts. rewrite filter_fmap.
      change (fun x => is_start_op (OCall x)) with is_worker_start.
      rewrite filter_starts, map_map. reflexivity.
    + (* and only once all of them are built *)
      intros d y t Hd Hy. rewrite E in Hd. do 2 rewrite app_assoc in Hd.
      apply (split_prefix is_start_op) in Hd as (d' & _ & Hl); [| | exact Hy].
      * apply count_if_none. apply (forallb_suffix _ d' t y). rewrite <- Hl.
        rewrite !forallb_app.
        rewrite (Hafter creates)
          by (intros [c|u]; [destruct c|]; cbn; congruence).
        unfold starts, printer, produce. rewrite !andb_true_r.
        rewrite !andb_true_iff. repeat split; try reflexivity; forallb_segments.
      * rewrite !forallb_app, Hhead by (intros c; destruct c; cbn; congruence).
        unfold build. forallb_segments.
    + (* the barrier comes after the printer is started *)
      intros d y t Hd Hy. rewrite E in Hd. do 6 rewrite app_assoc in Hd.
      apply (split_prefix is_barrier_op) in Hd as (d' & -> & _); [| | exact Hy].
      * exists (OCall E_variant_printer_start). split; [|reflexivity].
        apply in_app_iff; left. apply in_app_iff; right. now left.
      * rewrite !forallb_app, Hhead by (intros c; destruct c; cbn; congruence).
        unfold build, starts, printer. forallb_segments.
    + (* the printer is joined after the terminal marker *)
      intros d y t Hd Hy. rewrite E in Hd. do 8 rewrite app_assoc in Hd.
      apply (split_prefix is_printer_join_op) in Hd as (d' & -> & _);
        [| | exact Hy].
      * exists (OCall E_results_put_None). split; [|reflexivity].
        apply in_app_iff; left. apply in_app_iff; right. cbn. auto.
      * rewrite !forallb_app, Hhead by (intros c; destruct c; cbn; congruence).
        unfold build, starts, printer, produce. forallb_segments.
    + left. rewrite Hcr. lia.
  - rewrite (script_unseekable o w Hs).
    assert (Hnone : forall (Q : op -> bool) d y t,
               forallb (fun x => negb (Q x)) (map OCall (calls_header w)) = true ->
               Q y = true -> map OCall (calls_header w) <> d ++ y :: t).
    { intros Q d y t HQ Hy. now apply (forallb_none Q). }
    constructor.
    + intros d y t E Hy. exfalso. revert E.
      apply (Hnone is_put_op); [forallb_segments | exact Hy].
    + intros d y t E Hy. exfalso. revert E.
      apply (Hnone is_printer_start_op); [forallb_segments | exact Hy].
    + rewrite count_if_none by forallb_segments. lia.
    + unfold creations. rewrite count_if_none by forallb_segments.
      apply filter_none. forallb_segments.
    + intros d y t E Hy. exfalso. revert E.
      apply (Hnone is_start_op); [forallb_segments | exact Hy].
    + intros d y t E Hy. exfalso. revert E.
      apply (Hnone is_barrier_op); [forallb_segments | exact Hy].
    + intros d y t E Hy. exfalso. revert E.
      apply (Hnone is_printer_join_op); [forallb_segments | exact Hy].
    + right. forallb_segments.
Qed.

End Staging.

Section Liveness.
Context `{Collaborators}.

Lemma perform_total (x : op) (s : shared) :
  can_block x = false -> exists s', perform x s = Some s'.
Proof. destruct x as [c|[b|r]]; [destruct c|..]; cbn; try discriminate; eauto. Qed.

Lemma perform_worker_start (i : nat) (s s' : shared) :
  perform (OCall (E_worker_start i)) s = Some s' ->
  exists individuals k,
    sh_scorers s !! i = Some (mkScorer Created individuals k)
    /\ sh_scorers s' = <[i := mkScorer Idle individuals k]> (sh_scorers s).
Proof.
  cbn. destruct (sh_scorers s !! i) as [[[] individuals k]|]; try discriminate.
  intros [= <-]. cbn. eauto.
Qed.

Lemma is_start_op_eq (x : op) :
  is_start_op x = true -> exists i, x = OCall (E_worker_start i).
Proof. destruct x as [c|u]; [destruct c|]; cbn; try discriminate. eauto. Qed.

Lemma roster_next (l1 l2 : list op) (x : op) (n : nat) :
  l1 ++ x :: l2 = map (fun j => OCall (E_worker_start j)) (seq 0 n) ->
  x = OCall (E_worker_start (length l1)).
Proof.
  intros E. pose proof (list_lookup_middle l1 l2 x (length l1) eq_refl) as Hx.
  rewrite E in Hx. change (map ?f ?l) with (f <$> l) in Hx.
  rewrite list_lookup_fmap in Hx.
  destruct (seq 0 n !! length l1) as [j|] eqn:Hj; [|discriminate].
  apply lookup_seq in Hj as [-> _]. now injection Hx as <-.
Qed.

(** The scorer the next [start] is called on is the first that has not been
    started. *)
Lemma next_start (S done rest : list op) (i : nat) :
  well_staged S -> done ++ OCall (E_worker_start i) :: rest = S ->
  i = count_if is_start_op done.
Proof.
  intros WS HS. pose proof (ws_roster S WS) as Hr.
  rewrite <- HS, List.filter_app in Hr. cbn [List.filter is_start_op is_worker_start] in Hr.
  apply roster_next in Hr. now injection Hr.
Qed.

Lemma count_if_In {A} (f : A -> bool) (l : list A) (x : A) :
  In x l -> f x = true -> count_if f l <> 0.
Proof.
  intros Hx Hf. apply in_split in Hx as (l1 & l2 & ->).
  rewrite count_if_app, count_if_cons, Hf. cbn. lia.
Qed.

Lemma count_lt_lookup {A} (f : A -> bool) (l : list A) :
  count_if f l < length l -> exists i x, l !! i = Some x /\ f x = false.
Proof.
  induction l as [|a l IH]; [cbn; lia|]. rewrite count_if_cons. cbn [length].
  destruct (f a) eqn:Ha; cbn [Nat.b2n].
  - intros Hlt. destruct IH as (i & x & Hi & Hx); [lia|]. now exists (S i), x.
  - intros _. now exists 0, a.
Qed.

Lemma count_pos_lookup {A} (f : A -> bool) (l : list A) :
  count_if f l <> 0 -> exists i x, l !! i = Some x /\ f x = true.
Proof.
  induction l as [|a l IH]; [now cbn|]. rewrite count_if_cons.
  destruct (f a) eqn:Ha; cbn [Nat.b2n].
  - intros _. now exists 0, a.
  - intros Hlt. destruct IH as (i & x & Hi & Hx); [lia|]. now exists (S i), x.
Qed.

Lemma all_markers_counted (q : list (option batch)) :
  Forall (fun x => x = None) q -> count_if is_marker q = length q.
Proof.
  induction 1 as [|x q -> _ IH]; [reflexivity|]. rewrite count_if_cons, IH. reflexivity.
Qed.

Section Preserved.
Variable S : list op.
Hypothesis WF : well_formed S.
Hypothesis WO : well_ordered S.
Hypothesis WS : well_staged S.

Lemma liveness_boot : liveness S (boot S).
Proof.
  constructor; cbn; try tauto; try lia.
  intros j s _ Hl. discriminate Hl.
Qed.

(** Once the printer is started, the pool is complete. *)
Lemma pool_complete (p : pipeline) :
  invariant S p -> readiness S p ->
  In (OCall E_variant_printer_start) (p_done p) ->
  length (sh_scorers (p_shared p)) = creations S
  /\ count_if is_created (sh_scorers (p_shared p)) = 0
  /\ creations (p_todo p) = 0.
Proof.
  intros I R Hst. destruct (rd_printer _ p R Hst) as [_ Hset].
  pose proof (inv_script _ p I) as HS.
  pose proof (inv_created _ p I) as Hlen.
  pose proof (rd_created _ p R) as Hc.
  pose proof (wo_starts _ WO) as Hstarts.
  rewrite <- HS, count_if_app, creations_app, (settled_no_start _ Hset),
    (settled_no_creation _ Hset) in Hstarts.
  rewrite <- HS, creations_app, (settled_no_creation _ Hset).
  lia.
Qed.

Lemma liveness_coordinator (p : pipeline) (x : op) (rest : list op) (s' : shared) :
  invariant S p -> readiness S p -> liveness S p ->
  p_todo p = x :: rest -> perform x (p_shared p) = Some s' ->
  liveness S (mkPipeline (p_done p ++ [x]) rest s').
Proof.
  intros I R L Htodo Hp.
  pose proof (inv_script _ p I) as HS. rewrite Htodo in HS.
  pose proof (perform_scorers _ _ _ Hp) as Hsc.
  constructor; cbn [p_done p_todo p_shared].
  - intros Hnone. rewrite (perform_maxsize _ _ _ Hp) in Hnone.
    rewrite count_if_snoc.
    destruct x as [c|u]; [destruct c|]; cbn in Hnone |- *; try discriminate Hnone;
      rewrite (lv_maxsize S p L Hnone); reflexivity.
  - intros Hst Hb. rewrite count_if_snoc in Hst, Hb.
    destruct (is_printer_start_op x) eqn:Hsx; [cbn in Hst; lia|].
    destruct (is_printer_build_op x) eqn:Hbx.
    + destruct x as [c|u]; [destruct c|]; try discriminate Hbx.
      cbn in Hp. injection Hp as <-. cbn. eauto.
    + rewrite (perform_printer_frame _ _ _ Hp Hbx Hsx).
      apply (lv_printer S p L); cbn in Hst, Hb; lia.
  - intros j s Hj Hl. rewrite count_if_snoc in Hj.
    destruct (creates x) eqn:Hcr.
    + destruct Hsc as [individuals E]. rewrite E in Hl.
      apply lookup_app_Some in Hl as [Hl | [_ Hl]].
      * apply (lv_roster S p L j s); [lia | exact Hl].
      * apply list_lookup_singleton_Some in Hl as [_ <-]. reflexivity.
    + destruct (is_start_op x) eqn:Hsx.
      * destruct (is_start_op_eq x Hsx) as [i ->].
        pose proof (next_start S _ _ _ WS HS) as ->.
        destruct (perform_worker_start _ _ _ Hp) as (individuals & k & _ & E).
        cbn in Hj. rewrite E, list_lookup_insert_ne in Hl by lia.
        apply (lv_roster S p L j s); [lia | exact Hl].
      * rewrite (perform_not_start _ _ _ Hp Hsx Hcr) in Hl. cbn in Hj.
        apply (lv_roster S p L j s); [lia | exact Hl].
  - intros Hcnt. destruct (perform_queue _ _ _ Hp) as (Hq & _).
    rewrite Hq, <- app_assoc.
    change (puts x ++ future_puts rest) with (future_puts (x :: rest)).
    rewrite <- Htodo. apply (lv_drained S p L).
    destruct (creates x) eqn:Hcr.
    + destruct Hsc as [individuals E]. rewrite E, !count_if_snoc in Hcnt.
      cbn in Hcnt. lia.
    + destruct Hsc as [E | (i & individuals & k & Hi & E)]; rewrite E in Hcnt;
        [exact Hcnt|].
      pose proof (count_if_insert has_exited _ i _ (mkScorer Idle individuals k) Hi).
      pose proof (count_if_insert is_marked _ i _ (mkScorer Idle individuals k) Hi).
      cbn in *. lia.
  - intros Hin Hrun. rewrite (perform_results _ _ _ Hp).
    apply in_app_iff in Hin as [Hin | [Hx | []]].
    + destruct (done_preceded S is_printer_start_op works p _
                  (inv_script _ p I) (wo_printer_first S WO) Hin eq_refl)
        as (y & Hy & Hys).
      rewrite (is_printer_start_op_eq y Hys) in Hy.
      destruct (rd_printer S p R Hy) as [_ Hset]. rewrite Htodo in Hset.
      cbn in Hset. apply andb_true_iff in Hset as [Hx _].
      unfold settled in Hx. rewrite !andb_true_iff, !negb_true_iff in Hx.
      destruct Hx as [[[_ _] Hb] Hs].
      rewrite (perform_printer_frame _ _ _ Hp Hb Hs) in Hrun.
      apply in_app_iff. left. now apply (lv_results S p L).
    + subst x. apply in_app_iff. right. now left.
Qed.

Lemma liveness_scorer (p : pipeline) (i : nat) (s' : shared) :
  invariant S p -> liveness S p -> scorer_step i (p_shared p) = Some s' ->
  liveness S (mkPipeline (p_done p) (p_todo p) s').
Proof.
  intros I L Hstep. apply scorer_step_move in Hstep.
  assert (Hroster : forall pc individuals k y j s,
             sh_scorers (p_shared p) !! i = Some (mkScorer pc individuals k) ->
             pc <> Created ->
             count_if is_start_op (p_done p) <= j ->
             <[i := y]> (sh_scorers (p_shared p)) !! j = Some s ->
             sc_pc s = Created).
  { intros pc individuals k y j s Hi Hpc Hj Hl.
    destruct (decide (i = j)) as [->|Hne].
    - pose proof (lv_roster S p L j _ Hj Hi). contradiction.
    - rewrite list_lookup_insert_ne in Hl by exact Hne.
      now apply (lv_roster S p L j s). }
  assert (Hsame : forall x y,
             sh_scorers (p_shared p) !! i = Some x ->
             count_if has_exited (<[i := y]> (sh_scorers (p_shared p)))
             + count_if is_marked (<[i := y]> (sh_scorers (p_shared p))) <> 0 ->
             Nat.b2n (has_exited x) + Nat.b2n (is_marked x)
             = Nat.b2n (has_exited y) + Nat.b2n (is_marked y) ->
             count_if has_exited (sh_scorers (p_shared p))
             + count_if is_marked (sh_scorers (p_shared p)) <> 0).
  { intros x y Hi Hcnt Hxy.
    pose proof (count_if_insert has_exited _ i x y Hi).
    pose proof (count_if_insert is_marked _ i x y Hi). lia. }
  destruct Hstep as [ind k b q Hi Hq ->|ind k q Hi Hq ->|ind k b Hi ->
                    |ind k n Hi Hn ->|ind k n Hi Hn ->];
    (constructor; cbn [p_done p_todo p_shared sh_maxsize sh_variant_queue
                         sh_unfinished sh_results sh_scorers sh_printer sh_store];
     [ exact (lv_maxsize S p L)
     | exact (lv_printer S p L)
     | intros j s; apply (Hroster _ _ _ _ j s Hi); discriminate
     |
     | intros Hin Hrun; try (apply in_app_iff; left);
       now apply (lv_results S p L) ]).
  - intros Hcnt. apply (Hsame _ _ Hi) in Hcnt; [|reflexivity].
    apply (lv_drained S p L) in Hcnt. rewrite Hq in Hcnt.
    inversion Hcnt. discriminate.
  - intros _. pose proof (inv_fifo S p I) as Hf. rewrite Hq in Hf. exact Hf.
  - intros Hcnt. apply (Hsame _ _ Hi) in Hcnt; [|reflexivity]. now apply (lv_drained S p L).
  - intros Hcnt. apply (Hsame _ _ Hi) in Hcnt; [|reflexivity]. now apply (lv_drained S p L).
  - intros Hcnt. apply (Hsame _ _ Hi) in Hcnt; [|reflexivity]. now apply (lv_drained S p L).
Qed.

Lemma liveness_printer (p : pipeline) (s' : shared) :
  liveness S p -> printer_step (p_shared p) = Some s' ->
  liveness S (mkPipeline (p_done p) (p_todo p) s').
Proof.
  intros L Hstep.
  apply printer_step_move in Hstep as (head & mode & x & q & Hp & Hq & ->).
  constructor; cbn [p_done p_todo p_shared sh_maxsize sh_variant_queue
                      sh_unfinished sh_results sh_scorers sh_printer sh_store].
  - exact (lv_maxsize S p L).
  - intros Hst Hb. destruct (lv_printer S p L Hst Hb) as (h & m & E).
    rewrite Hp in E. discriminate E.
  - exact (lv_roster S p L).
  - exact (lv_drained S p L).
  - intros Hin Hrun. destruct x as [r|]; [|discriminate Hrun].
    pose proof (lv_results S p L Hin) as HN. rewrite Hp, Hq in HN.
    destruct (HN eq_refl) as [HN'|HN']; [discriminate HN' | exact HN'].
Qed.

Lemma sound_boot : sound S (boot S).
Proof.
  split; [now apply invariant_boot|]. split; [now apply readiness_boot|].
  apply liveness_boot.
Qed.

Lemma sound_exec (t : process) (p p' : pipeline) :
  sound S p -> exec t p = Some p' -> sound S p'.
Proof.
  intros (I & R & L) Ht.
  split; [now apply (invariant_exec S WF t p)|].
  pose proof (inv_script _ p I) as HS.
  destruct t as [|i|]; cbn in Ht.
  - destruct (p_todo p) as [|x rest] eqn:Htodo; [discriminate|].
    destruct (perform x (p_shared p)) as [s'|] eqn:Hp; [|discriminate].
    injection Ht as <-. split.
    + apply readiness_coordinator; auto. now rewrite Htodo.
    + now apply liveness_coordinator.
  - destruct (scorer_step i (p_shared p)) as [s'|] eqn:Hs; [|discriminate].
    injection Ht as <-. split.
    + now apply readiness_scorer with (i := i).
    + now apply liveness_scorer with (i := i).
  - destruct (printer_step (p_shared p)) as [s'|] eqn:Hs; [|discriminate].
    injection Ht as <-. split.
    + now apply readiness_printer.
    + now apply liveness_printer.
Qed.

Lemma sound_run (schedule : list process) (p p' : pipeline) :
  sound S p -> run schedule p = Some p' -> sound S p'.
Proof.
  revert p. induction schedule as [|t schedule IH]; intros p Hp; cbn.
  - now intros [= <-].
  - destruct (exec t p) as [p1|] eqn:Ht; [|discriminate].
    apply IH. now apply (sound_exec t p).
Qed.

End Preserved.
End Liveness.

Section Progress.
Context `{Collaborators}.

(** A scorer that holds an item, or that waits while the queue has one, can
    take a step. *)
Lemma scorer_can_step (s : shared) (i : nat) (sc : scorer) :
  sh_scorers s !! i = Some sc ->
  is_created sc = false -> has_exited sc = false ->
  (holding sc = false -> sh_variant_queue s <> []) ->
  (holding sc = true -> sh_unfinished s <> 0) ->
  exists s', scorer_step i s = Some s'.
Proof.
  intros Hi Hc He Hq Hu. unfold scorer_step. rewrite Hi.
  destruct sc as [pc individuals k].
  destruct pc; cbn in Hc, He, Hq, Hu |- *; try discriminate.
  - destruct (sh_variant_queue s) as [|[b|] q]; [now destruct Hq | eauto | eauto].
  - eauto.
  - unfold task_done. destruct (sh_unfinished s); [now destruct Hu | cbn; eauto].
  - unfold task_done. destruct (sh_unfinished s); [now destruct Hu | cbn; eauto].
Qed.

Section Moves.
Variable S : list op.
Hypothesis WF : well_formed S.
Hypothesis WO : well_ordered S.
Hypothesis WS : well_staged S.

(** While something is unacknowledged and the pool is complete, some scorer
    can take a step. *)
Lemma some_scorer_steps (p : pipeline) :
  sound S p -> 1 <= creations S ->
  In (OCall E_variant_printer_start) (p_done p) ->
  sh_unfinished (p_shared p) <> 0 ->
  exists i s', scorer_step i (p_shared p) = Some s'.
Proof.
  intros (I & R & L) Hpool Hst Hun.
  destruct (pool_complete S WO p I R Hst) as (Hlen & Hcreated & Htodo).
  pose proof (inv_unfinished S p I) as Hu.
  pose proof (count_if_zero _ _ Hcreated) as Hnc.
  destruct (Nat.eq_dec (count_if holding (sh_scorers (p_shared p))) 0) as [Hh|Hh].
  - (* nothing is held: an item is in the queue, and some scorer waits *)
    assert (Hq : sh_variant_queue (p_shared p) <> []).
    { intros E. rewrite E in Hu. cbn in Hu. lia. }
    assert (Hlt : count_if has_exited (sh_scorers (p_shared p))
                  < length (sh_scorers (p_shared p))).
    { pose proof (count_if_le_length has_exited (sh_scorers (p_shared p))) as Hle.
      destruct (Nat.eq_dec (count_if has_exited (sh_scorers (p_shared p)))
                  (length (sh_scorers (p_shared p)))) as [Hall|]; [|lia].
      exfalso. apply Hq.
      pose proof (inv_count S p I) as Hc. rewrite Htodo in Hc.
      assert (Hdr : Forall (fun x => x = None)
                      (sh_variant_queue (p_shared p) ++ future_puts (p_todo p)))
        by (apply (lv_drained S p L); lia).
      rewrite (all_markers_counted _ Hdr), length_app in Hc.
      destruct (sh_variant_queue (p_shared p)); [reflexivity | cbn in Hc; lia]. }
    destruct (count_lt_lookup _ _ Hlt) as (i & sc & Hi & He).
    exists i. apply (scorer_can_step _ i sc Hi).
    + exact (Forall_lookup_1 _ _ _ _ Hnc Hi).
    + exact He.
    + intros _. exact Hq.
    + intros Hhold. exfalso.
      pose proof (count_if_zero _ _ Hh) as Hnh.
      pose proof (Forall_lookup_1 _ _ _ _ Hnh Hi) as Hf. cbn in Hf. congruence.
  - destruct (count_pos_lookup _ _ Hh) as (i & sc & Hi & Hhold).
    exists i. apply (scorer_can_step _ i sc Hi).
    + exact (Forall_lookup_1 _ _ _ _ Hnc Hi).
    + unfold holding in Hhold. unfold has_exited. destruct (sc_pc sc); congruence.
    + congruence.
    + intros _. exact Hun.
Qed.

Lemma put_or_scorer (p : pipeline) (x : op) (rest : list op) :
  sound S p -> 1 <= creations S -> p_todo p = x :: rest ->
  is_put_op x = true -> works x = true ->
  (forall s, perform x s = enqueue (hd None (puts x)) s) ->
  exists t p', exec t p = Some p'.
Proof.
  intros Hp Hpool Htodo Hput Hworks Hperf.
  pose proof Hp as (I & R & L).
  pose proof (inv_script S p I) as HS. rewrite Htodo in HS.
  destruct (ws_queue S WS (p_done p) x rest (eq_sym HS) Hput) as (y & Hy & Hyq).
  destruct (wo_printer_first S WO (p_done p) x rest (eq_sym HS) Hworks)
    as (z & Hz & Hzs).
  rewrite (is_printer_start_op_eq z Hzs) in Hz.
  destruct (sh_maxsize (p_shared p)) as [m|] eqn:Hm.
  2:{ exfalso. apply (count_if_In _ _ _ Hy Hyq). now apply (lv_maxsize S p L). }
  destruct (has_room m (sh_variant_queue (p_shared p))) eqn:Hroom.
  - exists Coordinator. cbn. rewrite Htodo, Hperf. unfold enqueue.
    rewrite Hm, Hroom. cbn. eauto.
  - destruct (some_scorer_steps p Hp Hpool Hz) as (i & s' & Hs).
    + pose proof (inv_unfinished S p I) as Hu.
      pose proof (inv_maxsize S p I) as Hmax. rewrite Hm in Hmax.
      destruct Hmax as [-> _]. unfold has_room in Hroom.
      destruct (sh_variant_queue (p_shared p)); [discriminate Hroom | cbn in Hu; lia].
    + exists (Scorer i). cbn. rewrite Hs. cbn. eauto.
Qed.

(** While the coordinator has steps left, some process can take a step. *)
Lemma progress (p : pipeline) :
  sound S p -> p_todo p <> [] -> exists t p', exec t p = Some p'.
Proof.
  intros Hp Hne. pose proof Hp as (I & R & L).
  destruct (p_todo p) as [|x rest] eqn:Htodo; [contradiction|].
  pose proof (inv_script S p I) as HS. rewrite Htodo in HS.
  destruct (can_block x) eqn:Hb.
  2:{ destruct (perform_total x (p_shared p) Hb) as [s' Hs'].
      exists Coordinator. cbn. rewrite Htodo, Hs'. cbn. eauto. }
  destruct (ws_pool S WS) as [Hpool|Hnone].
  2:{ exfalso. rewrite forallb_forall in Hnone.
      assert (Hx : In x S) by (rewrite <- HS, in_app_iff; right; now left).
      apply Hnone in Hx. now rewrite Hb in Hx. }
  destruct x as [c|[b|r]]; [destruct c|..]; try discriminate Hb.
  - (* worker.start() *)
    pose proof (next_start S _ _ _ WS HS) as ->.
    assert (Hlt : count_if is_start_op (p_done p) < length (sh_scorers (p_shared p))).
    { pose proof (ws_built S WS (p_done p) _ rest (eq_sym HS) eq_refl) as Hrest.
      pose proof (wo_starts S WO) as Hst.
      pose proof (inv_created S p I) as Hlen.
      rewrite <- HS, count_if_app, creations_app in Hst.
      rewrite count_if_cons in Hst. unfold creations in Hst at 2.
      rewrite count_if_cons in Hst. fold (creations rest) in Hst.
      cbn in Hst. lia. }
    apply lookup_lt_is_Some_2 in Hlt as [[pc individuals k] Hi].
    pose proof (lv_roster S p L _ _ (Nat.le_refl _) Hi) as Hpc. cbn in Hpc. subst pc.
    exists Coordinator. cbn. rewrite Htodo. cbn. rewrite Hi. cbn. eauto.
  - (* variant_printer.start() *)
    destruct (ws_printer_built S WS (p_done p) _ rest (eq_sym HS) eq_refl)
      as (y & Hy & Hyb).
    pose proof (ws_printer_once S WS) as Honce.
    rewrite <- HS, count_if_app, count_if_cons in Honce. cbn in Honce.
    destruct (lv_printer S p L) as (head & mode & Hpr);
      [lia | now apply (count_if_In _ _ y) |].
    exists Coordinator. cbn. rewrite Htodo. cbn. rewrite Hpr. cbn. eauto.
  - (* variant_queue.put(None) *)
    apply (put_or_scorer p _ rest Hp Hpool Htodo);
      [reflexivity | reflexivity | intros; reflexivity].
  - (* variant_queue.join() *)
    destruct (sh_unfinished (p_shared p)) as [|n] eqn:Hu.
    + exists Coordinator. cbn. rewrite Htodo. cbn. rewrite Hu. cbn. eauto.
    + destruct (ws_started S WS (p_done p) _ rest (eq_sym HS) eq_refl)
        as (z & Hz & Hzs).
      rewrite (is_printer_start_op_eq z Hzs) in Hz.
      destruct (some_scorer_steps p Hp Hpool Hz) as (i & s' & Hs); [lia|].
      exists (Scorer i). cbn. rewrite Hs. cbn. eauto.
  - (* variant_printer.join() *)
    destruct (ws_started S WS (p_done p) _ rest (eq_sym HS) eq_refl)
      as (z & Hz & Hzs).
    rewrite (is_printer_start_op_eq z Hzs) in Hz.
    destruct (ws_marker S WS (p_done p) _ rest (eq_sym HS) eq_refl)
      as (y & Hy & Hym).
    rewrite (is_results_marker_op_eq y Hym) in Hy.
    destruct (rd_printer S p R Hz) as [Hlive _].
    pose proof (lv_results S p L Hy) as Hres.
    destruct (sh_printer (p_shared p)) as [| | head mode |] eqn:Hpr;
      try discriminate Hlive.
    + specialize (Hres eq_refl).
      exists Printer. cbn. unfold printer_step. rewrite Hpr.
      destruct (sh_results (p_shared p)) as [|[r|] q]; [destruct Hres | |];
        cbn; eauto.
    + exists Coordinator. cbn. rewrite Htodo. cbn. rewrite Hpr. cbn. eauto.
  - (* a put of get_batches *)
    apply (put_or_scorer p _ rest Hp Hpool Htodo);
      [reflexivity | reflexivity | intros; reflexivity].
Qed.

End Moves.

Lemma load_snoc (l : list scorer) (x : scorer) : load (l ++ [x]) = load l + weight x.
Proof. unfold load. rewrite map_app, list_sum_app. cbn. lia. Qed.

Lemma load_insert (l : list scorer) (i : nat) (x y : scorer) :
  l !! i = Some x -> load (<[i := y]> l) + weight x = load l + weight y.
Proof.
  intros Hi. rewrite insert_take_drop by (eapply lookup_lt_Some; eauto).
  rewrite <- (take_drop_middle l i x Hi) at 3.
  unfold load. rewrite !map_app, !list_sum_app. cbn. lia.
Qed.

(** Every step of every process brings the pipeline closer to its end. *)
Lemma effort_exec (t : process) (p p' : pipeline) :
  exec t p = Some p' -> effort p' < effort p.
Proof.
  unfold effort. destruct t as [|i|]; cbn.
  - destruct (p_todo p) as [|x rest] eqn:Htodo; [discriminate|].
    destruct (perform x (p_shared p)) as [s'|] eqn:Hp; [|discriminate].
    intros [= <-]. cbn [p_todo p_shared length].
    destruct (perform_queue _ _ _ Hp) as (Hq & _).
    pose proof (perform_results _ _ _ Hp) as Hr.
    pose proof (perform_scorers _ _ _ Hp) as Hsc.
    assert (Hload : load (sh_scorers s') = load (sh_scorers (p_shared p))).
    { destruct (creates x).
      - destruct Hsc as [individuals ->]. rewrite load_snoc. cbn. lia.
      - destruct Hsc as [-> | (j & individuals & k & Hj & ->)]; [reflexivity|].
        pose proof (load_insert _ j _ (mkScorer Idle individuals k) Hj) as E.
        cbn in E. lia. }
    rewrite Hq, Hr, Hload, !length_app.
    destruct x as [c|[b|r]]; [destruct c|..]; cbn; lia.
  - destruct (scorer_step i (p_shared p)) as [s'|] eqn:Hs; [|discriminate].
    intros [= <-]. cbn [p_todo p_shared].
    apply scorer_step_move in Hs.
    destruct Hs as [ind k b q Hi Hq ->|ind k q Hi Hq ->|ind k b Hi ->
                   |ind k n Hi Hn ->|ind k n Hi Hn ->];
      cbn [sh_variant_queue sh_results sh_scorers];
      match goal with
      | |- context [<[_ := ?y]> _] => pose proof (load_insert _ _ _ y Hi) as E
      end;
      rewrite ?Hq, ?length_app; cbn in E |- *; lia.
  - destruct (printer_step (p_shared p)) as [s'|] eqn:Hs; [|discriminate].
    intros [= <-]. cbn [p_todo p_shared].
    apply printer_step_move in Hs as (head & mode & x & q & _ & Hq & ->).
    cbn [sh_variant_queue sh_results sh_scorers]. rewrite Hq. cbn. lia.
Qed.

Lemma effort_run (schedule : list process) (p p' : pipeline) :
  run schedule p = Some p' -> length schedule + effort p' <= effort p.
Proof.
  revert p. induction schedule as [|t schedule IH]; intros p; cbn [run length].
  - intros [= <-]. lia.
  - destruct (exec t p) as [p1|] eqn:Ht; [|discriminate].
    intros Hrun. apply IH in Hrun. apply effort_exec in Ht. lia.
Qed.

Lemma sound_launch (o : options) (w : world) :
  (1 <= processes o)%Z -> sound (script (calls_of o w)) (launch o w).
Proof. intros Hn. apply sound_boot. apply well_formed_script. Qed.

(** X12: with at least one scorer the pipeline cannot get stuck: in every state a
    run can reach, as long as the command has calls left to make, some
    process -- the coordinator, a scorer or the printer -- can take a step.
    No put on the bounded queue, no [join] and no [start] waits for ever. *)
Theorem pipeline_never_stuck (o : options) (w : world)
    (schedule : list process) (p : pipeline) :
  (1 <= processes o)%Z ->
  run schedule (launch o w) = Some p -> p_todo p <> [] ->
  exists t p', exec t p = Some p'.
Proof.
  intros Hn Hrun Hne.
  apply (progress (script (calls_of o w))); auto.
  - apply well_ordered_script.
  - now apply well_staged_script.
  - apply (sound_run _ (well_formed_script o w) (well_ordered_script o w)
             (well_staged_script o w Hn) schedule (launch o w)); auto.
    now apply sound_launch.
Qed.

(** X13: with at least one scorer every run of the pipeline ends, and it can
    always end with the command finished: no schedule is longer than the
    effort of the state it starts in, and from every state a run can reach
    some schedule leads to a state where the coordinator has made its last
    call. *)
Theorem pipeline_runs_to_completion (o : options) (w : world)
    (schedule : list process) (p : pipeline) :
  (1 <= processes o)%Z ->
  run schedule (launch o w) = Some p ->
  (forall more p', run more p = Some p' -> length more <= effort p)
  /\ exists rest p', run rest p = Some p' /\ p_todo p' = [].
Proof.
  intros Hn Hrun. split.
  - intros more p' Hmore. apply effort_run in Hmore. lia.
  - assert (Hp : sound (script (calls_of o w)) p).
    { apply (sound_run _ (well_formed_script o w) (well_ordered_script o w)
               (well_staged_script o w Hn) schedule (launch o w)); auto.
      now apply sound_launch. }
    clear Hrun. remember (effort p) as n eqn:En.
    revert p Hp En. induction n as [n IH] using lt_wf_ind. intros p Hp ->.
    destruct (p_todo p) as [|x todo] eqn:Htodo.
    + exists [], p. split; [reflexivity | exact Htodo].
    + destruct (progress (script (calls_of o w)) (well_ordered_script o w)
                  (well_staged_script o w Hn) p Hp) as (t & p1 & Ht);
        [rewrite Htodo; discriminate|].
      destruct (IH (effort p1) (effort_exec t p p1 Ht) p1) as (rest & p' & Hr & Hd);
        [|reflexivity|].
      * apply (sound_exec _ (well_formed_script o w) (well_ordered_script o w)
                 (well_staged_script o w Hn) t p); auto.
      * exists (t :: rest), p'. split; [cbn; now rewrite Ht | exact Hd].
Qed.

End Progress.

(** ** No unit of work is lost *)
Section Supply.
Context `{Collaborators}.

Lemma in_script (c : call) (l : list call) : In (OCall c) (script l) -> In c l.
Proof.
  induction l as [|c' l IH]; [intros []|].
  change (script (c' :: l)) with (expand c' ++ script l).
  intros [Hc | Hc]%in_app_iff; [left | right; auto].
  destruct c'; cbn in Hc; try (destruct Hc as [[= ->]|[]]; reflexivity).
  destruct Hc as [[= ->]|Hc]; [reflexivity|].
  apply in_map_iff in Hc as (u & [=] & _).
Qed.

Lemma count_script (Q : call -> bool) (l : list call) :
  count_if (fun x => match x with OCall c => Q c | OProduce _ => false end) (script l)
  = count_if Q l.
Proof.
  induction l as [|c l IH]; [reflexivity|].
  change (script (c :: l)) with (expand c ++ script l).
  rewrite count_if_app, IH, (count_if_cons Q).
  assert (E : exists us, expand c = OCall c :: map OProduce us)
    by (destruct c; try (exists []; reflexivity); eexists; reflexivity).
  destruct E as [us ->].
  rewrite count_if_cons, (count_if_none _ (map _ _)); [lia|].
  rewrite forallb_fmap. now apply forallb_all.
Qed.

Lemma units_todo_app (a b : list op) : units_todo (a ++ b) = units_todo a ++ units_todo b.
Proof. apply flat_map_app. Qed.

Lemma units_todo_calls (l : list call) : units_todo (map OCall l) = [].
Proof. induction l as [|c l IH]; [reflexivity | exact IH]. Qed.

Lemma units_todo_units (us : list (batch + scored)) :
  units_todo (map OProduce us) = us.
Proof. induction us as [|u us IH]; [reflexivity | cbn; f_equal; exact IH]. Qed.

Lemma units_todo_calm (l : list op) : forallb calm l = true -> units_todo l = [].
Proof.
  induction l as [|x l IH]; [reflexivity|]. cbn [forallb].
  intros [Hx Hl]%andb_true_iff.
  change (units_todo (x :: l))
    with (match x with OProduce u => [u] | OCall _ => [] end ++ units_todo l).
  rewrite IH by exact Hl.
  destruct x; [reflexivity | discriminate Hx].
Qed.

Lemma units_script (o : options) (w : world) :
  units_todo (script (calls_of o w))
  = if s_seekable (w_variant_file w) then units_of o w else [].
Proof.
  destruct (s_seekable (w_variant_file w)) eqn:Hs.
  - rewrite (script_seekable o w Hs). unfold ops_before, ops_feed, ops_barrier, ops_after.
    rewrite !units_todo_app, !units_todo_calls, units_todo_units. cbn [app].
    now rewrite !app_nil_r.
  - rewrite (script_unseekable o w Hs). apply units_todo_calls.
Qed.

(** What a call is given, as far as the pipeline depends on it. *)
Lemma supplies (o : options) (w : world) (c : call) :
  In c (calls_of o w) ->
  match c with
  | E_CompoundScorer _ ind => ind = individuals_attr (parsed w)
  | E_VariantPrinter h m _ => h = registered w /\ m = "chromosome"
  | E_sort_variants _ m => m = "chromosome"
  | _ => True
  end.
Proof.
  intros Hin. rewrite calls_of_expected in Hin.
  assert (Hall : forall l,
             forallb (fun c => negb (is_creation c) && negb (is_sort c)
                               && negb (match c with
                                        | E_VariantPrinter _ _ _ => true
                                        | _ => false
                                        end)) l = true ->
             In c l ->
             match c with
             | E_CompoundScorer _ ind => ind = individuals_attr (parsed w)
             | E_VariantPrinter h m _ => h = registered w /\ m = "chromosome"
             | E_sort_variants _ m => m = "chromosome"
             | _ => True
             end).
  { intros l Hl Hc. rewrite forallb_forall in Hl. apply Hl in Hc.
    destruct c; try exact I; discriminate Hc. }
  in_phases Hin;
    try (subst c; cbn; now auto);
    try (exfalso; exact Hin);
    try solve [revert Hin; apply Hall; forallb_segments].
  apply in_map_iff in Hin as (i & <- & _). reflexivity.
Qed.

Lemma well_supplied_script (o : options) (w : world) :
  well_supplied (individuals_attr (parsed w)) (registered w) "chromosome" "chromosome"
    (script (calls_of o w)).
Proof.
  constructor.
  - intros i ind Hin. exact (supplies o w _ (in_script _ _ Hin)).
  - intros h m f Hin. exact (supplies o w _ (in_script _ _ Hin)).
  - intros f m Hin. exact (supplies o w _ (in_script _ _ Hin)).
  - change is_sort_op
      with (fun x => match x with OCall c => is_sort c | OProduce _ => false end).
    rewrite count_script, calls_of_expected. unfold expected_calls.
    rewrite count_if_app, (count_if_none _ (calls_header w)) by forallb_segments.
    destruct (s_seekable (w_variant_file w)); [|cbn; lia].
    rewrite !count_if_app.
    rewrite (count_if_none _ (calls_setup o w)) by forallb_segments.
    rewrite (count_if_none _ (calls_produce o w)) by forallb_segments.
    rewrite (count_if_none _ calls_barrier) by reflexivity.
    rewrite (count_if_none _ (if w_remove_fails w then _ else _)) by forallb_segments.
    unfold calls_output. rewrite !count_if_app.
    rewrite (count_if_none _ (map _ _)) by forallb_segments. cbn. lia.
  - change is_results_marker_op
      with (fun x => match x with OCall c => is_results_marker c | OProduce _ => false end).
    rewrite count_script, results_marker_once.
    destruct (s_seekable (w_variant_file w)); lia.
Qed.

End Supply.

Section Conservation.
Context `{Collaborators}.

Lemma somes_app {A} (a b : list (option A)) : somes (a ++ b) = somes a ++ somes b.
Proof.
  induction a as [|[x|] a IH]; cbn; [reflexivity | now rewrite IH | exact IH].
Qed.

Lemma somes_Some {A} (l : list A) : somes (map Some l) = l.
Proof. induction l as [|x l IH]; cbn; [reflexivity | now rewrite IH]. Qed.

Lemma no_marker_all_some {A} (l : list (option A)) :
  ~ In None l -> exists rs, l = map Some rs.
Proof.
  induction l as [|[x|] l IH]; intros Hn.
  - now exists [].
  - destruct IH as [rs ->]; [intros Hl; apply Hn; now right|]. now exists (x :: rs).
  - destruct Hn. now left.
Qed.

Lemma existsb_snoc {A} (f : A -> bool) (l : list A) (x : A) :
  existsb f (l ++ [x]) = existsb f l || f x.
Proof. rewrite existsb_app. cbn. now rewrite orb_false_r. Qed.

Lemma existsb_count {A} (f : A -> bool) (l : list A) :
  existsb f l = true -> count_if f l <> 0.
Proof.
  intros (x & Hx & Hf)%existsb_exists. now apply (count_if_In f l x).
Qed.

Lemma marker_sent_In (l : list op) :
  marker_sent l = true -> In (OCall E_results_put_None) l.
Proof.
  intros (x & Hx & Hf)%existsb_exists.
  now rewrite <- (is_results_marker_op_eq x Hf).
Qed.

Lemma has_sorted_In (l : list op) :
  has_sorted l = true -> exists f m, In (OCall (E_sort_variants f m)) l.
Proof.
  intros (x & Hx & Hf)%existsb_exists.
  destruct x as [c|u]; [destruct c|]; try discriminate Hf. eauto.
Qed.

Lemma flat_map_insert {A B} (f : A -> list B) (l : list A) (i : nat) (x y : A) :
  l !! i = Some x ->
  Permutation (f x ++ flat_map f (<[i := y]> l)) (f y ++ flat_map f l).
Proof.
  intros Hi. rewrite insert_take_drop by (eapply lookup_lt_Some; eauto).
  rewrite <- (take_drop_middle l i x Hi) at 3.
  rewrite !flat_map_app. cbn [flat_map]. solve_Permutation.
Qed.

Lemma in_hand_exited (l : list scorer) :
  Forall (fun s => sc_pc s = Exited) l -> flat_map in_hand l = [].
Proof.
  induction 1 as [|s l Hs _ IH]; [reflexivity|]. cbn. rewrite IH.
  unfold in_hand. now rewrite Hs.
Qed.

(** What a step of the coordinator adds to a queue is what it takes from
    the units still to be produced. *)
Lemma step_units (inds : list string) (x : op) :
  somes (match x with
         | OCall E_results_put_None => [None]
         | OProduce (inr r) => [Some r]
         | _ => []
         end)
  ++ map (score inds) (somes (puts x))
  = map (result_of inds) (units_todo [x]).
Proof. destruct x as [c|[b|r]]; [destruct c|..]; reflexivity. Qed.

Lemma perform_in_hand (x : op) (s s' : shared) :
  perform x s = Some s' ->
  Permutation (flat_map in_hand (sh_scorers s')) (flat_map in_hand (sh_scorers s)).
Proof.
  intros Hp. pose proof (perform_scorers _ _ _ Hp) as Hsc.
  destruct (creates x).
  - destruct Hsc as [individuals ->]. rewrite flat_map_app. cbn.
    now rewrite app_nil_r.
  - destruct Hsc as [-> | (i & individuals & k & Hi & ->)]; [reflexivity|].
    exact (flat_map_insert in_hand _ i _ (mkScorer Idle individuals k) Hi).
Qed.

Lemma perform_individuals (inds : list string) (x : op) (s s' : shared) :
  perform x s = Some s' ->
  (forall i ind, x = OCall (E_CompoundScorer i ind) -> ind = inds) ->
  Forall (fun s => sc_individuals s = inds) (sh_scorers s) ->
  Forall (fun s => sc_individuals s = inds) (sh_scorers s').
Proof.
  intros Hp Hx Hall.
  destruct (is_start_op x) eqn:Hst.
  - destruct (perform_start _ _ _ Hp Hst) as (i & individuals & k & Hi & ->).
    apply Forall_insert_at; [exact Hall|].
    exact (Forall_lookup_1 _ _ _ _ Hall Hi).
  - destruct (creates x) eqn:Hcr.
    + destruct x as [c|u]; [destruct c|]; try discriminate Hcr.
      cbn in Hp. injection Hp as <-. cbn.
      apply Forall_app. split; [exact Hall|]. constructor; [|constructor].
      cbn. eapply Hx. reflexivity.
    + now rewrite (perform_not_start _ _ _ Hp Hst Hcr).
Qed.

Lemma perform_printer_args (head : header) (mode : string) (x : op) (s s' : shared) :
  perform x s = Some s' ->
  (forall h m f, x = OCall (E_VariantPrinter h m f) -> h = head /\ m = mode) ->
  match sh_printer s with
  | PrinterBuilt h m | PrinterRunning h m => h = head /\ m = mode
  | _ => True
  end ->
  match sh_printer s' with
  | PrinterBuilt h m | PrinterRunning h m => h = head /\ m = mode
  | _ => True
  end.
Proof.
  intros Hp Hx Hold.
  destruct (is_printer_build_op x) eqn:Hb.
  - destruct x as [c|u]; [destruct c|]; try discriminate Hb.
    cbn in Hp. injection Hp as <-. cbn. eapply Hx. reflexivity.
  - destruct (is_printer_start_op x) eqn:Hst.
    + rewrite (is_printer_start_op_eq x Hst) in Hp. cbn in Hp.
      destruct (sh_printer s); try discriminate Hp. injection Hp as <-. exact Hold.
    + now rewrite (perform_printer_frame _ _ _ Hp Hb Hst).
Qed.

End Conservation.

Section Carried.
Context `{Collaborators}.
Variable inds : list string.
Variable head : header.
Variables mode smode : string.
Variable S : list op.
Hypothesis WF : well_formed S.
Hypothesis WO : well_ordered S.
Hypothesis SP : well_supplied inds head mode smode S.

Lemma conserved_boot : conserved inds head mode smode S (boot S).
Proof.
  constructor; cbn; auto.
  exists []. split; reflexivity.
Qed.

Lemma conserved_coordinator (p : pipeline) (x : op) (rest : list op) (s' : shared) :
  invariant S p -> readiness S p -> conserved inds head mode smode S p ->
  p_todo p = x :: rest -> perform x (p_shared p) = Some s' ->
  conserved inds head mode smode S (mkPipeline (p_done p ++ [x]) rest s').
Proof.
  intros I R C Htodo Hp.
  pose proof (inv_script _ p I) as HS. rewrite Htodo in HS.
  assert (Hx : In x S) by (rewrite <- HS, in_app_iff; right; now left).
  constructor; cbn [p_done p_todo p_shared].
  - apply (perform_individuals inds x (p_shared p)); [exact Hp| |apply C].
    intros i ind ->. exact (sp_individuals _ _ _ _ _ SP i ind Hx).
  - apply (perform_printer_args head mode x (p_shared p)); [exact Hp| |apply C].
    intros h m f ->. exact (sp_printer _ _ _ _ _ SP h m f Hx).
  - pose proof (cv_tail _ _ _ _ _ _ C) as Ht.
    pose proof (perform_results _ _ _ Hp) as Hr.
    unfold marker_sent in *. rewrite existsb_snoc.
    destruct (is_results_marker_op x) eqn:Hm.
    + (* the terminal marker is put *)
      rewrite orb_true_r. right.
      apply is_results_marker_op_eq in Hm. subst x.
      assert (Hnone : existsb is_results_marker_op (p_done p) = false).
      { destruct (existsb is_results_marker_op (p_done p)) eqn:E; [|reflexivity].
        apply existsb_count in E. pose proof (sp_marker_once _ _ _ _ _ SP) as H1.
        rewrite <- HS, count_if_app, count_if_cons in H1. cbn in H1. lia. }
      rewrite Hnone in Ht. cbn in Hp. injection Hp as <-. cbn. split.
      * intros He.
        assert (Hin : In (OCall E_results_put_None) (p_done p))
          by (apply (inv_results _ p I); now right).
        apply (count_if_In is_results_marker_op) in Hin; [|reflexivity].
        destruct (existsb is_results_marker_op (p_done p)) eqn:E; [discriminate|].
        apply Hin. apply count_if_none. clear -E.
        induction (p_done p) as [|y l IH]; [reflexivity|]. cbn in E |- *.
        apply orb_false_iff in E as [-> E]. now rewrite IH.
      * destruct (no_marker_all_some _ Ht) as [rs ->]. now exists rs.
    + rewrite orb_false_r.
      destruct (existsb is_results_marker_op (p_done p)) eqn:Hsent.
      * (* after the marker nothing is added, and the printer is left alone *)
        pose proof (marker_sent_In _ Hsent) as Hin.
        pose proof (joined_before_results_marker S WF p I Hin) as Hj.
        destruct (inv_joined _ p I Hj) as [Hcalm _]. rewrite Htodo in Hcalm.
        cbn in Hcalm. apply andb_true_iff in Hcalm as [Hcx _].
        destruct (perform_calm _ _ _ Hp Hcx) as (-> & _).
        assert (Hres : sh_results s' = sh_results (p_shared p)).
        { rewrite Hr. destruct x as [c|u]; [destruct c|]; try discriminate;
            now rewrite app_nil_r. }
        now rewrite Hres.
      * intros Hn. rewrite Hr in Hn.
        apply in_app_iff in Hn as [Hn | Hn]; [now apply Ht|].
        destruct x as [c|[b|r]]; [destruct c|..]; cbn in Hn, Hm;
          try discriminate; destruct Hn as [[=]|[]] || destruct Hn.
  - destruct (cv_store _ _ _ _ _ _ C) as (rs & Hstore & Hperm).
    exists rs.
    destruct (perform_queue _ _ _ Hp) as (Hq & _).
    pose proof (perform_results _ _ _ Hp) as Hr.
    pose proof (perform_store _ _ _ Hp) as Hst.
    pose proof (perform_in_hand _ _ _ Hp) as Hh.
    split.
    + unfold has_sorted in *. rewrite existsb_snoc.
      destruct (is_sort_op x) eqn:Hsx.
      * rewrite orb_true_r.
        assert (Hnot : existsb is_sort_op (p_done p) = false).
        { destruct (existsb is_sort_op (p_done p)) eqn:E; [|reflexivity].
          apply existsb_count in E. pose proof (sp_sort_once _ _ _ _ _ SP) as H1.
          rewrite <- HS, count_if_app, count_if_cons, Hsx in H1. cbn in H1. lia. }
        rewrite Hnot in Hstore.
        destruct x as [c|u]; [destruct c|]; try discriminate Hsx.
        pose proof (sp_sort _ _ _ _ _ SP _ _ Hx) as ->.
        now rewrite Hst, Hstore.
      * rewrite orb_false_r, Hst, <- Hstore.
        destruct x as [c|u]; [destruct c|]; try reflexivity. discriminate Hsx.
    + rewrite Htodo in Hperm.
      rewrite (units_todo_app [x] rest : units_todo (x :: rest) = _) in Hperm.
      rewrite map_app, <- (step_units inds x) in Hperm.
      rewrite Hq, Hr, Hh, !somes_app, map_app. rewrite <- Hperm.
      solve_Permutation.
Qed.

Lemma conserved_scorer (p : pipeline) (i : nat) (s' : shared) :
  invariant S p -> conserved inds head mode smode S p ->
  scorer_step i (p_shared p) = Some s' ->
  conserved inds head mode smode S (mkPipeline (p_done p) (p_todo p) s').
Proof.
  intros I C Hstep. apply scorer_step_move in Hstep.
  pose proof (cv_individuals _ _ _ _ _ _ C) as Hind.
  pose proof (cv_tail _ _ _ _ _ _ C) as Ht.
  destruct (cv_store _ _ _ _ _ _ C) as (rs & Hstore & Hperm).
  assert (Hsame : forall pc ind k pc' k',
             sh_scorers (p_shared p) !! i = Some (mkScorer pc ind k) ->
             Forall (fun s => sc_individuals s = inds)
               (<[i := mkScorer pc' ind k']> (sh_scorers (p_shared p)))).
  { intros pc ind k pc' k' Hi. apply Forall_insert_at; [exact Hind|].
    exact (Forall_lookup_1 _ _ _ _ Hind Hi). }
  assert (Hbusy : forall pc ind k,
             sh_scorers (p_shared p) !! i = Some (mkScorer pc ind k) ->
             pc <> Exited -> marker_sent (p_done p) = false).
  { intros pc ind k Hi Hpc.
    destruct (marker_sent (p_done p)) eqn:Hsent; [|reflexivity]. exfalso.
    pose proof (marker_sent_In _ Hsent) as Hin.
    pose proof (joined_before_results_marker S WF p I Hin) as Hj.
    destruct (joined_all_exited S p I Hj) as (_ & _ & _ & Hall).
    destruct (Forall_lookup_1 _ _ _ _ Hall Hi) as [He _]. now apply Hpc. }
  destruct Hstep as [ind k b q Hi Hq ->|ind k q Hi Hq ->|ind k b Hi ->
                    |ind k n Hi Hn ->|ind k n Hi Hn ->];
    (constructor; cbn [p_done p_todo p_shared sh_maxsize sh_variant_queue
                         sh_unfinished sh_results sh_scorers sh_printer sh_store];
     [ exact (Hsame _ _ _ _ _ Hi)
     | exact (cv_printer _ _ _ _ _ _ C)
     |
     | exists rs; split; [exact Hstore|] ]);
    try exact Ht.
  - (* a batch is taken *)
    pose proof (flat_map_insert in_hand _ i _ (mkScorer (Scoring b) ind k) Hi) as Hh.
    pose proof (Forall_lookup_1 _ _ _ _ Hind Hi) as Hi'. cbn in Hi', Hh.
    unfold in_hand at 1 in Hh. cbn in Hh. subst ind.
    rewrite Hq in Hperm. cbn in Hperm. rewrite Hh, <- Hperm. solve_Permutation.
  - (* a marker is taken *)
    pose proof (flat_map_insert in_hand _ i _ (mkScorer Marked ind (Datatypes.S k)) Hi)
      as Hh.
    cbn in Hh. rewrite Hq in Hperm. cbn in Hperm. now rewrite Hh.
  - (* a result is pushed *)
    rewrite (Hbusy _ _ _ Hi) in Ht |- * by discriminate.
    intros [Hn | [[=]|[]]]%in_app_iff. now apply Ht.
  - pose proof (flat_map_insert in_hand _ i _ (mkScorer Acknowledging ind k) Hi) as Hh.
    pose proof (Forall_lookup_1 _ _ _ _ Hind Hi) as Hi'. cbn in Hi', Hh.
    unfold in_hand at 2 in Hh. cbn in Hh. subst ind.
    rewrite somes_app. cbn [somes]. rewrite <- Hperm, <- Hh. solve_Permutation.
  - pose proof (flat_map_insert in_hand _ i _ (mkScorer Idle ind k) Hi) as Hh.
    cbn in Hh. now rewrite Hh.
  - pose proof (flat_map_insert in_hand _ i _ (mkScorer Exited ind k) Hi) as Hh.
    cbn in Hh. now rewrite Hh.
Qed.

Lemma conserved_printer (p : pipeline) (s' : shared) :
  invariant S p -> conserved inds head mode smode S p ->
  printer_step (p_shared p) = Some s' ->
  conserved inds head mode smode S (mkPipeline (p_done p) (p_todo p) s').
Proof.
  intros I C Hstep.
  apply printer_step_move in Hstep as (h & m & x & q & Hp & Hq & ->).
  pose proof (cv_printer _ _ _ _ _ _ C) as Hargs. rewrite Hp in Hargs.
  destruct Hargs as [-> ->].
  pose proof (cv_tail _ _ _ _ _ _ C) as Ht. rewrite Hp, Hq in Ht.
  destruct (cv_store _ _ _ _ _ _ C) as (rs & Hstore & Hperm). rewrite Hq in Hperm.
  assert (Hunsorted : has_sorted (p_done p) = false).
  { destruct (has_sorted (p_done p)) eqn:E; [|reflexivity]. exfalso.
    destruct (has_sorted_In _ E) as (f & m & Hin).
    pose proof (printer_joined_before_sort S WF p f m I Hin) as Hj.
    pose proof (inv_printer _ p I Hj) as He. rewrite Hp in He. discriminate He. }
  rewrite Hunsorted in Hstore.
  constructor; cbn [p_done p_todo p_shared sh_maxsize sh_variant_queue
                      sh_unfinished sh_results sh_scorers sh_printer sh_store].
  - exact (cv_individuals _ _ _ _ _ _ C).
  - rewrite Hp. destruct x; [split; reflexivity | exact Logic.I].
  - destruct (marker_sent (p_done p)).
    + destruct Ht as [[[=] _] | [_ [rs' E]]].
      destruct x as [r|].
      * right. rewrite Hp. split; [discriminate|].
        destruct rs' as [|r' rs']; [discriminate E|]. injection E as _ ->.
        now exists rs'.
      * left. split; [reflexivity|].
        destruct rs' as [|r' rs']; [now injection E | discriminate E].
    + destruct x as [r|]; [|destruct Ht; now left].
      intros Hn. apply Ht. now right.
  - rewrite Hunsorted. destruct x as [r|].
    + exists (rs ++ [r]). split.
      * rewrite Hstore, flat_map_app. cbn. now rewrite app_nil_r.
      * rewrite <- Hperm. cbn [somes]. solve_Permutation.
    + exists rs. split; [exact Hstore | exact Hperm].
Qed.

Lemma conserved_run (schedule : list process) (p p' : pipeline) :
  invariant S p -> readiness S p -> conserved inds head mode smode S p ->
  run schedule p = Some p' ->
  invariant S p' /\ conserved inds head mode smode S p'.
Proof.
  revert p. induction schedule as [|t schedule IH]; intros p I R C; cbn.
  - intros [= <-]. now split.
  - destruct (exec t p) as [p1|] eqn:Ht; [|discriminate].
    pose proof (invariant_exec S WF t p p1 I Ht) as I1.
    pose proof (inv_script _ p I) as HS.
    assert (readiness S p1 /\ conserved inds head mode smode S p1) as [R1 C1].
    { destruct t as [|i|]; cbn in Ht.
      - destruct (p_todo p) as [|x rest] eqn:Htodo; [discriminate|].
        destruct (perform x (p_shared p)) as [s'|] eqn:Hp; [|discriminate].
        injection Ht as <-. split.
        + apply readiness_coordinator; auto. now rewrite Htodo.
        + now apply conserved_coordinator.
      - destruct (scorer_step i (p_shared p)) as [s'|] eqn:Hs; [|discriminate].
        injection Ht as <-. split.
        + now apply readiness_scorer with (i := i).
        + now apply conserved_scorer with (i := i).
      - destruct (printer_step (p_shared p)) as [s'|] eqn:Hs; [|discriminate].
        injection Ht as <-. split.
        + now apply readiness_printer.
        + now apply conserved_printer. }
    now apply IH.
Qed.

End Carried.

Section Delivery.
Context `{Collaborators}.

(** X14: no unit of work is lost or written twice.  Once
    [variant_printer.join()] has returned the results queue is empty and the
    temporary file holds, for every unit [get_batches] emitted, the lines of
    its result -- the scoring of the batch with the individuals of the
    header, or the failure payload -- each unit once, in the order the
    results reached the printer; [sort_variants] then sorts exactly these
    lines. *)
Theorem no_unit_lost (o : options) (w : world)
    (schedule : list process) (p : pipeline) :
  run schedule (launch o w) = Some p ->
  In (OCall E_variant_printer_join) (p_done p) ->
  sh_results (p_shared p) = []
  /\ exists rs,
      Permutation rs (map (result_of (individuals_attr (parsed w))) (units_of o w))
      /\ sh_store (p_shared p)
         = if has_sorted (p_done p)
           then sort_lines "chromosome"
                  (flat_map (render (registered w) "chromosome") rs)
           else flat_map (render (registered w) "chromosome") rs.
Proof.
  intros Hrun Hpj.
  destruct (conserved_run _ _ _ _ _ (well_formed_script o w) (well_ordered_script o w)
              (well_supplied_script o w) schedule (launch o w) p) as [I C]; auto.
  { apply invariant_boot, well_formed_script. }
  { apply readiness_boot. }
  { apply conserved_boot. }
  pose proof (joined_before_printer_join _ (well_formed_script o w) p I Hpj) as Hj.
  destruct (joined_all_exited _ p I Hj) as (_ & Hq & _ & Hall).
  destruct (inv_joined _ p I Hj) as [Hcalm _].
  pose proof (inv_printer _ p I Hpj) as Hex.
  assert (Hres : sh_results (p_shared p) = []).
  { pose proof (cv_tail _ _ _ _ _ _ C) as Ht.
    destruct (marker_sent (p_done p)) eqn:Hsent.
    - destruct Ht as [[_ Hr] | [Hne _]]; [exact Hr | contradiction].
    - exfalso.
      assert (Hin : In (OCall E_results_put_None) (p_done p))
        by (apply (inv_results _ p I); now right).
      unfold marker_sent in Hsent.
      assert (Htrue : existsb is_results_marker_op (p_done p) = true)
        by (apply existsb_exists; now exists (OCall E_results_put_None)).
      congruence. }
  split; [exact Hres|].
  destruct (cv_store _ _ _ _ _ _ C) as (rs & Hstore & Hperm).
  exists rs. split; [|exact Hstore].
  assert (Hexited : Forall (fun s => sc_pc s = Exited) (sh_scorers (p_shared p))).
  { revert Hall. apply List.Forall_impl. now intros s [He _]. }
  rewrite Hres, Hq, (in_hand_exited _ Hexited), (units_todo_calm _ Hcalm) in Hperm.
  cbn in Hperm. rewrite app_nil_r in Hperm.
  rewrite units_script in Hperm.
  destruct (s_seekable (w_variant_file w)) eqn:Hs; [exact Hperm|].
  exfalso.
  assert (Hin : In (OCall E_variant_printer_join) (script (calls_of o w))).
  { rewrite <- (inv_script _ p I), in_app_iff. now left. }
  rewrite (script_unseekable o w Hs) in Hin.
  assert (Hnone : forallb (fun x => negb (is_printer_join_op x))
                    (map OCall (calls_header w)) = true) by forallb_segments.
  rewrite forallb_forall in Hnone. apply Hnone in Hin. discriminate Hin.
Qed.

End Delivery.

(** * The claims on a concrete run

    The file [Lines.vcf] scored with two workers. *)
Import Lines.

Lemma terminal_marker_after_barrier_witness :
  run until_terminal_marker (launch two_workers world_ok) = Some at_terminal_marker
  /\ In None (sh_results (p_shared at_terminal_marker))
  /\ Forall (fun s => sc_pc s = Exited) (sh_scorers (p_shared at_terminal_marker))
  /\ forall i, exec (Scorer i) at_terminal_marker = None.
Proof.
  assert (Hrun : run until_terminal_marker (launch two_workers world_ok)
                 = Some at_terminal_marker) by reflexivity.
  destruct (terminal_marker_after_barrier two_workers world_ok
              until_terminal_marker at_terminal_marker Hrun)
    as (_ & Hsent & _ & Hstuck).
  split; [exact Hrun|]. split; [left; reflexivity|]. split.
  - apply Hsent. apply (nth_error_In _ 39). reflexivity.
  - apply Hstuck. left. left. reflexivity.
Defined.

Lemma one_marker_per_worker_witness :
  run whole_run (launch two_workers world_ok) = Some at_end
  /\ length (sh_scorers (p_shared at_end)) = 2
  /\ Forall (fun s => sc_markers s = 1 /\ sc_pc s = Exited)
       (sh_scorers (p_shared at_end)).
Proof.
  assert (Hrun : run whole_run (launch two_workers world_ok) = Some at_end)
    by reflexivity.
  destruct (one_marker_per_worker two_workers world_ok whole_run at_end Hrun)
    as (_ & _ & _ & _ & Hjoined).
  destruct Hjoined as [Hlen Hall]; [apply (nth_error_In _ 38); reflexivity|].
  split; [exact Hrun|]. split; [reflexivity | exact Hall].
Defined.

Lemma batch_queue_bounded_witness :
  run until_full (launch no_worker world_long) = Some at_full
  /\ length (sh_variant_queue (p_shared at_full)) = 1000
  /\ exec Coordinator at_full = None.
Proof.
  assert (Hrun : run until_full (launch no_worker world_long) = Some at_full)
    by reflexivity.
  destruct (batch_queue_bounded no_worker world_long until_full at_full Hrun)
    as (_ & _ & Hfull).
  split; [exact Hrun|]. split; [reflexivity|].
  edestruct Hfull as [Hblocked _];
    [reflexivity | reflexivity | | exact Hblocked].
  discriminate.
Defined.

Lemma batches_precede_markers_witness :
  run until_marker_at_head (launch two_workers world_ok) = Some at_marker_at_head
  /\ sh_variant_queue (p_shared at_marker_at_head) = [None; None]
  /\ Forall (fun x => x = None) ([None] ++ future_puts (p_todo at_marker_at_head)).
Proof.
  assert (Hrun : run until_marker_at_head (launch two_workers world_ok)
                 = Some at_marker_at_head) by reflexivity.
  destruct (batches_precede_markers two_workers world_ok until_marker_at_head
              at_marker_at_head Hrun) as (_ & _ & _ & Hhead & _).
  split; [exact Hrun|]. split; [reflexivity|].
  apply Hhead. reflexivity.
Defined.

Lemma output_options_leave_scratch_alone_witness :
  vep two_workers = vep two_workers_silent
  /\ processes two_workers = processes two_workers_silent
  /\ run whole_run (launch two_workers world_ok) = Some at_end
  /\ exists p',
      run whole_run (launch two_workers_silent world_ok) = Some p'
      /\ sh_store (p_shared p') = ["1 100 . A T"].
Proof.
  assert (Hrun : run whole_run (launch two_workers world_ok) = Some at_end)
    by reflexivity.
  split; [reflexivity|]. split; [reflexivity|]. split; [exact Hrun|].
  destruct (output_options_leave_scratch_alone two_workers two_workers_silent
              world_ok eq_refl eq_refl) as (_ & _ & Hsim).
  destruct (Hsim whole_run at_end Hrun) as (p' & Hrun' & _ & Hstore).
  exists p'. split; [exact Hrun' | exact Hstore].
Defined.

Lemma unseekable_input_fails_witness :
  s_seekable (w_variant_file world_pipe) = false
  /\ run pipe_run (launch two_workers world_pipe) = Some at_pipe_end
  /\ click_File "-" pipe_system = Some (w_variant_file world_pipe)
  /\ p_todo at_pipe_end = []
  /\ exception_of two_workers world_pipe = Some UnsupportedOperation
  /\ sh_results (p_shared at_pipe_end) = [].
Proof.
  assert (Hrun : run pipe_run (launch two_workers world_pipe) = Some at_pipe_end)
    by reflexivity.
  destruct (unseekable_input_fails two_workers world_pipe pipe_system pipe_run
              at_pipe_end eq_refl Hrun) as (Hcli & Hexn & _ & _ & _ & Hres & _).
  split; [reflexivity|]. split; [exact Hrun|]. split; [exact Hcli|].
  split; [reflexivity|]. split; [exact Hexn | exact Hres].
Defined.

Lemma relinearization_order_witness :
  s_seekable (w_variant_file world_ok) = true
  /\ count_if is_print_headers (calls_of two_workers world_ok) = 1.
Proof.
  split; [reflexivity|].
  destruct (relinearization_order two_workers world_ok eq_refl)
    as (pre & post & _ & _ & Hone).
  exact Hone.
Defined.

Lemma header_registered_once_witness :
  s_seekable (w_variant_file world_ok) = true
  /\ count_if is_add_metadata (calls_of two_workers world_ok) = 1
  /\ head_after two_workers world_ok = registered world_ok.
Proof.
  split; [reflexivity|].
  destruct (header_registered_once two_workers world_ok eq_refl)
    as (rest & _ & _ & _ & Hone & _ & _ & Hend).
  split; [exact Hone | exact Hend].
Defined.

Lemma get_batches_called :
  In (E_get_batches (mkStream vcf 0 true) (registered world_ok) false true)
    (calls_of two_workers world_ok).
Proof. apply (nth_error_In _ 32). reflexivity. Qed.

Lemma producer_input_rewound_witness :
  In (E_get_batches (mkStream vcf 0 true) (registered world_ok) false true)
    (calls_of two_workers world_ok)
  /\ s_pos (mkStream vcf 0 true) = 0
  /\ remaining (mkStream vcf 0 true) = vcf.
Proof.
  split; [exact get_batches_called|].
  destruct (producer_input_rewound two_workers world_ok _ _ _ _ get_batches_called)
    as (Hpos & Hlines & _).
  split; [exact Hpos | exact Hlines].
Defined.

(** C4 fails on the file [Lines.vcf]: [get_batches] is handed the stream at
    its first line, which is the meta line ["##fileformat=VCFv4.1"]. *)
Lemma producer_input_not_past_header :
  ~ producer_input_past_header two_workers world_ok.
Proof.
  intros Hpast. specialize (Hpast _ _ _ _ get_batches_called). discriminate Hpast.
Qed.

Lemma scratch_removed_last_witness :
  s_seekable (w_variant_file world_remove_fails) = true
  /\ exception_of two_workers world_remove_fails = Some (OSError "/tmp/tmpq1")
  /\ scratch_after two_workers world_remove_fails = Some ["1 100 . A T"].
Proof.
  split; [reflexivity|].
  destruct (scratch_removed_last two_workers world_remove_fails eq_refl)
    as (pre & _ & _ & _ & Hexn & Hfile).
  split; [exact Hexn | exact Hfile].
Defined.

(** C2 fails when [os.remove] fails: the command ends with the [OSError]. *)
Lemma deletion_failure_is_fatal :
  ~ deletion_failure_tolerated two_workers world_remove_fails.
Proof.
  intros Htol. specialize (Htol eq_refl). vm_compute in Htol. discriminate Htol.
Qed.

(** * Further properties on concrete runs *)


Lemma one_scratch_file_witness :
  In (E_sort_variants "/tmp/tmpq1" "chromosome") (calls_of two_workers world_ok)
  /\ "/tmp/tmpq1" = w_temp_name world_ok
  /\ count_if is_temp_creation (calls_of two_workers world_ok) = 1.
Proof.
  assert (Hin : In (E_sort_variants "/tmp/tmpq1" "chromosome")
                  (calls_of two_workers world_ok))
    by (apply (nth_error_In _ 40); reflexivity).
  destruct (one_scratch_file two_workers world_ok _ _ Hin eq_refl)
    as (Hname & Hone & _).
  split; [exact Hin|]. split; [exact Hname | exact Hone].
Defined.

Lemma failed_seek_leaves_no_scratch_witness :
  s_seekable (w_variant_file world_pipe) = false
  /\ scratch_after two_workers world_pipe = None
  /\ s_pos (stream_after two_workers world_pipe) = 3.
Proof.
  split; [reflexivity|].
  destruct (failed_seek_leaves_no_scratch two_workers world_pipe eq_refl)
    as (Hfile & _ & _ & Hpos).
  split; [exact Hfile | exact Hpos].
Defined.

Lemma clean_exit_leaves_nothing_witness :
  exception_of two_workers world_ok = None
  /\ scratch_after two_workers world_ok = None
  /\ remaining (stream_after two_workers world_ok) = [].
Proof.
  assert (Hexn : exception_of two_workers world_ok = None) by reflexivity.
  destruct (clean_exit_leaves_nothing two_workers world_ok Hexn)
    as (Hfile & _ & Hend & _).
  split; [exact Hexn|]. split; [exact Hfile | exact Hend].
Defined.

Lemma elapsed_time_reported_witness :
  In (E_log INFO "Time for whole analyis: {0}" [VTimedelta 20])
    (calls_of two_workers world_ok)
  /\ 20%Z = (nth 2 (w_clock world_ok) 0 - nth 0 (w_clock world_ok) 0)%Z
  /\ count_if is_clock_reading (calls_of two_workers world_ok) = 3.
Proof.
  assert (Hin : In (E_log INFO "Time for whole analyis: {0}" [VTimedelta 20])
                  (calls_of two_workers world_ok))
    by (apply (nth_error_In _ 48); reflexivity).
  destruct (elapsed_time_reported two_workers world_ok _ _ Hin eq_refl)
    as (Hd & Hthree & _).
  split; [exact Hin|]. split; [exact Hd | exact Hthree].
Defined.

Lemma default_pool_size_witness :
  processes default_workers = default_processes (w_cpu_count world_ok)
  /\ s_seekable (w_variant_file world_ok) = true
  /\ count_if is_creation (calls_of default_workers world_ok) <= 4
  /\ 1 <= count_if is_creation (calls_of default_workers world_ok).
Proof.
  split; [reflexivity|]. split; [reflexivity|].
  destruct (default_pool_size default_workers world_ok eq_refl eq_refl)
    as (Hmost & _ & Hleast & _).
  split; [exact Hmost|]. apply Hleast. cbn. lia.
Defined.

Lemma pool_ready_before_work_witness :
  run until_marker_at_head (launch two_workers world_ok) = Some at_marker_at_head
  /\ sh_variant_queue (p_shared at_marker_at_head) <> []
  /\ In (OCall E_variant_printer_start) (p_done at_marker_at_head)
  /\ length (sh_scorers (p_shared at_marker_at_head)) = 2.
Proof.
  assert (Hrun : run until_marker_at_head (launch two_workers world_ok)
                 = Some at_marker_at_head) by reflexivity.
  assert (Hbusy : sh_variant_queue (p_shared at_marker_at_head) <> [])
    by discriminate.
  destruct (pool_ready_before_work two_workers world_ok until_marker_at_head
              at_marker_at_head Hrun (or_introl Hbusy))
    as (Hstarted & _ & Hlen & _).
  split; [exact Hrun|]. split; [exact Hbusy|]. split; [exact Hstarted|].
  rewrite Hlen. reflexivity.
Defined.

Lemma no_worker_never_joins_witness :
  (processes no_worker <= 0)%Z
  /\ batches_in (units_of no_worker world_ok) <> []
  /\ run until_join (launch no_worker world_ok) = Some at_join
  /\ hd_error (p_todo at_join) = Some (OCall E_variant_queue_join)
  /\ exec Coordinator at_join = None
  /\ sh_scorers (p_shared at_join) = []
  /\ ~ In (OCall E_variant_queue_join) (p_done at_join).
Proof.
  assert (Hn : (processes no_worker <= 0)%Z) by (cbn; lia).
  assert (Hb : batches_in (units_of no_worker world_ok) <> []) by discriminate.
  assert (Hrun : run until_join (launch no_worker world_ok) = Some at_join)
    by reflexivity.
  destruct (no_worker_never_joins no_worker world_ok until_join at_join
              Hn eq_refl Hb Hrun) as (_ & _ & _ & Hnone & _ & Hnot & _).
  split; [exact Hn|]. split; [exact Hb|]. split; [exact Hrun|].
  split; [reflexivity|]. split; [reflexivity|]. split; [exact Hnone | exact Hnot].
Defined.

Lemma pipeline_never_stuck_witness :
  (1 <= processes two_workers)%Z
  /\ run until_marker_at_head (launch two_workers world_ok) = Some at_marker_at_head
  /\ p_todo at_marker_at_head <> []
  /\ exists t p', exec t at_marker_at_head = Some p'.
Proof.
  assert (Hn : (1 <= processes two_workers)%Z) by (cbn; lia).
  assert (Hrun : run until_marker_at_head (launch two_workers world_ok)
                 = Some at_marker_at_head) by reflexivity.
  assert (Hne : p_todo at_marker_at_head <> []) by discriminate.
  split; [exact Hn|]. split; [exact Hrun|]. split; [exact Hne|].
  exact (pipeline_never_stuck two_workers world_ok until_marker_at_head
           at_marker_at_head Hn Hrun Hne).
Defined.

Lemma pipeline_runs_to_completion_witness :
  (1 <= processes two_workers)%Z
  /\ run until_terminal_marker (launch two_workers world_ok) = Some at_terminal_marker
  /\ exists rest p', run rest at_terminal_marker = Some p' /\ p_todo p' = [].
Proof.
  assert (Hn : (1 <= processes two_workers)%Z) by (cbn; lia).
  assert (Hrun : run until_terminal_marker (launch two_workers world_ok)
                 = Some at_terminal_marker) by reflexivity.
  split; [exact Hn|]. split; [exact Hrun|].
  exact (proj2 (pipeline_runs_to_completion two_workers world_ok
                  until_terminal_marker at_terminal_marker Hn Hrun)).
Defined.

Lemma no_unit_lost_witness :
  run whole_run (launch two_workers world_ok) = Some at_end
  /\ In (OCall E_variant_printer_join) (p_done at_end)
  /\ sh_results (p_shared at_end) = []
  /\ exists rs,
      Permutation rs [["1 100 . A T"]]
      /\ sh_store (p_shared at_end) = sort (flat_map id rs).
Proof.
  assert (Hrun : run whole_run (launch two_workers world_ok) = Some at_end)
    by reflexivity.
  assert (Hin : In (OCall E_variant_printer_join) (p_done at_end))
    by (apply (nth_error_In _ 40); reflexivity).
  split; [exact Hrun|]. split; [exact Hin|].
  exact (no_unit_lost two_workers world_ok whole_run at_end Hrun Hin).
Defined.
